(** * kaspad [app.ComponentManager]: lifecycle, notification bridge, seeding

    A shallow embedding of [app/component_manager.go].  Go code is written
    as a program in a small free monad [Prog] over the calls the component
    manager makes on its collaborators (network adapter, connection manager,
    RPC manager, address manager, DNS/GRPC seeders, logger) and on the
    machine ([atomic.AddInt32], [panic], process exit).  A program is run
    against a [World], either as one call executed to completion ([run]) or
    as one of several goroutines interleaved by a schedule ([exec]).
    [NewComponentManager] and its helpers are written in a state-passing
    monad [Build] that records the calls made on the constructors of the
    other packages. *)

From Stdlib Require Import ZArith Lia.
From stdpp Require Import base list strings.

(** ** Go values *)

(** [int32] arithmetic wraps around silently. *)
Definition int32_wrap (z : Z) : Z := ((z + 2 ^ 31) mod 2 ^ 32 - 2 ^ 31)%Z.

(** A Go pointer is either [nil] or points to a value. *)
Definition ptr (A : Type) : Type := option A.

(** The message carried by a non-nil Go [error]; the nil error is [None]. *)
Definition error : Type := string.

(** [appmessage.ServiceFlag] is a [uint64] bit field. *)
Definition ServiceFlag : Type := Z.

Inductive LogLevel : Type :=
| LevelTrace | LevelInfo | LevelWarn | LevelError | LevelCritical.

(** What a Go [panic] carries: the error handed to [panic(err)], or the
    runtime error of a failed type assertion or nil dereference. *)
Inductive PanicValue : Type :=
| PanicError (err : error)
| RuntimeError (msg : string).

(** How a call ends: it returns, the process exits, or it panics. *)
Inductive Outcome (A : Type) : Type :=
| Returned (a : A)
| Exited
| Panicked (v : PanicValue).
Arguments Returned {A} a.
Arguments Exited {A}.
Arguments Panicked {A} v.

(** The two [int32] fields of [ComponentManager] touched by
    [atomic.AddInt32]. *)
Inductive Int32Field : Type := field_started | field_shutdown.

(** What this file imports from packages that are not part of it: the
    types [daghash.Hash], [appmessage.NetAddress], [dagconfig.Params],
    [dnsseed.LookupFunc], [subnetworkid.SubnetworkID],
    [indexers.AcceptanceIndex] and [indexers.Manager]; the method
    [(daghash.Hash).String], the textual form of a block hash; the constant
    [appmessage.SFNodeNetwork], the full-node service bit; and the
    constructor [indexers.NewAcceptanceIndex]. *)
Class Imports : Type := {
  Hash : Type;
  NetAddress : Type;
  Params : Type;
  LookupFunc : Type;
  SubnetworkID : Type;
  indexers_AcceptanceIndex : Type;
  indexers_Manager : Type;
  Hash_String : Hash → string;
  SFNodeNetwork : ServiceFlag;
  NewAcceptanceIndex : ptr indexers_AcceptanceIndex;
}.

Section App.

Context `{Imports}.

(** The fields of [config.Config] read by this file's lifecycle, bridge
    and seeding code. *)
Record Config : Type := {
  AcceptanceIndex : bool;
  DisableDNSSeed : bool;
  DNSSeed : string;
  GRPCSeed : string;
  NetParams : Params;
  Lookup : LookupFunc;
}.

(** [ComponentManager]: the configuration and the two counters.  The
    collaborator handles ([netAdapter], [connectionManager], ...) are the
    ambient collaborators of the [World]. *)
Record ComponentManager : Type := {
  cfg : Config;
  started : Z;
  shutdown : Z;
}.

(** ** Observable calls on collaborators *)

Inductive Event : Type :=
| EvLog (lvl : LogLevel) (msg : string)
| EvNetAdapterStart
| EvNetAdapterStop
| EvConnectionManagerStart
| EvConnectionManagerStop
| EvSeedFromDNS (params : Params) (customSeed : string)
    (reqServices : ServiceFlag) (includeAllSubnetworks : bool)
    (subnetworkID : ptr SubnetworkID) (lookupFn : LookupFunc)
| EvSeedFromGRPC (params : Params) (host : string)
    (reqServices : ServiceFlag) (includeAllSubnetworks : bool)
    (subnetworkID : ptr SubnetworkID)
| EvAddAddresses (addresses : list (ptr NetAddress))
| EvNotifyChainChanged (removed added : list (ptr Hash))
| EvNotifyFinalityConflict (violatingBlockHash : string)
| EvNotifyFinalityConflictResolved (finalityBlockHash : string)
| EvExit.

(** ** Programs *)

(** [Effect R] is a call that hands a value of type [R] back to the
    program.  [Callback] is the type of the [seedFn] closures handed to the
    seeders. *)
Inductive Effect (Callback : Type) : Type → Type :=
| AtomicAddInt32 (addr : Int32Field) (delta : Z) : Effect Callback Z
| LoadCfg : Effect Callback Config
| Log (lvl : LogLevel) (msg : string) : Effect Callback unit
| NetAdapter_Start : Effect Callback (option error)
| NetAdapter_Stop : Effect Callback (option error)
| ConnectionManager_Start : Effect Callback unit
| ConnectionManager_Stop : Effect Callback unit
| AddressManager_AddAddresses (addresses : list (ptr NetAddress)) :
    Effect Callback unit
| RPC_NotifyChainChanged (removed added : list (ptr Hash)) :
    Effect Callback (option error)
| RPC_NotifyFinalityConflict (violatingBlockHash : string) :
    Effect Callback (option error)
| RPC_NotifyFinalityConflictResolved (finalityBlockHash : string) :
    Effect Callback (option error)
| Dnsseed_SeedFromDNS (params : Params) (customSeed : string)
    (reqServices : ServiceFlag) (includeAllSubnetworks : bool)
    (subnetworkID : ptr SubnetworkID) (lookupFn : LookupFunc)
    (seedFn : Callback) : Effect Callback unit
| Dnsseed_SeedFromGRPC (params : Params) (host : string)
    (reqServices : ServiceFlag) (includeAllSubnetworks : bool)
    (subnetworkID : ptr SubnetworkID)
    (seedFn : Callback) : Effect Callback unit
| OsExit : Effect Callback Empty_set
| Panic (v : PanicValue) : Effect Callback Empty_set.

(** [Prog A] is a program returning [A]: it returns, or makes a call and
    continues with the value handed back. *)
#[local] Set Warnings "-register-all".
Inductive Prog (A : Type) : Type :=
| Ret (a : A)
| Vis {R : Type} (e : Effect (list (ptr NetAddress) → Prog unit) R)
    (k : R → Prog A).
#[local] Set Warnings "register-all".

Arguments Ret {A} a.
Arguments Vis {A R} e k.
Arguments AtomicAddInt32 {Callback} addr delta.
Arguments LoadCfg {Callback}.
Arguments Log {Callback} lvl msg.
Arguments NetAdapter_Start {Callback}.
Arguments NetAdapter_Stop {Callback}.
Arguments ConnectionManager_Start {Callback}.
Arguments ConnectionManager_Stop {Callback}.
Arguments AddressManager_AddAddresses {Callback} addresses.
Arguments RPC_NotifyChainChanged {Callback} removed added.
Arguments RPC_NotifyFinalityConflict {Callback} violatingBlockHash.
Arguments RPC_NotifyFinalityConflictResolved {Callback} finalityBlockHash.
Arguments Dnsseed_SeedFromDNS {Callback} params customSeed reqServices
  includeAllSubnetworks subnetworkID lookupFn seedFn.
Arguments Dnsseed_SeedFromGRPC {Callback} params host reqServices
  includeAllSubnetworks subnetworkID seedFn.
Arguments OsExit {Callback}.
Arguments Panic {Callback} v.

(** [dnsseed.OnSeed]: the closure a seeder calls with a batch of addresses. *)
Definition OnSeed : Type := list (ptr NetAddress) → Prog unit.

Fixpoint bind {A B : Type} (m : Prog A) (f : A → Prog B) : Prog B :=
  match m with
  | Ret a => f a
  | Vis e k => Vis e (λ r, bind (k r) f)
  end.

#[export] Instance Prog_ret : MRet Prog := λ A a, Ret a.
#[export] Instance Prog_bind : MBind Prog := λ A B f m, bind m f.

(** A call whose result the program uses. *)
Definition call {R : Type} (e : Effect OnSeed R) : Prog R := Vis e Ret.

(** A call that never hands control back. *)
Definition abort {A : Type} (e : Effect OnSeed Empty_set) : Prog A :=
  Vis e (λ r : Empty_set, match r with end).

(** Dereferencing a pointer panics on [nil]. *)
Definition deref {A : Type} (p : ptr A) : Prog A :=
  match p with
  | Some a => Ret a
  | None =>
      abort (Panic (RuntimeError "invalid memory address or nil pointer dereference"))
  end.

(** ** The Go code *)

(** An [indexers.Indexer] interface value; the only implementation this
    file stores in one is a pointer to [indexers.AcceptanceIndex]. *)
Inductive Indexer : Type :=
| Indexer_AcceptanceIndex (p : ptr indexers_AcceptanceIndex).

(** [indexers.NewManager], the constructor of the index manager. *)
Variable NewManager : list Indexer → ptr indexers_Manager.

(** A [blockdag.IndexManager] interface value: the nil interface, or a
    pointer to [indexers.Manager] (which may itself be a nil pointer)
    wrapped in the interface. *)
Inductive IndexManager : Type :=
| IndexManager_nil
| IndexManager_Manager (p : ptr indexers_Manager).

(** [blockdag.NotificationType], an integer type declared in package
    [blockdag].  The three constants the bridge switches on are distinct (a
    Go switch does not compile with duplicate constant cases); every other
    value of the type is an [NTOther]. *)
Inductive NotificationType : Type :=
| NTChainChanged
| NTFinalityConflict
| NTFinalityConflictResolved
| NTOther (tag : Z).

Record ChainChangedNotificationData : Type := {
  RemovedChainBlockHashes : list (ptr Hash);
  AddedChainBlockHashes : list (ptr Hash);
}.

Record FinalityConflictNotificationData : Type := {
  ViolatingBlockHash : ptr Hash;
}.

Record FinalityConflictResolvedNotificationData : Type := {
  FinalityBlockHash : ptr Hash;
}.

(** The dynamic value of the [interface{}] field [Notification.Data]. *)
Inductive NotificationData : Type :=
| Data_nil
| Data_ChainChanged (p : ptr ChainChangedNotificationData)
| Data_FinalityConflict (p : ptr FinalityConflictNotificationData)
| Data_FinalityConflictResolved
    (p : ptr FinalityConflictResolvedNotificationData)
| Data_other.

Record Notification : Type := {
  Type' : NotificationType;
  Data : NotificationData;
}.

(** A failed single-value type assertion [x.(T)] panics. *)
Definition assertion_failed {A : Type} : Prog A :=
  abort (Panic (RuntimeError "interface conversion")).

(** The type assertion of [data] to a pointer to
    [blockdag.ChainChangedNotificationData]. *)
Definition assert_ChainChanged (data : NotificationData) :
    Prog (ptr ChainChangedNotificationData) :=
  match data with
  | Data_ChainChanged p => Ret p
  | _ => assertion_failed
  end.

(** The type assertion of [data] to a pointer to
    [blockdag.FinalityConflictNotificationData]. *)
Definition assert_FinalityConflict (data : NotificationData) :
    Prog (ptr FinalityConflictNotificationData) :=
  match data with
  | Data_FinalityConflict p => Ret p
  | _ => assertion_failed
  end.

(** The type assertion of [data] to a pointer to
    [blockdag.FinalityConflictResolvedNotificationData]. *)
Definition assert_FinalityConflictResolved (data : NotificationData) :
    Prog (ptr FinalityConflictResolvedNotificationData) :=
  match data with
  | Data_FinalityConflictResolved p => Ret p
  | _ => assertion_failed
  end.

(** [fmt.Sprintf] with a format ending in [%+v] applied to an error. *)
Definition Sprintf_err (prefix : string) (err : error) : string :=
  prefix +:+ err.

(** Modelled from the spec: [panics.Exit] of package [util/panics] is not
    in this file; per the spec it "logs the cause and terminates the
    process". *)
Definition panics_Exit {A : Type} (reason : string) : Prog A :=
  call (Log LevelCritical reason);; abort OsExit.

(** The function literal [maybeSeedFromDNS] hands to a seeder as
    [seedFn] (the same body for both seeders). *)
Definition onSeed : OnSeed :=
  λ addresses, call (AddressManager_AddAddresses addresses).

Definition maybeSeedFromDNS : Prog unit :=
  c ← call LoadCfg;
  (if negb (DisableDNSSeed c) then
     call (Dnsseed_SeedFromDNS (NetParams c) (DNSSeed c) SFNodeNetwork false
             None (Lookup c) onSeed)
   else Ret ());;
  if decide (GRPCSeed c ≠ "") then
    call (Dnsseed_SeedFromGRPC (NetParams c) (GRPCSeed c) SFNodeNetwork false
            None onSeed)
  else Ret ().

(** [Start] launches all the kaspad services. *)
Definition Start : Prog unit :=
  v ← call (AtomicAddInt32 field_started 1);
  (* Already started? *)
  if decide (v ≠ 1%Z) then Ret ()
  else
    call (Log LevelTrace "Starting kaspad");;
    err ← call NetAdapter_Start;
    match err with
    | Some e => panics_Exit (Sprintf_err "Error starting the net adapter: " e)
    | None => Ret ()
    end;;
    maybeSeedFromDNS;;
    call ConnectionManager_Start.

(** [Stop] gracefully shuts down all the kaspad services. *)
Definition Stop : Prog unit :=
  v ← call (AtomicAddInt32 field_shutdown 1);
  (* Make sure this only happens once. *)
  if decide (v ≠ 1%Z) then
    call (Log LevelInfo "Kaspad is already in the process of shutting down")
  else
    call (Log LevelWarn "Kaspad shutting down");;
    call ConnectionManager_Stop;;
    err ← call NetAdapter_Stop;
    match err with
    | Some e =>
        call (Log LevelError (Sprintf_err "Error stopping the net adapter: " e))
    | None => Ret ()
    end.

Definition handleBlockDAGNotifications (notification : ptr Notification)
    (acceptanceIndex : ptr indexers_AcceptanceIndex) : Prog (option error) :=
  n ← deref notification;
  match Type' n with
  | NTChainChanged =>
      match acceptanceIndex with
      | None => Ret None
      | Some _ =>
          p ← assert_ChainChanged (Data n);
          chainChangedNotificationData ← deref p;
          err ← call (RPC_NotifyChainChanged
                        (RemovedChainBlockHashes chainChangedNotificationData)
                        (AddedChainBlockHashes chainChangedNotificationData));
          match err with
          | Some e => Ret (Some e)
          | None => Ret None
          end
      end
  | NTFinalityConflict =>
      p ← assert_FinalityConflict (Data n);
      finalityConflictNotificationData ← deref p;
      h ← deref (ViolatingBlockHash finalityConflictNotificationData);
      err ← call (RPC_NotifyFinalityConflict (Hash_String h));
      match err with
      | Some e => Ret (Some e)
      | None => Ret None
      end
  | NTFinalityConflictResolved =>
      p ← assert_FinalityConflictResolved (Data n);
      finalityConflictResolvedNotificationData ← deref p;
      h ← deref (FinalityBlockHash finalityConflictResolvedNotificationData);
      err ← call (RPC_NotifyFinalityConflictResolved (Hash_String h));
      match err with
      | Some e => Ret (Some e)
      | None => Ret None
      end
  | NTOther _ => Ret None
  end.

(** The function literal [setupRPC] passes to [dag.Subscribe]. *)
Definition dagSubscriber (acceptanceIndex : ptr indexers_AcceptanceIndex)
    (notification : ptr Notification) : Prog unit :=
  err ← handleBlockDAGNotifications notification acceptanceIndex;
  match err with
  | Some e => abort (Panic (PanicError e))
  | None => Ret ()
  end.

Definition setupIndexes (cfg : Config) :
    Prog (IndexManager * ptr indexers_AcceptanceIndex) :=
  (* Create indexes if needed. *)
  let indexes : list Indexer := [] in
  let acceptanceIndex : ptr indexers_AcceptanceIndex := None in
  '(indexes, acceptanceIndex) ←
    (if AcceptanceIndex cfg then
       call (Log LevelInfo "acceptance index is enabled");;
       let acceptanceIndex := NewAcceptanceIndex in
       Ret (indexes ++ [Indexer_AcceptanceIndex acceptanceIndex],
            acceptanceIndex)
     else Ret (indexes, acceptanceIndex));
  (* Create an index manager if any of the optional indexes are enabled. *)
  if decide (Z.of_nat (length indexes) < 0)%Z then
    Ret (IndexManager_nil, None)
  else
    let indexManager := NewManager indexes in
    Ret (IndexManager_Manager indexManager, acceptanceIndex).

(** ** The world a program runs in *)

(** A goroutine that has returned. *)
Definition returned (p : Prog unit) : Prop :=
  match p with Ret _ => True | Vis _ _ => False end.

(** The component manager behind the receiver [a], the calls made on the
    collaborators so far (oldest first), and the goroutines spawned so
    far. *)
Record World : Type := {
  this : ComponentManager;
  trace : list Event;
  goroutines : list (Prog unit);
}.

(** What the collaborators answer, as a function of the calls made before
    the one being answered. *)
Record Collaborators : Type := {
  netAdapter_Start : list Event → option error;
  netAdapter_Stop : list Event → option error;
  rpcManager_NotifyChainChanged :
    list Event → list (ptr Hash) → list (ptr Hash) → option error;
  rpcManager_NotifyFinalityConflict : list Event → string → option error;
  rpcManager_NotifyFinalityConflictResolved :
    list Event → string → option error;
  dnsSeeder_batches : list Event → list (list (ptr NetAddress));
  grpcSeeder_batches : list Event → list (list (ptr NetAddress));
}.

Definition load (addr : Int32Field) (a : ComponentManager) : Z :=
  match addr with
  | field_started => started a
  | field_shutdown => shutdown a
  end.

Definition store (addr : Int32Field) (v : Z) (a : ComponentManager) :
    ComponentManager :=
  match addr with
  | field_started => {| cfg := cfg a; started := v; shutdown := shutdown a |}
  | field_shutdown => {| cfg := cfg a; started := started a; shutdown := v |}
  end.

Definition write (addr : Int32Field) (v : Z) (w : World) : World :=
  {| this := store addr v (this w); trace := trace w;
     goroutines := goroutines w |}.

Definition emit (e : Event) (w : World) : World :=
  {| this := this w; trace := trace w ++ [e]; goroutines := goroutines w |}.

Definition spawn (gs : list (Prog unit)) (w : World) : World :=
  {| this := this w; trace := trace w; goroutines := goroutines w ++ gs |}.

Section Semantics.

Variable env : Collaborators.

(** Modelled from the spec: [dnsseed.SeedFromDNS] is not in this file; per
    the spec the seeder "performs an asynchronous lookup" and hands "each
    returned batch" to [seedFn].  The call is recorded and one goroutine per
    batch the seeder obtains is spawned, running [seedFn] on that batch. *)
Definition dnsseed_SeedFromDNS (params : Params) (customSeed : string)
    (reqServices : ServiceFlag) (includeAllSubnetworks : bool)
    (subnetworkID : ptr SubnetworkID) (lookupFn : LookupFunc)
    (seedFn : OnSeed) (w : World) : World :=
  spawn (seedFn <$> dnsSeeder_batches env (trace w))
    (emit (EvSeedFromDNS params customSeed reqServices includeAllSubnetworks
             subnetworkID lookupFn) w).

(** Modelled from the spec: [dnsseed.SeedFromGRPC] is not in this file; per
    the spec it is "an independent, concurrently-running lookup with the
    same merge behavior". *)
Definition dnsseed_SeedFromGRPC (params : Params) (host : string)
    (reqServices : ServiceFlag) (includeAllSubnetworks : bool)
    (subnetworkID : ptr SubnetworkID) (seedFn : OnSeed) (w : World) : World :=
  spawn (seedFn <$> grpcSeeder_batches env (trace w))
    (emit (EvSeedFromGRPC params host reqServices includeAllSubnetworks
             subnetworkID) w).

(** One call, made in world [w].  A call on a collaborator is recorded in
    the trace and answered by the collaborator; [os.Exit] and [panic] do not
    hand control back. *)
Definition perform {R : Type} (e : Effect OnSeed R) (w : World) :
    Outcome R * World :=
  match e in Effect _ R return Outcome R * World with
  | AtomicAddInt32 addr delta =>
      let v := int32_wrap (load addr (this w) + delta) in
      (Returned v, write addr v w)
  | LoadCfg => (Returned (cfg (this w)), w)
  | Log lvl msg => (Returned (), emit (EvLog lvl msg) w)
  | NetAdapter_Start =>
      (Returned (netAdapter_Start env (trace w)), emit EvNetAdapterStart w)
  | NetAdapter_Stop =>
      (Returned (netAdapter_Stop env (trace w)), emit EvNetAdapterStop w)
  | ConnectionManager_Start => (Returned (), emit EvConnectionManagerStart w)
  | ConnectionManager_Stop => (Returned (), emit EvConnectionManagerStop w)
  | AddressManager_AddAddresses addresses =>
      (Returned (), emit (EvAddAddresses addresses) w)
  | RPC_NotifyChainChanged removed added =>
      (Returned (rpcManager_NotifyChainChanged env (trace w) removed added),
       emit (EvNotifyChainChanged removed added) w)
  | RPC_NotifyFinalityConflict h =>
      (Returned (rpcManager_NotifyFinalityConflict env (trace w) h),
       emit (EvNotifyFinalityConflict h) w)
  | RPC_NotifyFinalityConflictResolved h =>
      (Returned (rpcManager_NotifyFinalityConflictResolved env (trace w) h),
       emit (EvNotifyFinalityConflictResolved h) w)
  | Dnsseed_SeedFromDNS params customSeed reqServices all subnetworkID
      lookupFn seedFn =>
      (Returned (),
       dnsseed_SeedFromDNS params customSeed reqServices all subnetworkID
         lookupFn seedFn w)
  | Dnsseed_SeedFromGRPC params host reqServices all subnetworkID seedFn =>
      (Returned (),
       dnsseed_SeedFromGRPC params host reqServices all subnetworkID seedFn w)
  | OsExit => (Exited, emit EvExit w)
  | Panic v => (Panicked v, w)
  end.

(** A call of [p] executed to completion, nothing else running meanwhile. *)
Fixpoint run {A : Type} (p : Prog A) (w : World) : Outcome A * World :=
  match p with
  | Ret a => (Returned a, w)
  | Vis e k =>
      match perform e w with
      | (Returned r, w') => run (k r) w'
      | (Exited, w') => (Exited, w')
      | (Panicked v, w') => (Panicked v, w')
      end
  end.

(** The process: alive, or brought down by an exit or an unrecovered
    panic of one of its goroutines. *)
Inductive Status : Type :=
| Alive
| Dead.

(** Goroutine [i] makes its next call.  A goroutine that has returned, or
    an index that names no goroutine, leaves the process as it is. *)
Definition step (i : nat) (s : Status * World) : Status * World :=
  match s with
  | (Alive, w) =>
      match goroutines w !! i with
      | Some (Vis e k) =>
          match perform e w with
          | (Returned r, w') =>
              (Alive,
               {| this := this w'; trace := trace w';
                  goroutines := <[i := k r]> (goroutines w') |})
          | (_, w') => (Dead, w')
          end
      | _ => s
      end
  | (Dead, _) => s
  end.

(** The process under a schedule: the goroutine to step, turn by turn. *)
Definition exec (sched : list nat) (s : Status * World) : Status * World :=
  foldl (λ s i, step i s) s sched.

(** [finishes_at q]: wherever [q] sits in a pool, some schedule makes it
    and everything spawned on the way return, leaving the other goroutines
    as they are, unless the process dies. *)
Definition finishes_at (q : Prog unit) : Prop :=
  ∀ w i,
    goroutines w !! i = Some q →
    ∃ sched,
      (exec sched (Alive, w)).1 = Dead
      ∨ ∃ news,
          goroutines (exec sched (Alive, w)).2
          = <[i:=Ret ()]> (goroutines w) ++ news
          ∧ Forall returned news.

(** [calm p]: [p] and the goroutines it spawns never exit and never
    panic, whatever the collaborators [env] may answer on the way. *)
Fixpoint calm (p : Prog unit) {struct p} : Prop :=
  match p with
  | Ret _ => True
  | Vis e k =>
      match e with
      | Dnsseed_SeedFromDNS _ _ _ _ _ _ seedFn => ∀ batch, calm (seedFn batch)
      | Dnsseed_SeedFromGRPC _ _ _ _ _ seedFn => ∀ batch, calm (seedFn batch)
      | OsExit | Panic _ => False
      | _ => True
      end
      ∧ ∀ w r, (perform e w).1 = Returned r → calm (k r)
  end.

(** The world [maybeSeedFromDNS] leaves behind. *)
Definition seeded (w : World) : World :=
  let c := cfg (this w) in
  let w1 :=
    if DisableDNSSeed c then w
    else dnsseed_SeedFromDNS (NetParams c) (DNSSeed c) SFNodeNetwork false
           None (Lookup c) onSeed w in
  if decide (GRPCSeed c = "") then w1
  else dnsseed_SeedFromGRPC (NetParams c) (GRPCSeed c) SFNodeNetwork false
         None onSeed w1.

(** The world the shutdown body leaves behind. *)
Definition stopped (w : World) : World :=
  let w3 :=
    emit EvNetAdapterStop
      (emit EvConnectionManagerStop
         (emit (EvLog LevelWarn "Kaspad shutting down") w)) in
  match netAdapter_Stop env
          (trace w ++ [EvLog LevelWarn "Kaspad shutting down";
                       EvConnectionManagerStop]) with
  | Some e =>
      emit (EvLog LevelError ("Error stopping the net adapter: " +:+ e)) w3
  | None => w3
  end.

(** What the RPC manager answers to the notifier call [ev] made after the
    calls [t]. *)
Definition notifier_reply (t : list Event) (ev : Event) : option error :=
  match ev with
  | EvNotifyChainChanged removed added =>
      rpcManager_NotifyChainChanged env t removed added
  | EvNotifyFinalityConflict h => rpcManager_NotifyFinalityConflict env t h
  | EvNotifyFinalityConflictResolved h =>
      rpcManager_NotifyFinalityConflictResolved env t h
  | _ => None
  end.

(** One more call of [p]; nothing runs once the process is gone. *)
Definition again (p : Prog unit) (s : Outcome unit * World) :
    Outcome unit * World :=
  match s with
  | (Returned _, w) => run p w
  | _ => s
  end.

(** [n] calls of [p], one after the other. *)
Definition run_times (n : N) (p : Prog unit) (w : World) :
    Outcome unit * World :=
  N.iter n (again p) (Returned (), w).

End Semantics.

(** ** Counting calls *)

Fixpoint calls (P : Event → bool) (t : list Event) : nat :=
  match t with
  | [] => 0
  | e :: t => (if P e then 1 else 0) + calls P t
  end.

Definition isNetAdapterStart (e : Event) : bool :=
  match e with EvNetAdapterStart => true | _ => false end.

Definition isNetAdapterStop (e : Event) : bool :=
  match e with EvNetAdapterStop => true | _ => false end.

Definition isConnectionManagerStart (e : Event) : bool :=
  match e with EvConnectionManagerStart => true | _ => false end.

Definition isConnectionManagerStop (e : Event) : bool :=
  match e with EvConnectionManagerStop => true | _ => false end.

Definition isSeedFromDNS (e : Event) : bool :=
  match e with EvSeedFromDNS _ _ _ _ _ _ => true | _ => false end.

Definition isSeedFromGRPC (e : Event) : bool :=
  match e with EvSeedFromGRPC _ _ _ _ _ => true | _ => false end.

(** Calls on the RPC manager's notifiers the bridge forwards to. *)
Definition isNotify (e : Event) : bool :=
  match e with
  | EvNotifyChainChanged _ _ | EvNotifyFinalityConflict _
  | EvNotifyFinalityConflictResolved _ => true
  | _ => false
  end.

(** The addresses handed to the address manager so far. *)
Fixpoint addressBook (t : list Event) : list (ptr NetAddress) :=
  match t with
  | [] => []
  | EvAddAddresses addresses :: t => addresses ++ addressBook t
  | _ :: t => addressBook t
  end.

(** ** Methods guarded by a counter *)

(** The shape shared by [Start] and [Stop]: bump a counter atomically and
    run [body] only when the bumped value is 1, [skip] otherwise. *)
Definition once (fld : Int32Field) (skip body : Prog unit) : Prog unit :=
  Vis (AtomicAddInt32 fld 1) (λ v, if decide (v ≠ 1%Z) then skip else body).

(** What [Start] does once it holds the "started" slot. *)
Definition Start_body : Prog unit :=
  call (Log LevelTrace "Starting kaspad");;
  err ← call NetAdapter_Start;
  match err with
  | Some e => panics_Exit (Sprintf_err "Error starting the net adapter: " e)
  | None => Ret ()
  end;;
  maybeSeedFromDNS;;
  call ConnectionManager_Start.

Definition Stop_skip : Prog unit :=
  call (Log LevelInfo "Kaspad is already in the process of shutting down").

(** What [Stop] does once it holds the "shutdown" slot. *)
Definition Stop_body : Prog unit :=
  call (Log LevelWarn "Kaspad shutting down");;
  call ConnectionManager_Stop;;
  err ← call NetAdapter_Stop;
  match err with
  | Some e =>
      call (Log LevelError (Sprintf_err "Error stopping the net adapter: " e))
  | None => Ret ()
  end.

(** The event a call leaves in the trace. *)
Definition event_of {R : Type} (e : Effect OnSeed R) : option Event :=
  match e with
  | AtomicAddInt32 _ _ | LoadCfg | Panic _ => None
  | Log lvl msg => Some (EvLog lvl msg)
  | NetAdapter_Start => Some EvNetAdapterStart
  | NetAdapter_Stop => Some EvNetAdapterStop
  | ConnectionManager_Start => Some EvConnectionManagerStart
  | ConnectionManager_Stop => Some EvConnectionManagerStop
  | AddressManager_AddAddresses addresses => Some (EvAddAddresses addresses)
  | RPC_NotifyChainChanged removed added =>
      Some (EvNotifyChainChanged removed added)
  | RPC_NotifyFinalityConflict h => Some (EvNotifyFinalityConflict h)
  | RPC_NotifyFinalityConflictResolved h =>
      Some (EvNotifyFinalityConflictResolved h)
  | Dnsseed_SeedFromDNS params customSeed reqServices all subnetworkID
      lookupFn _ =>
      Some (EvSeedFromDNS params customSeed reqServices all subnetworkID
              lookupFn)
  | Dnsseed_SeedFromGRPC params host reqServices all subnetworkID _ =>
      Some (EvSeedFromGRPC params host reqServices all subnetworkID)
  | OsExit => Some EvExit
  end.

Section Owes.

Variable fld : Int32Field.
Variable P : Event → bool.

Definition cost {R : Type} (e : Effect OnSeed R) : nat :=
  match event_of e with
  | Some ev => if P ev then 1 else 0
  | None => 0
  end.

(** [owes p d]: [p] and the goroutines it spawns leave the counter [fld]
    alone, and on every way [p] can run until it returns it makes exactly
    [d] calls counted by [P]. *)
Fixpoint owes (p : Prog unit) (d : nat) {struct p} : Prop :=
  match p with
  | Ret _ => d = 0
  | Vis e k =>
      match e with
      | AtomicAddInt32 addr _ => addr ≠ fld
      | Dnsseed_SeedFromDNS _ _ _ _ _ _ seedFn => ∀ batch, owes (seedFn batch) 0
      | Dnsseed_SeedFromGRPC _ _ _ _ _ seedFn => ∀ batch, owes (seedFn batch) 0
      | _ => True
      end
      ∧ ∃ d', d = cost e + d' ∧ ∀ r, owes (k r) d'
  end.

(** A goroutine of the pool has yet to bump the counter, or is past it
    with a debt of calls. *)
Inductive Tag : Type :=
| Fresh
| Passed (d : nat).

Definition debt (t : Tag) : nat :=
  match t with Fresh => 0 | Passed d => d end.

Definition fresh (t : Tag) : nat :=
  match t with Fresh => 1 | Passed _ => 0 end.

Definition total (f : Tag → nat) (ts : list Tag) : nat :=
  foldr (λ t acc, f t + acc) 0 ts.

Variables skip body : Prog unit.

Definition tagged (p : Prog unit) (t : Tag) : Prop :=
  match t with
  | Fresh => p = once fld skip body
  | Passed d => owes p d
  end.

(** The invariant of a pool that started with [pool] goroutines, [n] of
    which entered [once fld skip body]: the counter tells how many of them
    are past the bump, the calls made so far plus the calls still owed add
    up to one as soon as one goroutine is past it, and the goroutines
    spawned since owe nothing. *)
Definition Inv (pool n : nat) (w : World) : Prop :=
  ∃ ts : list Tag,
    Forall2 tagged (goroutines w) ts
    ∧ total fresh ts ≤ n
    ∧ load fld (this w) = int32_wrap (Z.of_nat (n - total fresh ts))
    ∧ calls P (trace w) + total debt ts
      = (if decide (total fresh ts = n) then 0 else 1)
    ∧ ∀ j t, pool ≤ j → ts !! j = Some t → t = Passed 0.

Definition Safe (pool n : nat) (s : Status * World) : Prop :=
  match s.1 with
  | Alive => Inv pool n s.2
  | Dead => calls P (trace s.2) ≤ 1
  end.

End Owes.

(** The goroutines a call spawns. *)
Definition spawned (env : Collaborators) {R : Type} (e : Effect OnSeed R)
    (w : World) : list (Prog unit) :=
  match e with
  | Dnsseed_SeedFromDNS _ _ _ _ _ _ seedFn =>
      seedFn <$> dnsSeeder_batches env (trace w)
  | Dnsseed_SeedFromGRPC _ _ _ _ _ seedFn =>
      seedFn <$> grpcSeeder_batches env (trace w)
  | _ => []
  end.

End App.

Arguments Ret {_ A} a.
Arguments Vis {_ A R} e k.
Arguments AtomicAddInt32 {_ Callback} addr delta.
Arguments LoadCfg {_ Callback}.
Arguments Log {_ Callback} lvl msg.
Arguments NetAdapter_Start {_ Callback}.
Arguments NetAdapter_Stop {_ Callback}.
Arguments ConnectionManager_Start {_ Callback}.
Arguments ConnectionManager_Stop {_ Callback}.
Arguments AddressManager_AddAddresses {_ Callback} addresses.
Arguments RPC_NotifyChainChanged {_ Callback} removed added.
Arguments RPC_NotifyFinalityConflict {_ Callback} violatingBlockHash.
Arguments RPC_NotifyFinalityConflictResolved {_ Callback} finalityBlockHash.
Arguments Dnsseed_SeedFromDNS {_ Callback} params customSeed reqServices
  includeAllSubnetworks subnetworkID lookupFn seedFn.
Arguments Dnsseed_SeedFromGRPC {_ Callback} params host reqServices
  includeAllSubnetworks subnetworkID seedFn.
Arguments OsExit {_ Callback}.
Arguments Panic {_ Callback} v.

(** ** A concrete node *)

(** A process right after [NewComponentManager]: both counters are zero,
    no call has been made, and the goroutines [gs] are about to run. *)
Definition fresh_process `{Imports} (c : Config) (gs : list (Prog unit)) :
    World :=
  {| this := {| cfg := c; started := 0; shutdown := 0 |};
     trace := [];
     goroutines := gs |}.

Definition demo : Imports :=
  {| Hash := string;
     NetAddress := string;
     Params := string;
     LookupFunc := unit;
     SubnetworkID := unit;
     indexers_AcceptanceIndex := unit;
     indexers_Manager := nat;
     Hash_String := λ h, h;
     SFNodeNetwork := 1%Z;
     NewAcceptanceIndex := Some () |}.

Section Demo.

#[local] Existing Instance demo.

Definition demo_NewManager (indexes : list Indexer) : ptr indexers_Manager :=
  Some (length indexes).

(** DNS seeding on, no GRPC seed, no acceptance index. *)
Definition demo_cfg : Config :=
  {| AcceptanceIndex := false;
     DisableDNSSeed := false;
     DNSSeed := "seeder.example";
     GRPCSeed := "";
     NetParams := "testnet";
     Lookup := () |}.

(** Every collaborator succeeds; the DNS seeder finds one batch of two
    addresses. *)
Definition fair_weather : Collaborators :=
  {| netAdapter_Start := λ _, None;
     netAdapter_Stop := λ _, None;
     rpcManager_NotifyChainChanged := λ _ _ _, None;
     rpcManager_NotifyFinalityConflict := λ _ _, None;
     rpcManager_NotifyFinalityConflictResolved := λ _ _, None;
     dnsSeeder_batches := λ _, [[Some "A1"; Some "A2"]];
     grpcSeeder_batches := λ _, [] |}.

(** The network adapter fails to start and to stop, and the RPC manager
    rejects every notification. *)
Definition foul_weather : Collaborators :=
  {| netAdapter_Start := λ _, Some "listen: address already in use";
     netAdapter_Stop := λ _, Some "use of closed network connection";
     rpcManager_NotifyChainChanged := λ _ _ _, Some "rpc: queue closed";
     rpcManager_NotifyFinalityConflict := λ _ _, Some "rpc: queue closed";
     rpcManager_NotifyFinalityConflictResolved :=
       λ _ _, Some "rpc: queue closed";
     dnsSeeder_batches := λ _, [];
     grpcSeeder_batches := λ _, [] |}.

(** [ChainChanged{removed: [B1], added: [B2, B3]}] *)
Definition demo_ChainChangedData : ChainChangedNotificationData :=
  {| RemovedChainBlockHashes := [Some "B1"];
     AddedChainBlockHashes := [Some "B2"; Some "B3"] |}.

Definition demo_ChainChanged : Notification :=
  {| Type' := NTChainChanged;
     Data := Data_ChainChanged (Some demo_ChainChangedData) |}.

Definition demo_FinalityConflict : Notification :=
  {| Type' := NTFinalityConflict;
     Data := Data_FinalityConflict (Some {| ViolatingBlockHash := Some "V" |}) |}.

(** A notification of a type the bridge does not switch on. *)
Definition demo_BlockAdded : Notification :=
  {| Type' := NTOther 0; Data := Data_other |}.

(** Goroutine 0 and 1 take turns, then goroutine 2, then whatever was
    spawned as goroutine 3. *)
Definition demo_schedule : list nat :=
  [0; 1; 0; 1; 0; 0; 2; 0; 0; 0; 2; 2; 2; 2; 3; 1; 0].

(** The same turns without that of goroutine 3: the three calls return
    while the goroutine spawned for the seeder's batch has yet to run. *)
Definition demo_calls_schedule : list nat :=
  [0; 1; 0; 1; 0; 0; 2; 0; 0; 0; 2; 2; 2; 2; 1; 0].

End Demo.

(** ** Calls that come in order *)

Section Ahead.

Context `{Imports}.

(** Calls counted by [P] are to come first, calls counted by [Q] after
    them. *)
Variables P Q : Event → bool.

(** [ahead p k]: wherever [p] stops, the [Q]-calls it has made exceed the
    [P]-calls it has made by at most [k], and a goroutine it spawns makes
    each [Q]-call after a [P]-call of its own. *)
Fixpoint ahead (p : Prog unit) (k : nat) {struct p} : Prop :=
  match p with
  | Ret _ => True
  | Vis e kont =>
      match e with
      | Dnsseed_SeedFromDNS _ _ _ _ _ _ seedFn => ∀ batch, ahead (seedFn batch) 0
      | Dnsseed_SeedFromGRPC _ _ _ _ _ seedFn => ∀ batch, ahead (seedFn batch) 0
      | _ => True
      end
      ∧ cost Q e ≤ k + cost P e
      ∧ ∀ r, ahead (kont r) (k + cost P e - cost Q e)
  end.

(** The invariant of a pool: the [Q]-calls made so far, plus those the
    goroutines may still make before a [P]-call of their own, do not exceed
    the [P]-calls made so far. *)
Definition InOrder (w : World) : Prop :=
  ∃ ks : list nat,
    Forall2 ahead (goroutines w) ks
    ∧ calls Q (trace w) + sum_list ks ≤ calls P (trace w).

Definition Orderly (s : Status * World) : Prop :=
  match s.1 with
  | Alive => InOrder s.2
  | Dead => calls Q (trace s.2) ≤ calls P (trace s.2)
  end.

End Ahead.

(** No call at all. *)
Definition never `{Imports} (e : Event) : bool := false.

(** ** Log lines *)

(** The line a [Stop] call logs when it is not the one to shut down. *)
Definition isAlreadyShuttingDown `{Imports} (e : Event) : bool :=
  match e with
  | EvLog LevelInfo msg =>
      String.eqb msg "Kaspad is already in the process of shutting down"
  | _ => false
  end.

(** ** Seeds on their way to the address book *)

Section Seeds.

Context `{Imports}.
Variable env : Collaborators.

(** The batches the seeder called by [ev] obtains, [t] being the calls
    made before [ev]. *)
Definition batches_of (t : list Event) (ev : Event) :
    list (list (ptr NetAddress)) :=
  match ev with
  | EvSeedFromDNS _ _ _ _ _ _ => dnsSeeder_batches env t
  | EvSeedFromGRPC _ _ _ _ _ => grpcSeeder_batches env t
  | _ => []
  end.

(** [hands_onSeed p]: every seeder [p] calls is handed [onSeed]. *)
Fixpoint hands_onSeed (p : Prog unit) : Prop :=
  match p with
  | Ret _ => True
  | Vis e k =>
      match e with
      | Dnsseed_SeedFromDNS _ _ _ _ _ _ seedFn => seedFn = onSeed
      | Dnsseed_SeedFromGRPC _ _ _ _ _ seedFn => seedFn = onSeed
      | _ => True
      end
      ∧ ∀ r, hands_onSeed (k r)
  end.

(** The event the next call of a goroutine leaves in the trace. *)
Definition next_event (p : Prog unit) : option Event :=
  match p with
  | Ret _ => None
  | Vis e _ => event_of e
  end.

(** Every batch a seeder obtained so far is held by a goroutine about to
    hand it to the address manager, or has been handed over. *)
Definition Pending (w : World) : Prop :=
  ∀ t1 ev t2 batch,
    trace w = t1 ++ ev :: t2 →
    batch ∈ batches_of t1 ev →
    (∃ i, goroutines w !! i = Some (onSeed batch))
    ∨ EvAddAddresses batch ∈ trace w.

Definition Seeding (s : Status * World) : Prop :=
  match s.1 with
  | Alive => Pending s.2 ∧ Forall hands_onSeed (goroutines s.2)
  | Dead => True
  end.

(** [adds_nothing p]: [p] hands nothing to the address manager itself,
    and every seeder it calls is handed [onSeed]. *)
Fixpoint adds_nothing (p : Prog unit) : Prop :=
  match p with
  | Ret _ => True
  | Vis e k =>
      match e with
      | AddressManager_AddAddresses _ => False
      | Dnsseed_SeedFromDNS _ _ _ _ _ _ seedFn => seedFn = onSeed
      | Dnsseed_SeedFromGRPC _ _ _ _ _ seedFn => seedFn = onSeed
      | _ => True
      end
      ∧ ∀ r, adds_nothing (k r)
  end.

(** [batch] was obtained by a seeder called in the course of [t]. *)
Definition obtained (t : list Event) (batch : list (ptr NetAddress)) : Prop :=
  ∃ t1 ev t2, t = t1 ++ ev :: t2 ∧ batch ∈ batches_of t1 ev.

(** Whatever was handed to the address manager was obtained by a seeder,
    and so is whatever a goroutine is about to hand over. *)
Definition OnlySeeded (s : Status * World) : Prop :=
  (∀ batch, EvAddAddresses batch ∈ trace s.2 → obtained (trace s.2) batch)
  ∧ (s.1 = Alive →
     Forall (λ p, adds_nothing p
                  ∨ ∃ batch, p = onSeed batch ∧ obtained (trace s.2) batch)
       (goroutines s.2)).

End Seeds.

(** ** Construction *)

(** What [NewComponentManager] and its helpers import from packages that
    are not part of this file.  Each type stands for the Go type the code
    passes around, pointers as they are: [*dbaccess.DatabaseContext],
    [*txscript.SigCache], [*blockdag.BlockDAG], [blockdag.TimeSource],
    [*mempool.TxPool], [*netadapter.NetAdapter], [*id.ID],
    [*addressmanager.AddressManager], [*addressmanager.Config],
    [*connmanager.ConnectionManager], [*protocol.Manager], [*rpc.Manager],
    [*mining.BlkTmplGenerator] and the channel type of [interrupt]; and the
    constant [config.DefaultMaxOrphanTxSize]. *)
Class Packages : Type := {
  dbaccess_DatabaseContext : Type;
  txscript_SigCache : Type;
  blockdag_BlockDAG : Type;
  blockdag_TimeSource : Type;
  mempool_TxPool : Type;
  netadapter_NetAdapter : Type;
  id_ID : Type;
  addressmanager_AddressManager : Type;
  addressmanager_Config : Type;
  connmanager_ConnectionManager : Type;
  protocol_Manager : Type;
  rpc_Manager : Type;
  mining_BlkTmplGenerator : Type;
  Chan : Type;
  DefaultMaxOrphanTxSize : Z;
}.

Section Construction.

Context `{Imports} `{Packages}.

(** [config.Config] as the construction code reads it: the fields the
    lifecycle reads, and those only [NewComponentManager] and its helpers
    read. *)
Record FullConfig : Type := {
  lifecycle : Config;
  SigCacheMaxSize : Z;
  cfg_SubnetworkID : ptr SubnetworkID;
  MaxUTXOCacheSize : Z;
  RelayNonStd : bool;
  MaxOrphanTxs : Z;
  MinRelayTxFee : Z;
  BlockMaxMass : Z;
}.

(** [blockdag.Config], the fields [setupDAG] fills in. *)
Record blockdag_Config : Type := {
  blockdag_Config_DatabaseContext : dbaccess_DatabaseContext;
  blockdag_Config_DAGParams : Params;
  blockdag_Config_TimeSource : blockdag_TimeSource;
  blockdag_Config_SigCache : txscript_SigCache;
  blockdag_Config_IndexManager : IndexManager;
  blockdag_Config_SubnetworkID : ptr SubnetworkID;
  blockdag_Config_MaxUTXOCacheSize : Z;
}.

(** [mempool.Policy], the fields [setupMempool] fills in. *)
Record mempool_Policy : Type := {
  AcceptNonStd : bool;
  mempool_Policy_MaxOrphanTxs : Z;
  MaxOrphanTxSize : Z;
  mempool_Policy_MinRelayTxFee : Z;
  MaxTxVersion : Z;
}.

(** The method value [dag.CalcTxSequenceLockFromReferencedUTXOEntries]:
    the method bound to its receiver. *)
Inductive blockdag_Method : Type :=
| CalcTxSequenceLockFromReferencedUTXOEntries (dag : blockdag_BlockDAG).

(** [mempool.Config], the fields [setupMempool] fills in. *)
Record mempool_Config : Type := {
  mempool_Config_Policy : mempool_Policy;
  mempool_Config_CalcTxSequenceLockFromReferencedUTXOEntries : blockdag_Method;
  mempool_Config_SigCache : txscript_SigCache;
  mempool_Config_DAG : blockdag_BlockDAG;
}.

(** [mining.Policy], the field [setupRPC] fills in. *)
Record mining_Policy : Type := {
  mining_Policy_BlockMaxMass : Z;
}.

(** The method values [rpcManager.NotifyBlockAddedToDAG] and
    [rpcManager.NotifyTransactionAddedToMempool]. *)
Inductive rpc_Method : Type :=
| NotifyBlockAddedToDAG (rpcManager : rpc_Manager)
| NotifyTransactionAddedToMempool (rpcManager : rpc_Manager).

(** The struct [ComponentManager] with all its fields. *)
Record Node : Type := {
  node_cfg : FullConfig;
  addressManager : addressmanager_AddressManager;
  protocolManager : protocol_Manager;
  rpcManager : rpc_Manager;
  connectionManager : connmanager_ConnectionManager;
  netAdapter : netadapter_NetAdapter;
  node_started : Z;
  node_shutdown : Z;
}.

(** The part of the struct [Start] and [Stop] work on. *)
Definition receiver (a : Node) : ComponentManager :=
  {| cfg := lifecycle (node_cfg a);
     started := node_started a;
     shutdown := node_shutdown a |}.

(** The calls the construction code makes on other packages, with their
    arguments. *)
Inductive Call : Type :=
| Call_txscript_NewSigCache (maxSize : Z)
| Call_blockdag_NewTimeSource
| Call_blockdag_New (config : blockdag_Config)
| Call_mempool_New (config : mempool_Config)
| Call_netadapter_NewNetAdapter (cfg : FullConfig)
| Call_addressmanager_NewConfig (cfg : FullConfig)
| Call_addressmanager_New (config : addressmanager_Config)
| Call_connmanager_New (cfg : FullConfig) (netAdapter : netadapter_NetAdapter)
    (addressManager : addressmanager_AddressManager)
| Call_protocol_NewManager (cfg : FullConfig) (dag : blockdag_BlockDAG)
    (netAdapter : netadapter_NetAdapter)
    (addressManager : addressmanager_AddressManager)
    (txMempool : mempool_TxPool)
    (connectionManager : connmanager_ConnectionManager)
| Call_mining_NewBlkTmplGenerator (policy : mining_Policy)
    (txMempool : mempool_TxPool) (dag : blockdag_BlockDAG)
    (sigCache : txscript_SigCache)
| Call_rpc_NewManager (cfg : FullConfig) (netAdapter : netadapter_NetAdapter)
    (dag : blockdag_BlockDAG) (protocolManager : protocol_Manager)
    (connectionManager : connmanager_ConnectionManager)
    (blockTemplateGenerator : mining_BlkTmplGenerator)
    (txMempool : mempool_TxPool)
    (addressManager : addressmanager_AddressManager)
    (acceptanceIndex : ptr indexers_AcceptanceIndex) (shutDownChan : Chan)
| Call_SetOnBlockAddedToDAGHandler (protocolManager : protocol_Manager)
    (handler : rpc_Method)
| Call_SetOnTransactionAddedToMempoolHandler
    (protocolManager : protocol_Manager) (handler : rpc_Method)
| Call_Subscribe (dag : blockdag_BlockDAG)
    (callback : ptr Notification → Prog unit)
| Call_NetAdapter_ID (netAdapter : netadapter_NetAdapter).

(** What the constructors and the method [ID] of the network adapter hand
    back, as a function of their arguments. *)
Record Constructors : Type := {
  txscript_NewSigCache : Z → txscript_SigCache;
  blockdag_NewTimeSource : blockdag_TimeSource;
  blockdag_New : blockdag_Config → blockdag_BlockDAG * option error;
  mempool_New : mempool_Config → mempool_TxPool;
  netadapter_NewNetAdapter : FullConfig → netadapter_NetAdapter * option error;
  addressmanager_NewConfig : FullConfig → addressmanager_Config;
  addressmanager_New :
    addressmanager_Config → addressmanager_AddressManager * option error;
  connmanager_New :
    FullConfig → netadapter_NetAdapter → addressmanager_AddressManager →
    connmanager_ConnectionManager * option error;
  protocol_NewManager :
    FullConfig → blockdag_BlockDAG → netadapter_NetAdapter →
    addressmanager_AddressManager → mempool_TxPool →
    connmanager_ConnectionManager → protocol_Manager * option error;
  mining_NewBlkTmplGenerator :
    mining_Policy → mempool_TxPool → blockdag_BlockDAG → txscript_SigCache →
    mining_BlkTmplGenerator;
  rpc_NewManager :
    FullConfig → netadapter_NetAdapter → blockdag_BlockDAG → protocol_Manager →
    connmanager_ConnectionManager → mining_BlkTmplGenerator → mempool_TxPool →
    addressmanager_AddressManager → ptr indexers_AcceptanceIndex → Chan →
    rpc_Manager;
  netAdapter_ID : netadapter_NetAdapter → id_ID;
}.

(** Where construction stands: the calls made on other packages so far
    (oldest first), and the world of the running process. *)
Record Site : Type := {
  built : list Call;
  world : World;
}.

(** Construction code: a state-passing computation on a [Site]. *)
Definition Build (A : Type) : Type := Site → Outcome A * Site.

#[export] Instance Build_ret : MRet Build := λ A a s, (Returned a, s).
#[export] Instance Build_bind : MBind Build := λ A B f m s,
  match m s with
  | (Returned a, s') => f a s'
  | (Exited, s') => (Exited, s')
  | (Panicked v, s') => (Panicked v, s')
  end.

Variable env : Collaborators.
Variable mk : Constructors.
Variable NewManager : list Indexer → ptr indexers_Manager.

(** The call [c] on another package, which hands back [a]. *)
Definition construct {A : Type} (c : Call) (a : A) : Build A :=
  λ s, (Returned a, {| built := built s ++ [c]; world := world s |}).

(** Code of this file that runs in the world of the process. *)
Definition lift {A : Type} (p : Prog A) : Build A :=
  λ s, ((run env p (world s)).1,
        {| built := built s; world := (run env p (world s)).2 |}).

(** [if err != nil { return nil, err }] *)
Definition check {A : Type} (err : option error)
    (rest : Build (ptr A * option error)) : Build (ptr A * option error) :=
  match err with
  | Some e => mret (None, Some e)
  | None => rest
  end.

Definition setupDAG (cfg : FullConfig)
    (databaseContext : dbaccess_DatabaseContext) (sigCache : txscript_SigCache)
    (indexManager : IndexManager) : Build (blockdag_BlockDAG * option error) :=
  timeSource ← construct Call_blockdag_NewTimeSource (blockdag_NewTimeSource mk);
  let config :=
    {| blockdag_Config_DatabaseContext := databaseContext;
       blockdag_Config_DAGParams := NetParams (lifecycle cfg);
       blockdag_Config_TimeSource := timeSource;
       blockdag_Config_SigCache := sigCache;
       blockdag_Config_IndexManager := indexManager;
       blockdag_Config_SubnetworkID := cfg_SubnetworkID cfg;
       blockdag_Config_MaxUTXOCacheSize := MaxUTXOCacheSize cfg |} in
  '(dag, err) ← construct (Call_blockdag_New config) (blockdag_New mk config);
  mret (dag, err).

Definition setupMempool (cfg : FullConfig) (dag : blockdag_BlockDAG)
    (sigCache : txscript_SigCache) : Build mempool_TxPool :=
  let mempoolConfig :=
    {| mempool_Config_Policy :=
         {| AcceptNonStd := RelayNonStd cfg;
            mempool_Policy_MaxOrphanTxs := MaxOrphanTxs cfg;
            MaxOrphanTxSize := DefaultMaxOrphanTxSize;
            mempool_Policy_MinRelayTxFee := MinRelayTxFee cfg;
            MaxTxVersion := 1 |};
       mempool_Config_CalcTxSequenceLockFromReferencedUTXOEntries :=
         CalcTxSequenceLockFromReferencedUTXOEntries dag;
       mempool_Config_SigCache := sigCache;
       mempool_Config_DAG := dag |} in
  construct (Call_mempool_New mempoolConfig) (mempool_New mk mempoolConfig).

(** The closure handed to [dag.Subscribe] is [dagSubscriber]; the RPC
    manager it forwards to is the one of the [World] it runs in. *)
Definition setupRPC (cfg : FullConfig) (txMempool : mempool_TxPool)
    (dag : blockdag_BlockDAG) (sigCache : txscript_SigCache)
    (netAdapter : netadapter_NetAdapter) (protocolManager : protocol_Manager)
    (connectionManager : connmanager_ConnectionManager)
    (addressManager : addressmanager_AddressManager)
    (acceptanceIndex : ptr indexers_AcceptanceIndex) (shutDownChan : Chan) :
    Build rpc_Manager :=
  let policy := {| mining_Policy_BlockMaxMass := BlockMaxMass cfg |} in
  blockTemplateGenerator ←
    construct (Call_mining_NewBlkTmplGenerator policy txMempool dag sigCache)
      (mining_NewBlkTmplGenerator mk policy txMempool dag sigCache);
  rpcManager ←
    construct
      (Call_rpc_NewManager cfg netAdapter dag protocolManager
         connectionManager blockTemplateGenerator txMempool addressManager
         acceptanceIndex shutDownChan)
      (rpc_NewManager mk cfg netAdapter dag protocolManager connectionManager
         blockTemplateGenerator txMempool addressManager acceptanceIndex
         shutDownChan);
  construct
    (Call_SetOnBlockAddedToDAGHandler protocolManager
       (NotifyBlockAddedToDAG rpcManager)) ();;
  construct
    (Call_SetOnTransactionAddedToMempoolHandler protocolManager
       (NotifyTransactionAddedToMempool rpcManager)) ();;
  construct (Call_Subscribe dag (dagSubscriber acceptanceIndex)) ();;
  mret rpcManager.

(** [NewComponentManager] returns a new [ComponentManager] instance.
    [cfg] is the configuration a non-nil pointer points to, and every
    constructor is taken to return. *)
Definition NewComponentManager (cfg : FullConfig)
    (databaseContext : dbaccess_DatabaseContext) (interrupt : Chan) :
    Build (ptr Node * option error) :=
  '(indexManager, acceptanceIndex) ←
    lift (setupIndexes NewManager (lifecycle cfg));
  sigCache ←
    construct (Call_txscript_NewSigCache (SigCacheMaxSize cfg))
      (txscript_NewSigCache mk (SigCacheMaxSize cfg));
  (* Create a new block DAG instance with the appropriate configuration. *)
  '(dag, err) ← setupDAG cfg databaseContext sigCache indexManager;
  check err $
  txMempool ← setupMempool cfg dag sigCache;
  '(netAdapter, err) ←
    construct (Call_netadapter_NewNetAdapter cfg)
      (netadapter_NewNetAdapter mk cfg);
  check err $
  config ←
    construct (Call_addressmanager_NewConfig cfg)
      (addressmanager_NewConfig mk cfg);
  '(addressManager, err) ←
    construct (Call_addressmanager_New config) (addressmanager_New mk config);
  check err $
  '(connectionManager, err) ←
    construct (Call_connmanager_New cfg netAdapter addressManager)
      (connmanager_New mk cfg netAdapter addressManager);
  check err $
  '(protocolManager, err) ←
    construct
      (Call_protocol_NewManager cfg dag netAdapter addressManager txMempool
         connectionManager)
      (protocol_NewManager mk cfg dag netAdapter addressManager txMempool
         connectionManager);
  check err $
  rpcManager ←
    setupRPC cfg txMempool dag sigCache netAdapter protocolManager
      connectionManager addressManager acceptanceIndex interrupt;
  mret (Some {| node_cfg := cfg;
                protocolManager := protocolManager;
                rpcManager := rpcManager;
                connectionManager := connectionManager;
                netAdapter := netAdapter;
                addressManager := addressManager;
                node_started := 0;
                node_shutdown := 0 |},
        None).

(** [P2PNodeID] returns the network ID associated with this
    [ComponentManager]. *)
Definition P2PNodeID (a : Node) : Build id_ID :=
  construct (Call_NetAdapter_ID (netAdapter a)) (netAdapter_ID mk (netAdapter a)).

(** [AddressManager] returns the [AddressManager] associated with this
    [ComponentManager]. *)
Definition AddressManager (a : Node) : addressmanager_AddressManager :=
  addressManager a.

(** The error a call answered with, for the constructors that can fail. *)
Definition answered_error (c : Call) : option error :=
  match c with
  | Call_blockdag_New config => (blockdag_New mk config).2
  | Call_netadapter_NewNetAdapter cfg => (netadapter_NewNetAdapter mk cfg).2
  | Call_addressmanager_New config => (addressmanager_New mk config).2
  | Call_connmanager_New cfg netAdapter addressManager =>
      (connmanager_New mk cfg netAdapter addressManager).2
  | Call_protocol_NewManager cfg dag netAdapter addressManager txMempool
      connectionManager =>
      (protocol_NewManager mk cfg dag netAdapter addressManager txMempool
         connectionManager).2
  | _ => None
  end.

(** The calls [setupRPC] makes. *)
Definition isSetupRPC (c : Call) : bool :=
  match c with
  | Call_mining_NewBlkTmplGenerator _ _ _ _
  | Call_rpc_NewManager _ _ _ _ _ _ _ _ _ _
  | Call_SetOnBlockAddedToDAGHandler _ _
  | Call_SetOnTransactionAddedToMempoolHandler _ _
  | Call_Subscribe _ _ => true
  | _ => false
  end.

(** The calls of [dag.Subscribe]. *)
Definition isSubscribe (c : Call) : bool :=
  match c with
  | Call_Subscribe _ _ => true
  | _ => false
  end.

End Construction.

(** ** A concrete construction *)

Definition demo_packages : Packages :=
  {| dbaccess_DatabaseContext := string;
     txscript_SigCache := Z;
     blockdag_BlockDAG := string;
     blockdag_TimeSource := unit;
     mempool_TxPool := string;
     netadapter_NetAdapter := string;
     id_ID := string;
     addressmanager_AddressManager := string;
     addressmanager_Config := unit;
     connmanager_ConnectionManager := string;
     protocol_Manager := string;
     rpc_Manager := string;
     mining_BlkTmplGenerator := string;
     Chan := unit;
     DefaultMaxOrphanTxSize := 100000%Z |}.

Section DemoConstruction.

#[local] Existing Instance demo.
#[local] Existing Instance demo_packages.

Definition demo_full_cfg : FullConfig :=
  {| lifecycle := demo_cfg;
     SigCacheMaxSize := 100000;
     cfg_SubnetworkID := None;
     MaxUTXOCacheSize := 5000000000;
     RelayNonStd := false;
     MaxOrphanTxs := 100;
     MinRelayTxFee := 1000;
     BlockMaxMass := 10000000 |}.

(** Every constructor succeeds. *)
Definition all_built : Constructors :=
  {| txscript_NewSigCache := λ maxSize, maxSize;
     blockdag_NewTimeSource := ();
     blockdag_New := λ _, ("dag", None);
     mempool_New := λ _, "txMempool";
     netadapter_NewNetAdapter := λ _, ("netAdapter", None);
     addressmanager_NewConfig := λ _, ();
     addressmanager_New := λ _, ("addressManager", None);
     connmanager_New := λ _ _ _, ("connectionManager", None);
     protocol_NewManager := λ _ _ _ _ _ _, ("protocolManager", None);
     mining_NewBlkTmplGenerator := λ _ _ _ _, "blockTemplateGenerator";
     rpc_NewManager := λ _ _ _ _ _ _ _ _ _ _, "rpcManager";
     netAdapter_ID := λ netAdapter, "ID of " +:+ netAdapter |}.

(** The network adapter cannot be built; the other constructors succeed. *)
Definition no_listener : Constructors :=
  {| txscript_NewSigCache := λ maxSize, maxSize;
     blockdag_NewTimeSource := ();
     blockdag_New := λ _, ("dag", None);
     mempool_New := λ _, "txMempool";
     netadapter_NewNetAdapter :=
       λ _, ("nil", Some "listen: address already in use");
     addressmanager_NewConfig := λ _, ();
     addressmanager_New := λ _, ("addressManager", None);
     connmanager_New := λ _ _ _, ("connectionManager", None);
     protocol_NewManager := λ _ _ _ _ _ _, ("protocolManager", None);
     mining_NewBlkTmplGenerator := λ _ _ _ _, "blockTemplateGenerator";
     rpc_NewManager := λ _ _ _ _ _ _ _ _ _ _, "rpcManager";
     netAdapter_ID := λ netAdapter, "ID of " +:+ netAdapter |}.

(** Nothing built yet, in a process that has made no call. *)
Definition demo_site : Site :=
  {| built := []; world := fresh_process demo_cfg [] |}.

(** The component manager [all_built] leads to. *)
Definition demo_node : Node :=
  {| node_cfg := demo_full_cfg;
     addressManager := "addressManager";
     protocolManager := "protocolManager";
     rpcManager := "rpcManager";
     connectionManager := "connectionManager";
     netAdapter := "netAdapter";
     node_started := 0;
     node_shutdown := 0 |}.

(** A [ChainChanged] notification that carries the payload of a
    [FinalityConflict]. *)
Definition demo_Mismatched : Notification :=
  {| Type' := NTChainChanged;
     Data := Data_FinalityConflict (Some {| ViolatingBlockHash := Some "V" |}) |}.

(** Two [Stop] calls take turns with a [Start] call; goroutine 3 is the
    one spawned for the seeder's batch. *)
Definition demo_stop_schedule : list nat :=
  [0; 1; 2; 0; 1; 2; 0; 0; 2; 2; 2; 2; 3].

(** The same turns without that of goroutine 3. *)
Definition demo_stop_calls_schedule : list nat :=
  [0; 1; 2; 0; 1; 2; 0; 0; 2; 2; 2; 2].

End DemoConstruction.

(** ** Proof automation *)

(** Walks a program to establish [owes]: every call on the way is
    accounted for, every answer and every branch is followed. *)
Ltac owes_step :=
  match goal with
  | |- owes _ _ _ _ => progress simpl
  | |- _ ∧ _ => split
  | |- ∃ _, _ => eexists
  | |- ∀ _, _ => intro
  | |- True => exact I
  | |- _ ≠ _ => discriminate
  | |- _ = _ => reflexivity
  | r : Empty_set |- _ => destruct r
  | |- context [match ?x with _ => _ end] => destruct x
  | |- _ => progress unfold onSeed
  end.

Ltac prove_owes := repeat owes_step.

(** Walks a program to establish [calm], with [Hok] what is known of the
    collaborators' answers. *)
Ltac calm_step Hok :=
  match goal with
  | |- calm _ _ => progress simpl
  | |- _ ∧ _ => split
  | |- True => exact I
  | |- ∀ _, _ => intro
  | Hr : Returned _ = Returned _ |- _ => rewrite ?Hok in Hr; simplify_eq
  | |- context [match ?x with _ => _ end] => destruct x
  | |- _ => progress unfold onSeed
  end.

(** Walks a program to establish [ahead]. *)
Ltac prove_ahead :=
  repeat match goal with
  | |- ahead _ _ _ _ => progress simpl
  | |- _ ∧ _ => split
  | |- ∀ _, _ => intro
  | |- True => exact I
  | |- _ ≤ _ => progress (unfold cost; simpl); lia
  | |- _ ≤ _ => lia
  | r : Empty_set |- _ => destruct r
  | |- context [match ?x with _ => _ end] => destruct x
  | |- _ => progress unfold onSeed
  end.


(** Walks a program to establish [hands_onSeed]. *)
Ltac prove_hands :=
  repeat match goal with
  | |- hands_onSeed _ => progress simpl
  | |- _ ∧ _ => split
  | |- ∀ _, _ => intro
  | |- True => exact I
  | |- _ = _ => reflexivity
  | r : Empty_set |- _ => destruct r
  | |- context [match ?x with _ => _ end] => destruct x
  end.

(** Walks a program to establish [adds_nothing]. *)
Ltac prove_adds_nothing :=
  repeat match goal with
  | |- adds_nothing _ => progress simpl
  | |- _ ∧ _ => split
  | |- ∀ _, _ => intro
  | |- True => exact I
  | |- _ = _ => reflexivity
  | r : Empty_set |- _ => destruct r
  | |- context [match ?x with _ => _ end] => destruct x
  end.

(** Settles one way through the notification handler: what it ended in,
    and the one call it made, if any. *)
Ltac handler_leaf :=
  split_and!;
  first
    [ done
    | by left
    | right; eexists; (split; [|reflexivity]); reflexivity
    | intros ? [= <-]; by eauto
    | intros ? [= <-]; eexists; (split_and!; [|reflexivity|]); done ].

(** Follows [NewComponentManager] along each of its ways out: every
    constructor that can fail answers with an error or without. *)
Ltac build_paths :=
  unfold NewComponentManager, setupDAG, setupMempool, setupRPC, lift,
    construct, check, setupIndexes;
  unfold mbind, Build_bind, mret, Build_ret; simpl;
  destruct (AcceptanceIndex _); simpl;
  repeat (match goal with
          | |- context [match ?x with _ => _ end] =>
              destruct x as [? [?|]] eqn:?
          end; simpl).

(** * Properties *)

Section Properties.

Context `{Imports}.
Variable env : Collaborators.

(** ** [int32] arithmetic *)

Lemma int32_wrap_small z :
  (- 2 ^ 31 ≤ z < 2 ^ 31)%Z → int32_wrap z = z.
Proof. unfold int32_wrap. intros Hz. rewrite Z.mod_small; lia. Qed.

Lemma int32_wrap_add_l a b :
  int32_wrap (int32_wrap a + b) = int32_wrap (a + b).
Proof.
  unfold int32_wrap.
  replace ((a + 2 ^ 31) mod 2 ^ 32 - 2 ^ 31 + b + 2 ^ 31)%Z
    with ((a + 2 ^ 31) mod 2 ^ 32 + b)%Z by lia.
  rewrite Zplus_mod_idemp_l. f_equal. f_equal. lia.
Qed.

(** Below [2 ^ 32] bumps, only the first one yields 1. *)
Lemma int32_wrap_succ_eq_1 m :
  (0 ≤ m < 2 ^ 32)%Z → int32_wrap (m + 1) = 1%Z ↔ m = 0%Z.
Proof.
  intros Hm. unfold int32_wrap. split; [|intros ->; reflexivity].
  intros Hw.
  destruct (Z_lt_le_dec (m + 1 + 2 ^ 31) (2 ^ 32)) as [Hlt|Hge].
  - rewrite Z.mod_small in Hw; lia.
  - replace (m + 1 + 2 ^ 31)%Z
      with ((m + 1 + 2 ^ 31 - 2 ^ 32) + 1 * 2 ^ 32)%Z in Hw by lia.
    rewrite Z_mod_plus_full, Z.mod_small in Hw; lia.
Qed.

Lemma int32_wrap_2_32 : int32_wrap (2 ^ 32) = 0%Z.
Proof. reflexivity. Qed.

(** ** Counting *)

Lemma calls_app P (t1 t2 : list Event) :
  calls P (t1 ++ t2) = calls P t1 + calls P t2.
Proof. induction t1 as [|e t1 IH]; simpl; [done|]. rewrite IH. lia. Qed.

Lemma calls_emit P e w :
  calls P (trace (emit e w)) = calls P (trace w) + (if P e then 1 else 0).
Proof. simpl. rewrite calls_app. simpl. lia. Qed.

(** ** What one call does to the world *)

Lemma perform_trace {R} (e : Effect OnSeed R) w :
  trace (perform env e w).2 = trace w ++ option_list (event_of e).
Proof. destruct e; simpl; by rewrite ?app_nil_r. Qed.

Lemma perform_calls P {R} (e : Effect OnSeed R) w :
  calls P (trace (perform env e w).2) = calls P (trace w) + cost P e.
Proof.
  rewrite perform_trace, calls_app. unfold cost.
  destruct (event_of e); simpl; lia.
Qed.

(** ** Running programs *)

Lemma run_bind {A B} (m : Prog A) (f : A → Prog B) w :
  run env (m ≫= f) w =
  match run env m w with
  | (Returned a, w') => run env (f a) w'
  | (Exited, w') => (Exited, w')
  | (Panicked v, w') => (Panicked v, w')
  end.
Proof.
  revert f w. induction m as [A a|A R e k IH]; intros f w; simpl; [done|].
  destruct (perform env e w) as [[r| |v] w']; simpl; [apply IH|done..].
Qed.

Lemma Start_is_once : Start = once field_started (Ret ()) Start_body.
Proof. reflexivity. Qed.

Lemma Stop_is_once : Stop = once field_shutdown Stop_skip Stop_body.
Proof. reflexivity. Qed.

Lemma run_once fld skip body w :
  run env (once fld skip body) w =
  run env
    (if decide (int32_wrap (load fld (this w) + 1) ≠ 1%Z) then skip else body)
    (write fld (int32_wrap (load fld (this w) + 1)) w).
Proof. reflexivity. Qed.


Lemma maybeSeedFromDNS_run w :
  run env maybeSeedFromDNS w = (Returned (), seeded env w).
Proof.
  unfold maybeSeedFromDNS, seeded. simpl.
  destruct (DisableDNSSeed (cfg (this w))); simpl;
    repeat case_decide; simpl; congruence.
Qed.

Lemma Start_not_first w :
  int32_wrap (started (this w) + 1) ≠ 1%Z →
  run env Start w =
  (Returned (), write field_started (int32_wrap (started (this w) + 1)) w).
Proof.
  intros Hv. rewrite Start_is_once, run_once. simpl.
  destruct (decide _); [done|contradiction].
Qed.

Lemma Start_body_ok w :
  netAdapter_Start env (trace w ++ [EvLog LevelTrace "Starting kaspad"]) = None →
  run env Start_body w =
  (Returned (),
   emit EvConnectionManagerStart
     (seeded env (emit EvNetAdapterStart
                (emit (EvLog LevelTrace "Starting kaspad") w)))).
Proof.
  intros Hok. unfold Start_body, seeded. simpl. rewrite Hok. simpl.
  destruct (DisableDNSSeed (cfg (this w))); simpl;
    repeat case_decide; simpl; congruence.
Qed.

Lemma Start_body_fails w e :
  netAdapter_Start env (trace w ++ [EvLog LevelTrace "Starting kaspad"]) = Some e →
  run env Start_body w =
  (Exited,
   emit EvExit
     (emit (EvLog LevelCritical ("Error starting the net adapter: " +:+ e))
        (emit EvNetAdapterStart
           (emit (EvLog LevelTrace "Starting kaspad") w)))).
Proof. intros Herr. unfold Start_body. simpl. rewrite Herr. reflexivity. Qed.

Lemma Start_first w :
  int32_wrap (started (this w) + 1) = 1%Z →
  run env Start w = run env Start_body (write field_started 1 w).
Proof.
  intros Hv. rewrite Start_is_once, run_once. simpl. rewrite Hv.
  destruct (decide _); [contradiction|done].
Qed.

Lemma Stop_not_first w :
  int32_wrap (shutdown (this w) + 1) ≠ 1%Z →
  run env Stop w =
  (Returned (),
   emit (EvLog LevelInfo "Kaspad is already in the process of shutting down")
     (write field_shutdown (int32_wrap (shutdown (this w) + 1)) w)).
Proof.
  intros Hv. rewrite Stop_is_once, run_once. simpl.
  destruct (decide _); [done|contradiction].
Qed.


Lemma Stop_body_run w : run env Stop_body w = (Returned (), stopped env w).
Proof.
  unfold Stop_body, stopped. simpl. rewrite <- app_assoc. simpl.
  destruct (netAdapter_Stop env _); reflexivity.
Qed.

Lemma Stop_first w :
  int32_wrap (shutdown (this w) + 1) = 1%Z →
  run env Stop w = (Returned (), stopped env (write field_shutdown 1 w)).
Proof.
  intros Hv. rewrite Stop_is_once, run_once. simpl. rewrite Hv.
  destruct (decide _); [contradiction|]. apply Stop_body_run.
Qed.

(** ** One call of a goroutine of the pool *)

Lemma perform_goroutines {R} (e : Effect OnSeed R) w :
  goroutines (perform env e w).2 = goroutines w ++ spawned env e w.
Proof. destruct e; simpl; by rewrite ?app_nil_r. Qed.

Lemma load_store_ne addr fld v a :
  addr ≠ fld → load fld (store addr v a) = load fld a.
Proof. by destruct addr, fld. Qed.

Lemma load_store addr v a : load addr (store addr v a) = v.
Proof. by destruct addr. Qed.

Section Once.

Variable fld : Int32Field.
Variable P : Event → bool.
Variables skip body : Prog unit.
Hypothesis skip_owes : owes fld P skip 0.
Hypothesis body_owes : owes fld P body 1.

Lemma total_app f (ts1 ts2 : list Tag) :
  total f (ts1 ++ ts2) = total f ts1 + total f ts2.
Proof. induction ts1 as [|t ts1 IH]; simpl; [done|]. rewrite IH. lia. Qed.

Lemma total_replicate_0 f k t : f t = 0 → total f (replicate k t) = 0.
Proof. intros Hf. induction k as [|k IH]; simpl; [done|]. lia. Qed.

Lemma total_insert f (ts : list Tag) i t t' :
  ts !! i = Some t → total f (<[i:=t']> ts) + f t = total f ts + f t'.
Proof.
  revert i. induction ts as [|t0 ts IH]; intros [|i] Hi; simplify_eq/=;
    [lia|]. specialize (IH _ Hi). lia.
Qed.

Lemma owes_quiet {R} (e : Effect OnSeed R) k d w :
  owes fld P (Vis e k) d →
  load fld (this (perform env e w).2) = load fld (this w)
  ∧ Forall (λ g, owes fld P g 0) (spawned env e w).
Proof.
  simpl. intros [Hq _]. destruct e; simpl; try done.
  - split; [by apply load_store_ne|done].
  - split; [done|]. apply Forall_fmap, Forall_forall. intros b _. apply Hq.
  - split; [done|]. apply Forall_fmap, Forall_forall. intros b _. apply Hq.
Qed.

Lemma owes_spawned (gs : list (Prog unit)) :
  Forall (λ g, owes fld P g 0) gs →
  Forall2 (tagged fld P skip body) gs (replicate (length gs) (Passed 0)).
Proof. induction 1; simpl; constructor; done. Qed.

Lemma Inv_calls pool n w :
  Inv fld P skip body pool n w → calls P (trace w) ≤ 1.
Proof. intros (ts & _ & _ & _ & Hsum & _). case_decide; lia. Qed.

Lemma step_Safe pool n i s :
  (Z.of_nat n ≤ 2 ^ 32)%Z →
  Safe fld P skip body pool n s → Safe fld P skip body pool n (step env i s).
Proof.
  intros Hn. destruct s as [[|] w]; [|done]. unfold Safe at 1. simpl.
  intros HI. destruct (goroutines w !! i) as [p|] eqn:Hi; [|done].
  pose proof HI as (ts & HF & Hle & Hld & Hsum & Htail).
  destruct (Forall2_lookup_l _ _ _ _ _ HF Hi) as (t & Hti & Ht).
  destruct t as [|d]; simpl in Ht.
  - (* the goroutine bumps the counter *)
    subst p. unfold once. simpl. unfold Safe. simpl.
    set (v := int32_wrap (load fld (this w) + 1)).
    pose proof (total_insert fresh ts i Fresh
                  (Passed (if decide (v ≠ 1%Z) then 0 else 1)) Hti) as Hf.
    pose proof (total_insert debt ts i Fresh
                  (Passed (if decide (v ≠ 1%Z) then 0 else 1)) Hti) as Hd.
    simpl in Hf, Hd.
    assert (Hv : v = int32_wrap (Z.of_nat (n - total fresh ts) + 1)).
    { unfold v. by rewrite Hld, int32_wrap_add_l. }
    assert (Hv1 : v = 1%Z ↔ n - total fresh ts = 0).
    { rewrite Hv, int32_wrap_succ_eq_1 by lia. lia. }
    exists (<[i:=Passed (if decide (v ≠ 1%Z) then 0 else 1)]> ts).
    set (ts' := <[i:=_]> ts) in *. clearbody v.
    split_and!.
    + apply Forall2_insert; [done|]. simpl. by case_decide.
    + lia.
    + simpl. rewrite load_store, Hv. f_equal. lia.
    + simpl. repeat case_decide; lia.
    + intros j t Hj Hjt. subst ts'.
      destruct (decide (j = i)) as [->|Hne];
        [by specialize (Htail i Fresh Hj Hti)|].
      rewrite list_lookup_insert_ne in Hjt by done. by eapply Htail.
  - (* the goroutine is past the bump *)
    destruct p as [a|R e k]; [done|].
    destruct (owes_quiet e k d w Ht) as [Hq Hsp].
    pose proof (perform_calls P e w) as Hc.
    pose proof (perform_goroutines e w) as Hg.
    simpl in Ht. destruct Ht as (_ & d' & -> & Hk).
    pose proof (total_insert fresh ts i _ (Passed d') Hti) as Hf.
    pose proof (total_insert debt ts i _ (Passed d') Hti) as Hd.
    simpl in Hf, Hd.
    destruct (perform env e w) as [[r| |v] w'] eqn:Hp; simpl in *;
      unfold Safe; simpl.
    + exists (<[i:=Passed d']> (ts ++ replicate (length (spawned env e w)) (Passed 0))).
      rewrite Hg.
      assert (Hi' : (ts ++ replicate (length (spawned env e w)) (Passed 0)) !! i
                    = Some (Passed (cost P e + d'))).
      { by apply lookup_app_l_Some. }
      pose proof (total_insert fresh _ i _ (Passed d') Hi') as Hf'.
      pose proof (total_insert debt _ i _ (Passed d') Hi') as Hd'.
      rewrite !total_app, !total_replicate_0 in Hf', Hd' by done.
      simpl in Hf', Hd'.
      split_and!.
      * apply Forall2_insert; [|apply Hk].
        apply Forall2_app; [done|by apply owes_spawned].
      * lia.
      * simpl. rewrite Hq, Hld. f_equal. lia.
      * simpl. repeat case_decide; lia.
      * intros j t Hj Hjt. destruct (decide (j = i)) as [->|Hne].
        -- rewrite list_lookup_insert_eq in Hjt
             by (by eapply lookup_lt_Some).
           injection Hjt as <-.
           specialize (Htail i _ Hj Hti). injection Htail as Hd0.
           f_equal. lia.
        -- rewrite list_lookup_insert_ne in Hjt by done.
           apply lookup_app_Some in Hjt as [Hjt|[_ Hjt]];
             [by eapply Htail|].
           by apply lookup_replicate in Hjt as [-> _].
    + case_decide; lia.
    + case_decide; lia.
Qed.

Lemma exec_Safe pool n sched s :
  (Z.of_nat n ≤ 2 ^ 32)%Z →
  Safe fld P skip body pool n s → Safe fld P skip body pool n (exec env sched s).
Proof.
  intros Hn. revert s. induction sched as [|i sched IH]; intros s Hs; [done|].
  simpl. apply IH. by apply step_Safe.
Qed.

(** From a pool of [n] goroutines entering [once fld skip body], and
    others that leave the counter alone and make no counted call: at most one
    counted call is ever made, and exactly one has been made when the
    goroutines of the pool have returned, whether or not those spawned on
    the way have. *)
Lemma once_pool n others sched w0 :
  (Z.of_nat n ≤ 2 ^ 32)%Z →
  load fld (this w0) = 0%Z →
  calls P (trace w0) = 0 →
  goroutines w0 = replicate n (once fld skip body) ++ others →
  Forall (λ p, owes fld P p 0) others →
  calls P (trace (exec env sched (Alive, w0)).2) ≤ 1
  ∧ (1 ≤ n →
     (exec env sched (Alive, w0)).1 = Alive →
     Forall returned
       (take (n + length others) (goroutines (exec env sched (Alive, w0)).2)) →
     calls P (trace (exec env sched (Alive, w0)).2) = 1).
Proof.
  intros Hn Hld Hc Hg Hothers.
  assert (Hs : Safe fld P skip body (n + length others) n
                 (exec env sched (Alive, w0))).
  { apply exec_Safe; [done|]. unfold Safe. simpl.
    exists (replicate n Fresh ++ replicate (length others) (Passed 0)).
    assert (Hfresh : total fresh (replicate n Fresh) = n).
    { clear. induction n; simpl; lia. }
    rewrite !total_app, Hfresh, !total_replicate_0, Hg by done.
    split_and!.
    - apply Forall2_app; [|by apply owes_spawned].
      clear. induction n; simpl; constructor; done.
    - lia.
    - rewrite Hld. replace (n - (n + 0)) with 0 by lia. done.
    - case_decide; lia.
    - intros j t Hj Hjt. apply lookup_lt_Some in Hjt.
      rewrite length_app, !length_replicate in Hjt. lia. }
  destruct (exec env sched (Alive, w0)) as [st w]. unfold Safe in Hs.
  simpl in *. split.
  - destruct st; [by eapply Inv_calls|done].
  - intros Hn1 -> Hret. destruct Hs as (ts & HF & Hle & _ & Hsum & Htail).
    assert (Hall : ∀ j t, ts !! j = Some t → t = Passed 0).
    { intros j t Hjt.
      destruct (decide (n + length others ≤ j)) as [Hj|Hj];
        [by eapply Htail|].
      destruct (Forall2_lookup_r _ _ _ _ _ HF Hjt) as (p & Hp & Hpt).
      assert (Hr : returned p).
      { apply (Forall_lookup_1 _ _ j p Hret).
        rewrite lookup_take_lt by lia. exact Hp. }
      destruct t as [|d]; simpl in Hpt; [subst p; destruct Hr|].
      destruct p; [simpl in Hpt; by subst d|destruct Hr]. }
    assert (Hz : total fresh ts = 0 ∧ total debt ts = 0).
    { clear -Hall. induction ts as [|t ts IH]; [done|].
      pose proof (Hall 0 t eq_refl) as ->.
      destruct IH as [IH1 IH2];
        [intros j t' Hj; apply (Hall (S j) t' Hj)|].
      simpl. lia. }
    destruct Hz as [Hz1 Hz2]. rewrite Hz1, Hz2 in Hsum.
    case_decide; lia.
Qed.

End Once.

(** ** [Start] and [Stop] as guarded methods *)

Lemma Start_body_owes_NetAdapterStart :
  owes field_started isNetAdapterStart Start_body 1.
Proof. prove_owes. Qed.

Lemma Start_body_owes_ConnectionManagerStart :
  owes field_started isConnectionManagerStart Start_body 1.
Proof. prove_owes. Qed.

Lemma Stop_body_owes_ConnectionManagerStop :
  owes field_shutdown isConnectionManagerStop Stop_body 1.
Proof. prove_owes. Qed.

Lemma Stop_body_owes_NetAdapterStop :
  owes field_shutdown isNetAdapterStop Stop_body 1.
Proof. prove_owes. Qed.

Lemma Stop_skip_owes_ConnectionManagerStop :
  owes field_shutdown isConnectionManagerStop Stop_skip 0.
Proof. prove_owes. Qed.

Lemma Stop_skip_owes_NetAdapterStop :
  owes field_shutdown isNetAdapterStop Stop_skip 0.
Proof. prove_owes. Qed.

(** [Stop] leaves "started" alone and starts nothing; [Start] leaves
    "shutdown" alone and stops nothing. *)
Lemma Stop_owes_NetAdapterStart : owes field_started isNetAdapterStart Stop 0.
Proof. prove_owes. Qed.

Lemma Stop_owes_ConnectionManagerStart :
  owes field_started isConnectionManagerStart Stop 0.
Proof. prove_owes. Qed.

Lemma Start_owes_ConnectionManagerStop :
  owes field_shutdown isConnectionManagerStop Start 0.
Proof. prove_owes. Qed.

Lemma Start_owes_NetAdapterStop : owes field_shutdown isNetAdapterStop Start 0.
Proof. prove_owes. Qed.

(** ** Calls one after the other *)

(** Induction on programs of one result type. *)
Lemma Prog_induction {A : Type} (Q : Prog A → Prop) :
  (∀ a, Q (Ret a)) →
  (∀ R (e : Effect OnSeed R) k, (∀ r, Q (k r)) → Q (Vis e k)) →
  ∀ p, Q p.
Proof.
  intros HR HV. fix IH 1. intros [a|R e k]; [apply HR|].
  apply HV. intros r. apply IH.
Qed.

Lemma run_owes fld P p d w :
  owes fld P p d →
  load fld (this (run env p w).2) = load fld (this w)
  ∧ calls P (trace (run env p w).2) ≤ calls P (trace w) + d
  ∧ (∀ a, (run env p w).1 = Returned a →
          calls P (trace (run env p w).2) = calls P (trace w) + d).
Proof.
  revert d w. induction p as [a|R e k IH] using Prog_induction;
    intros d w Hp.
  - simpl in *. subst d. split_and!; [done|lia|intros; lia].
  - destruct (owes_quiet fld P e k d w Hp) as [Hq _].
    pose proof (perform_calls P e w) as Hc.
    simpl in Hp. destruct Hp as (_ & d' & -> & Hk). simpl.
    destruct (perform env e w) as [[r| |v] w'] eqn:Hp; simpl in *.
    + destruct (IH r d' w' (Hk r)) as (IH1 & IH2 & IH3).
      split_and!; [congruence|lia|]. intros a Ha. rewrite (IH3 a Ha). lia.
    + split_and!; [done|lia|done].
    + split_and!; [done|lia|done].
Qed.

Lemma run_times_succ n p w :
  run_times env (N.succ n) p w = again env p (run_times env n p w).
Proof. unfold run_times. apply N.iter_succ. Qed.

Section OnceSequential.

Variable fld : Int32Field.
Variable P : Event → bool.
Variables skip body : Prog unit.
Hypothesis skip_owes : owes fld P skip 0.
Hypothesis body_owes : owes fld P body 1.

(** As long as [n] calls in a row return and [n] is at most [2 ^ 32], the
    counter holds [n] wrapped and the counted call was made once. *)
Lemma run_times_once (n : N) w0 a :
  (n ≤ 2 ^ 32)%N →
  load fld (this w0) = 0%Z →
  (run_times env n (once fld skip body) w0).1 = Returned a →
  load fld (this (run_times env n (once fld skip body) w0).2)
  = int32_wrap (Z.of_N n)
  ∧ calls P (trace (run_times env n (once fld skip body) w0).2)
    = calls P (trace w0) + (if decide (n = 0%N) then 0 else 1).
Proof.
  intros Hn Hld. revert a Hn. induction n as [|n IH] using N.peano_ind;
    intros a Hn.
  - intros _. unfold run_times. simpl. rewrite Hld. split; [done|lia].
  - rewrite run_times_succ.
    destruct (run_times env n (once fld skip body) w0) as [[[]| |v] w] eqn:Hs;
      [|done..].
    destruct (IH () ltac:(lia) eq_refl) as [IH1 IH2].
    cbn [again fst snd] in *.
    rewrite run_once, IH1, int32_wrap_add_l.
    assert (Hv : int32_wrap (Z.of_N n + 1) = 1%Z ↔ n = 0%N).
    { rewrite int32_wrap_succ_eq_1 by lia. lia. }
    replace (Z.of_N (N.succ n)) with (Z.of_N n + 1)%Z by lia.
    set (v := int32_wrap (Z.of_N n + 1)) in *.
    destruct (decide (v ≠ 1%Z)) as [Hne|He].
    + destruct (run_owes fld P skip 0 (write fld v w) skip_owes)
        as (H1 & _ & H3).
      intros Hret. rewrite H1, (H3 _ Hret). simpl. rewrite load_store.
      split; [done|]. rewrite IH2. repeat case_decide; lia.
    + destruct (run_owes fld P body 1 (write fld v w) body_owes)
        as (H1 & _ & H3).
      intros Hret. rewrite H1, (H3 _ Hret). simpl. rewrite load_store.
      split; [done|]. rewrite IH2. repeat case_decide; lia.
Qed.

(** After [2 ^ 32] calls that return the counter is back at 0 and the
    next call runs [body] again.  The number of calls is a variable here so
    that nothing starts iterating. *)
Lemma once_again_after (n : N) w0 a :
  n = (2 ^ 32)%N →
  load fld (this w0) = 0%Z →
  (run_times env n (once fld skip body) w0).1 = Returned a →
  load fld (this (run_times env n (once fld skip body) w0).2) = 0%Z
  ∧ calls P (trace (run_times env n (once fld skip body) w0).2)
    = calls P (trace w0) + 1
  ∧ run env (once fld skip body) (run_times env n (once fld skip body) w0).2
    = run env body
        (write fld 1 (run_times env n (once fld skip body) w0).2).
Proof.
  intros Hn Hld Hret.
  destruct (run_times_once n w0 a ltac:(lia) Hld Hret) as [H1 H2].
  assert (Hwrap : int32_wrap (Z.of_N n) = 0%Z).
  { replace (Z.of_N n) with (2 ^ 32)%Z by lia. reflexivity. }
  rewrite Hwrap in H1. rewrite decide_False in H2 by lia.
  split_and!; [done..|]. rewrite run_once, H1. reflexivity.
Qed.

End OnceSequential.

(** ** Schedules *)

Lemma exec_Dead sched w : exec env sched (Dead, w) = (Dead, w).
Proof. induction sched as [|i sched IH]; simpl; [done|apply IH]. Qed.

Lemma exec_app sched1 sched2 s :
  exec env (sched1 ++ sched2) s = exec env sched2 (exec env sched1 s).
Proof. unfold exec. apply foldl_app. Qed.

Lemma step_trace_grows i s ev :
  ev ∈ trace s.2 → ev ∈ trace (step env i s).2.
Proof.
  destruct s as [[|] w]; simpl; [|done]. intros Hev.
  destruct (goroutines w !! i) as [[a|R e k]|]; simpl; try done.
  pose proof (perform_trace e w) as Ht.
  destruct (perform env e w) as [[r| |v] w']; simpl in *; rewrite Ht;
    apply elem_of_app; by left.
Qed.

(** ** A goroutine scheduled alone *)

(** What a call answers, and what it does to the component manager and to
    the trace, does not depend on the other goroutines. *)
Lemma perform_goroutines_irrelevant {R} (e : Effect OnSeed R) w1 w2 :
  this w1 = this w2 → trace w1 = trace w2 →
  (perform env e w1).1 = (perform env e w2).1
  ∧ this (perform env e w1).2 = this (perform env e w2).2
  ∧ trace (perform env e w1).2 = trace (perform env e w2).2.
Proof. intros Hthis Htr. destruct e; simpl; rewrite ?Hthis, ?Htr; done. Qed.

Lemma run_goroutines_irrelevant {A} (p : Prog A) w1 w2 :
  this w1 = this w2 → trace w1 = trace w2 →
  (run env p w1).1 = (run env p w2).1
  ∧ this (run env p w1).2 = this (run env p w2).2
  ∧ trace (run env p w1).2 = trace (run env p w2).2.
Proof.
  revert w1 w2. induction p as [a|R e k IH] using Prog_induction;
    intros w1 w2 Hthis Htr; [done|]. simpl.
  destruct (perform_goroutines_irrelevant e w1 w2 Hthis Htr) as (H1 & H2 & H3).
  destruct (perform env e w1) as [[r1| |v1] w1'],
           (perform env e w2) as [[r2| |v2] w2']; simplify_eq/=; try done.
  by apply IH.
Qed.

(** A goroutine scheduled alone and often enough does what [run] says:
    the same calls with the same answers; it ends up returned if the call
    returns, and the process ends up dead if the call exits or panics.  In
    particular every goroutine finishes: programs are finite. *)
Lemma exec_alone i p w :
  goroutines w !! i = Some p →
  ∃ k,
    this (exec env (replicate k i) (Alive, w)).2 = this (run env p w).2
    ∧ trace (exec env (replicate k i) (Alive, w)).2 = trace (run env p w).2
    ∧ match (run env p w).1 with
      | Returned a =>
          (exec env (replicate k i) (Alive, w)).1 = Alive
          ∧ goroutines (exec env (replicate k i) (Alive, w)).2 !! i
            = Some (Ret a)
      | _ => (exec env (replicate k i) (Alive, w)).1 = Dead
      end.
Proof.
  revert w. induction p as [a|R e k IH] using Prog_induction; intros w Hi.
  - by exists 0.
  - pose proof (perform_goroutines e w) as Hg.
    destruct (perform env e w) as [[r| |v] w'] eqn:Hp; simpl in Hg.
    + destruct (IH r {| this := this w'; trace := trace w';
                        goroutines := <[i:=k r]> (goroutines w') |})
        as (n & H1 & H2 & H3).
      { simpl. apply list_lookup_insert_eq. rewrite Hg, length_app.
        apply lookup_lt_Some in Hi. lia. }
      destruct (run_goroutines_irrelevant (k r)
                  {| this := this w'; trace := trace w';
                     goroutines := <[i:=k r]> (goroutines w') |} w'
                  eq_refl eq_refl) as (E1 & E2 & E3).
      exists (S n). simpl. rewrite Hi, Hp. simpl.
      rewrite H1, H2, <- E1, E2, E3. done.
    + exists 1. simpl. by rewrite Hi, Hp.
    + exists 1. simpl. by rewrite Hi, Hp.
Qed.

(** A goroutine whose call exits or panics brings the process down, with
    the calls made up to then in the trace, and nothing happens after that,
    whatever is scheduled. *)
Lemma exit_or_panic_kills_process i p w sched :
  goroutines w !! i = Some p →
  (∀ a, (run env p w).1 ≠ Returned a) →
  ∃ k,
    (exec env (replicate k i ++ sched) (Alive, w)).1 = Dead
    ∧ trace (exec env (replicate k i ++ sched) (Alive, w)).2
      = trace (run env p w).2.
Proof.
  intros Hi Hdie. destruct (exec_alone i p w Hi) as (k & _ & Htr & Hst).
  exists k. rewrite exec_app.
  destruct (run env p w) as [[a| |v] w'] eqn:Hrun; simpl in *;
    [by destruct (Hdie a)| |];
    destruct (exec env (replicate k i) (Alive, w)) as [st w'']; simpl in *;
    subst st; by rewrite exec_Dead.
Qed.

(** ** Every pool can run to completion *)

(** Induction on programs with the goroutines their calls spawn. *)
Lemma Prog_induction_spawned (Q : Prog unit → Prop) :
  (∀ a, Q (Ret a)) →
  (∀ R (e : Effect OnSeed R) k,
     (∀ w, Forall Q (spawned env e w)) → (∀ r, Q (k r)) → Q (Vis e k)) →
  ∀ p, Q p.
Proof.
  intros HR HV. fix IH 1. intros [a|R e k]; [apply HR|].
  apply HV; [|intros r; apply IH].
  intros w. destruct e; simpl; try apply Forall_nil_2.
  - apply Forall_fmap, Forall_forall. intros b _. apply IH.
  - apply Forall_fmap, Forall_forall. intros b _. apply IH.
Qed.

Lemma finish_segment seg :
  Forall (finishes_at env) seg →
  ∀ pre post w,
    goroutines w = pre ++ seg ++ post →
    Forall returned post →
    ∃ sched,
      (exec env sched (Alive, w)).1 = Dead
      ∨ ∃ news,
          goroutines (exec env sched (Alive, w)).2
          = pre ++ ((λ _, Ret ()) <$> seg) ++ post ++ news
          ∧ Forall returned news.
Proof.
  induction 1 as [|q seg Hq _ IH]; intros pre post w Hg Hpost.
  - exists []. right. exists []. simpl. rewrite app_nil_r. by split.
  - destruct (Hq w (length pre)) as [sched1 H1].
    { rewrite Hg. by rewrite lookup_app_r, Nat.sub_diag. }
    destruct (exec env sched1 (Alive, w)) as [[|] w1] eqn:Hs1; simpl in H1;
      [|exists sched1; left; by rewrite Hs1].
    destruct H1 as [?|(news1 & Hg1 & Hnews1)]; [done|].
    rewrite Hg, insert_app_r_alt, Nat.sub_diag in Hg1 by done.
    simpl in Hg1.
    destruct (IH (pre ++ [Ret ()]) (post ++ news1) w1) as [sched2 H2].
    { rewrite Hg1, <- !app_assoc. simpl. by rewrite <- !app_assoc. }
    { by apply Forall_app. }
    exists (sched1 ++ sched2). rewrite exec_app, Hs1.
    destruct H2 as [?|(news2 & Hg2 & Hnews2)]; [by left|right].
    exists (news1 ++ news2). split; [|by apply Forall_app].
    rewrite Hg2, <- !app_assoc. done.
Qed.

Lemma goroutine_and_offspring_finish p : finishes_at env p.
Proof.
  induction p as [[]|R e k Hsp IH] using Prog_induction_spawned; intros w i Hi.
  - exists []. right. exists []. by rewrite list_insert_id, app_nil_r.
  - pose proof (perform_goroutines e w) as Hg.
    pose proof (lookup_lt_Some _ _ _ Hi) as Hlt.
    destruct (perform env e w) as [[r| |v] w'] eqn:Hp; simpl in Hg;
      [|exists [i]; left; simpl; by rewrite Hi, Hp..].
    set (w1 := {| this := this w'; trace := trace w';
                  goroutines := <[i:=k r]> (goroutines w') |}).
    assert (Hstep : step env i (Alive, w) = (Alive, w1)).
    { simpl. by rewrite Hi, Hp. }
    destruct (finish_segment (spawned env e w) (Hsp w)
                (<[i:=k r]> (goroutines w)) [] w1) as [scheda Ha].
    { simpl. by rewrite Hg, insert_app_l, app_nil_r. }
    { done. }
    destruct (exec env scheda (Alive, w1)) as [[|] w2] eqn:Hsa; simpl in Ha.
    2: { exists (i :: scheda). left.
         change (exec env (i :: scheda) (Alive, w))
           with (exec env scheda (step env i (Alive, w))).
         by rewrite Hstep, Hsa. }
    destruct Ha as [?|(newsa & Hga & Hnewsa)]; [done|]. simpl in Hga.
    destruct (IH r w2 i) as [schedb Hb].
    { rewrite Hga. apply lookup_app_l_Some, list_lookup_insert_eq. done. }
    exists (i :: scheda ++ schedb).
    change (exec env (i :: scheda ++ schedb) (Alive, w))
      with (exec env (scheda ++ schedb) (step env i (Alive, w))).
    rewrite Hstep, exec_app, Hsa.
    destruct Hb as [?|(newsb & Hgb & Hnewsb)]; [by left|right].
    exists (((λ _, Ret ()) <$> spawned env e w) ++ newsa ++ newsb).
    split.
    + rewrite Hgb, Hga, insert_app_l, list_insert_insert_eq, <- !app_assoc;
        [done|by rewrite length_insert].
    + apply Forall_app. split; [|by apply Forall_app].
      apply Forall_fmap, Forall_forall. done.
Qed.

(** From any pool some schedule makes every goroutine return, unless the
    process dies. *)
Lemma pool_finishes w :
  ∃ sched,
    (exec env sched (Alive, w)).1 = Dead
    ∨ Forall returned (goroutines (exec env sched (Alive, w)).2).
Proof.
  destruct (finish_segment (goroutines w)
              ltac:(apply Forall_forall; intros q _;
                    apply goroutine_and_offspring_finish)
              [] [] w) as [sched Hs]; [by rewrite app_nil_r|done|].
  exists sched. destruct Hs as [?|(news & -> & Hnews)]; [by left|right].
  simpl. apply Forall_app. split; [|done].
  apply Forall_fmap, Forall_forall. done.
Qed.

(** ** Pools that never die *)

Lemma calm_spawned {R} (e : Effect OnSeed R) k w :
  calm env (Vis e k) → Forall (calm env) (spawned env e w).
Proof.
  simpl. intros [Hq _]. destruct e; simpl; try apply Forall_nil_2.
  - apply Forall_fmap, Forall_forall. intros b _. apply Hq.
  - apply Forall_fmap, Forall_forall. intros b _. apply Hq.
Qed.

Lemma calm_perform {R} (e : Effect OnSeed R) k w :
  calm env (Vis e k) → ∃ r, (perform env e w).1 = Returned r.
Proof. simpl. intros [Hq _]. destruct e; simpl; by eauto. Qed.

Lemma step_calm i w :
  Forall (calm env) (goroutines w) →
  (step env i (Alive, w)).1 = Alive
  ∧ Forall (calm env) (goroutines (step env i (Alive, w)).2).
Proof.
  intros Hall. simpl.
  destruct (goroutines w !! i) as [[a|R e k]|] eqn:Hi; [done| |done].
  pose proof (Forall_lookup_1 _ _ _ _ Hall Hi) as Hp.
  pose proof (calm_spawned e k w Hp) as Hsp.
  pose proof (perform_goroutines e w) as Hg.
  destruct (calm_perform e k w Hp) as [r Hr].
  destruct Hp as [_ Hk]. specialize (Hk w r Hr).
  destruct (perform env e w) as [[r'| |v] w']; simplify_eq/=.
  split; [done|]. apply Forall_insert; [|done]. rewrite Hg.
  by apply Forall_app.
Qed.

Lemma exec_calm sched w :
  Forall (calm env) (goroutines w) →
  (exec env sched (Alive, w)).1 = Alive
  ∧ Forall (calm env) (goroutines (exec env sched (Alive, w)).2).
Proof.
  revert w. induction sched as [|i sched IH]; intros w Hall; [done|].
  destruct (step_calm i w Hall) as [Hal Hall'].
  change (exec env (i :: sched) (Alive, w))
    with (exec env sched (step env i (Alive, w))).
  destruct (step env i (Alive, w)) as [st w']. simpl in Hal. subst st.
  by apply IH.
Qed.

Lemma Stop_calm : calm env Stop.
Proof. repeat calm_step I. Qed.

Lemma Start_calm :
  (∀ t, netAdapter_Start env t = None) → calm env Start.
Proof. intros Hok. repeat calm_step Hok. Qed.

(** With a network adapter that starts, concurrent [Start] and [Stop]
    calls never bring the process down, and some schedule makes all of them
    (and the goroutines spawned for the seeders' batches) return. *)
Lemma Start_Stop_pool_completes (n m : nat) c :
  (∀ t, netAdapter_Start env t = None) →
  (∀ sched,
     (exec env sched
        (Alive, fresh_process c (replicate n Start ++ replicate m Stop))).1
     = Alive)
  ∧ ∃ sched,
      (exec env sched
         (Alive, fresh_process c (replicate n Start ++ replicate m Stop))).1
      = Alive
      ∧ Forall returned
          (goroutines
             (exec env sched
                (Alive,
                 fresh_process c (replicate n Start ++ replicate m Stop))).2).
Proof.
  intros Hok.
  assert (Hall : Forall (calm env)
                   (goroutines
                      (fresh_process c (replicate n Start ++ replicate m Stop)))).
  { simpl. apply Forall_app. split; apply Forall_replicate;
      [by apply Start_calm|apply Stop_calm]. }
  split; [intros sched; by apply exec_calm|].
  destruct (pool_finishes
              (fresh_process c (replicate n Start ++ replicate m Stop)))
    as [sched Hs].
  exists sched. destruct (exec_calm sched _ Hall) as [Hal _].
  split; [done|]. destruct Hs as [Hd|?]; [|done]. by rewrite Hal in Hd.
Qed.

(** ** Lifecycle *)

Lemma Stop_returns w : (run env Stop w).1 = Returned ().
Proof.
  destruct (decide (int32_wrap (shutdown (this w) + 1) = 1%Z)) as [Hv|Hv].
  - by rewrite Stop_first.
  - by rewrite Stop_not_first.
Qed.

Lemma run_times_Stop_returns n w : (run_times env n Stop w).1 = Returned ().
Proof.
  induction n as [|n IH] using N.peano_ind; [done|].
  rewrite run_times_succ.
  destruct (run_times env n Stop w) as [[[]| |v] w']; simpl in IH; try done.
  apply Stop_returns.
Qed.

Lemma stopped_trace w :
  ∃ evs,
    trace (stopped env w)
    = trace w ++ [EvLog LevelWarn "Kaspad shutting down";
                  EvConnectionManagerStop; EvNetAdapterStop] ++ evs
    ∧ calls isConnectionManagerStop evs = 0
    ∧ calls isNetAdapterStop evs = 0.
Proof.
  unfold stopped. destruct (netAdapter_Stop env _) as [e|].
  - eexists [_]. simpl. rewrite <- !app_assoc. done.
  - exists []. simpl. rewrite <- !app_assoc. done.
Qed.

(** C10: [Stop] on a component manager that was never started ("started"
    is 0) and not yet stopped executes the whole shutdown body, connection
    manager first and network adapter second; what [Stop] does never depends
    on "started", which it leaves as it is. *)
Theorem Stop_without_Start w :
  started (this w) = 0%Z →
  shutdown (this w) = 0%Z →
  (run env Stop w).1 = Returned ()
  ∧ (∃ evs,
       trace (run env Stop w).2
       = trace w ++ [EvLog LevelWarn "Kaspad shutting down";
                     EvConnectionManagerStop; EvNetAdapterStop] ++ evs
       ∧ calls isConnectionManagerStop evs = 0
       ∧ calls isNetAdapterStop evs = 0)
  ∧ started (this (run env Stop w).2) = 0%Z
  ∧ ∀ s, run env Stop (write field_started s w)
         = ((run env Stop w).1, write field_started s (run env Stop w).2).
Proof.
  intros Hst Hsh.
  assert (Hv : int32_wrap (shutdown (this w) + 1) = 1%Z) by by rewrite Hsh.
  split_and!.
  - apply Stop_returns.
  - rewrite (Stop_first w Hv). simpl. apply (stopped_trace (write _ _ _)).
  - rewrite (Stop_first w Hv). simpl. unfold stopped. simpl.
    by destruct (netAdapter_Stop env _).
  - intros s. rewrite (Stop_first w Hv), Stop_first by done.
    simpl. f_equal. unfold stopped. simpl.
    by destruct (netAdapter_Stop env _).
Qed.

(** C8: when the claiming [Stop] call gets an error from stopping the
    network adapter, the error is logged and nothing else: [Stop] returns,
    the process does not exit, and the trace ends with the log line. *)
Theorem Stop_transport_error_is_logged w e :
  int32_wrap (shutdown (this w) + 1) = 1%Z →
  netAdapter_Stop env
    (trace w ++ [EvLog LevelWarn "Kaspad shutting down";
                 EvConnectionManagerStop]) = Some e →
  (run env Stop w).1 = Returned ()
  ∧ trace (run env Stop w).2
    = trace w ++ [EvLog LevelWarn "Kaspad shutting down";
                  EvConnectionManagerStop; EvNetAdapterStop;
                  EvLog LevelError ("Error stopping the net adapter: " +:+ e)].
Proof.
  intros Hv He. rewrite (Stop_first w Hv). split; [done|].
  unfold stopped. simpl. rewrite He. simpl. by rewrite <- !app_assoc.
Qed.

(** C6: when, in the [Start] call that holds the "started" slot, starting
    the network adapter fails, the cause is logged and the process exits;
    no seeder is called, no goroutine is spawned and the connection manager
    is not started. *)
Theorem Start_transport_error_is_fatal w e :
  int32_wrap (started (this w) + 1) = 1%Z →
  netAdapter_Start env (trace w ++ [EvLog LevelTrace "Starting kaspad"])
  = Some e →
  (run env Start w).1 = Exited
  ∧ trace (run env Start w).2
    = trace w ++ [EvLog LevelTrace "Starting kaspad"; EvNetAdapterStart;
                  EvLog LevelCritical
                    ("Error starting the net adapter: " +:+ e);
                  EvExit]
  ∧ goroutines (run env Start w).2 = goroutines w
  ∧ calls isSeedFromDNS (trace (run env Start w).2)
    = calls isSeedFromDNS (trace w)
  ∧ calls isSeedFromGRPC (trace (run env Start w).2)
    = calls isSeedFromGRPC (trace w)
  ∧ calls isConnectionManagerStart (trace (run env Start w).2)
    = calls isConnectionManagerStart (trace w).
Proof.
  intros Hv He. rewrite (Start_first w Hv), (Start_body_fails _ e) by done.
  simpl. rewrite <- !app_assoc, !calls_app. simpl. split_and!; done || lia.
Qed.
(** With a network adapter that starts, every [Start] call returns. *)
Lemma Start_returns w :
  (∀ t, netAdapter_Start env t = None) → (run env Start w).1 = Returned ().
Proof.
  intros Hok.
  destruct (decide (int32_wrap (started (this w) + 1) = 1%Z)) as [Hv|Hv].
  - by rewrite (Start_first w Hv), Start_body_ok.
  - by rewrite Start_not_first.
Qed.

Lemma run_times_Start_returns n w :
  (∀ t, netAdapter_Start env t = None) →
  (run_times env n Start w).1 = Returned ().
Proof.
  intros Hok. induction n as [|n IH] using N.peano_ind; [done|].
  rewrite run_times_succ.
  destruct (run_times env n Start w) as [[[]| |v] w']; simpl in IH; try done.
  by apply Start_returns.
Qed.

(** [n] calls of [Start] in a row on a fresh component manager whose
    network adapter starts, [n] between 1 and [2 ^ 32]: all return, and the
    network adapter and the connection manager have been started once. *)
Lemma Start_in_a_row (n : N) c gs :
  (∀ t, netAdapter_Start env t = None) →
  (1 ≤ n ≤ 2 ^ 32)%N →
  (run_times env n Start (fresh_process c gs)).1 = Returned ()
  ∧ calls isNetAdapterStart (trace (run_times env n Start (fresh_process c gs)).2)
    = 1
  ∧ calls isConnectionManagerStart
      (trace (run_times env n Start (fresh_process c gs)).2) = 1.
Proof.
  intros Hok [Hn1 Hn].
  pose proof (run_times_Start_returns n (fresh_process c gs) Hok) as Hret.
  revert Hret. rewrite Start_is_once. intros Hret.
  destruct (run_times_once field_started isNetAdapterStart (Ret ()) Start_body
              eq_refl Start_body_owes_NetAdapterStart n (fresh_process c gs)
              () Hn eq_refl Hret) as [_ Hnet].
  destruct (run_times_once field_started isConnectionManagerStart (Ret ())
              Start_body eq_refl Start_body_owes_ConnectionManagerStart n
              (fresh_process c gs) () Hn eq_refl Hret) as [_ Hcon].
  rewrite decide_False in Hnet, Hcon by lia.
  split_and!; [exact Hret|exact Hnet|exact Hcon].
Qed.

Lemma Forall_owes_Stop_NetAdapterStart m :
  Forall (λ p, owes field_started isNetAdapterStart p 0) (replicate m Stop).
Proof. apply Forall_replicate, Stop_owes_NetAdapterStart. Qed.

Lemma Forall_owes_Stop_ConnectionManagerStart m :
  Forall (λ p, owes field_started isConnectionManagerStart p 0)
    (replicate m Stop).
Proof. apply Forall_replicate, Stop_owes_ConnectionManagerStart. Qed.

(** C2: a [Start] call runs the body (log line, network adapter start,
    ...) iff the bumped value of "started" is 1, and returns having
    changed nothing but the counter otherwise.  On a fresh component manager
    whose network adapter starts, [n] [Start] calls in a row, [n] between 1
    and [2 ^ 32], all return and start the network adapter and the
    connection manager exactly once each.  From a fresh component manager,
    at most [2 ^ 32] concurrent [Start] calls (and any number of concurrent
    [Stop] calls), however interleaved, start the network adapter and the
    connection manager at most once each, and exactly once each by the time
    all [n + m] calls have returned with the process alive, whether or not
    the goroutines spawned for the seeders' batches have returned by then;
    when the network adapter starts, the process stays alive and some
    schedule makes all calls return. *)
Theorem Start_single_execution :
  (∀ w, int32_wrap (started (this w) + 1) ≠ 1%Z →
        run env Start w
        = (Returned (),
           write field_started (int32_wrap (started (this w) + 1)) w))
  ∧ (∀ w, int32_wrap (started (this w) + 1) = 1%Z →
          ∃ evs, trace (run env Start w).2
                 = trace w ++ [EvLog LevelTrace "Starting kaspad";
                               EvNetAdapterStart] ++ evs)
  ∧ (∀ (n : N) c gs,
       (∀ t, netAdapter_Start env t = None) →
       (1 ≤ n ≤ 2 ^ 32)%N →
       let s := run_times env n Start (fresh_process c gs) in
       s.1 = Returned ()
       ∧ calls isNetAdapterStart (trace s.2) = 1
       ∧ calls isConnectionManagerStart (trace s.2) = 1)
  ∧ (∀ (n m : nat) sched c,
       1 ≤ n → (Z.of_nat n ≤ 2 ^ 32)%Z →
       let s := exec env sched
                  (Alive, fresh_process c (replicate n Start ++ replicate m Stop)) in
       calls isNetAdapterStart (trace s.2) ≤ 1
       ∧ calls isConnectionManagerStart (trace s.2) ≤ 1
       ∧ (s.1 = Alive → Forall returned (take (n + m) (goroutines s.2)) →
          calls isNetAdapterStart (trace s.2) = 1
          ∧ calls isConnectionManagerStart (trace s.2) = 1))
  ∧ (∀ (n m : nat) c,
       (∀ t, netAdapter_Start env t = None) →
       ∃ sched,
         let s := exec env sched
                    (Alive,
                     fresh_process c (replicate n Start ++ replicate m Stop)) in
         s.1 = Alive ∧ Forall returned (goroutines s.2)).
Proof.
  split_and!; [| | | |intros n m c Hok; by apply Start_Stop_pool_completes].
  - apply Start_not_first.
  - intros w Hv. rewrite (Start_first w Hv).
    destruct (netAdapter_Start env
                (trace w ++ [EvLog LevelTrace "Starting kaspad"])) as [e|] eqn:He.
    + rewrite (Start_body_fails _ e) by done. simpl.
      eexists [_; _]. by rewrite <- !app_assoc.
    + rewrite Start_body_ok by done. simpl. unfold seeded. simpl.
      destruct (DisableDNSSeed (cfg (this w))); repeat case_decide; simpl;
        rewrite <- ?app_assoc; simpl; eexists; reflexivity.
  - intros n c gs Hok Hn. by apply Start_in_a_row.
  - intros n m sched c Hn1 Hn s.
    destruct (once_pool field_started isNetAdapterStart (Ret ()) Start_body
                eq_refl Start_body_owes_NetAdapterStart
                n (replicate m Stop) sched
                (fresh_process c (replicate n Start ++ replicate m Stop))
                Hn eq_refl eq_refl eq_refl
                (Forall_owes_Stop_NetAdapterStart m)) as [Hnet1 Hnet2].
    destruct (once_pool field_started isConnectionManagerStart (Ret ())
                Start_body eq_refl Start_body_owes_ConnectionManagerStart
                n (replicate m Stop) sched
                (fresh_process c (replicate n Start ++ replicate m Stop))
                Hn eq_refl eq_refl eq_refl
                (Forall_owes_Stop_ConnectionManagerStart m)) as [Hcon1 Hcon2].
    rewrite length_replicate in Hnet2, Hcon2.
    split_and!; [done..|]. intros Hal Hret. split; [by apply Hnet2|by apply Hcon2].
Qed.

(** [Start] too runs its body again once "started" has wrapped around,
    provided the [2 ^ 32] calls before returned. *)
Lemma Start_again_after (n : N) w0 a :
  n = (2 ^ 32)%N →
  started (this w0) = 0%Z →
  (run_times env n Start w0).1 = Returned a →
  run env Start (run_times env n Start w0).2
  = run env Start_body (write field_started 1 (run_times env n Start w0).2).
Proof.
  rewrite Start_is_once. intros Hn Hst Hret.
  by destruct (once_again_after field_started isNetAdapterStart (Ret ())
                 Start_body eq_refl Start_body_owes_NetAdapterStart n w0 a
                 Hn Hst Hret) as (_ & _ & Heq).
Qed.

Lemma Start_again_after_wrap w0 a :
  started (this w0) = 0%Z →
  (run_times env (2 ^ 32) Start w0).1 = Returned a →
  run env Start (run_times env (2 ^ 32) Start w0).2
  = run env Start_body
      (write field_started 1 (run_times env (2 ^ 32) Start w0).2).
Proof. exact (Start_again_after (2 ^ 32) w0 a eq_refl). Qed.

(** X1: the same guard around [Stop]: from a fresh component manager, at
    most [2 ^ 32] concurrent [Stop] calls (and any number of concurrent
    [Start] calls), however interleaved, stop the connection manager and the
    network adapter at most once each, and exactly once each by the time all
    [n + m] calls have returned with the process alive, whether or not the
    goroutines spawned for the seeders' batches have returned by then. *)
Lemma Stop_single_execution_below_wrap (n m : nat) sched c :
  1 ≤ n → (Z.of_nat n ≤ 2 ^ 32)%Z →
  let s := exec env sched
             (Alive, fresh_process c (replicate n Stop ++ replicate m Start)) in
  calls isConnectionManagerStop (trace s.2) ≤ 1
  ∧ calls isNetAdapterStop (trace s.2) ≤ 1
  ∧ (s.1 = Alive → Forall returned (take (n + m) (goroutines s.2)) →
     calls isConnectionManagerStop (trace s.2) = 1
     ∧ calls isNetAdapterStop (trace s.2) = 1).
Proof.
  intros Hn1 Hn s.
  destruct (once_pool field_shutdown isConnectionManagerStop Stop_skip
              Stop_body Stop_skip_owes_ConnectionManagerStop
              Stop_body_owes_ConnectionManagerStop
              n (replicate m Start) sched
              (fresh_process c (replicate n Stop ++ replicate m Start))
              Hn eq_refl eq_refl eq_refl
              (Forall_replicate
                 (λ p, owes field_shutdown isConnectionManagerStop p 0)
                 m Start Start_owes_ConnectionManagerStop))
    as [Hcon1 Hcon2].
  destruct (once_pool field_shutdown isNetAdapterStop Stop_skip
              Stop_body Stop_skip_owes_NetAdapterStop
              Stop_body_owes_NetAdapterStop
              n (replicate m Start) sched
              (fresh_process c (replicate n Stop ++ replicate m Start))
              Hn eq_refl eq_refl eq_refl
              (Forall_replicate
                 (λ p, owes field_shutdown isNetAdapterStop p 0)
                 m Start Start_owes_NetAdapterStop))
    as [Hnet1 Hnet2].
  rewrite length_replicate in Hcon2, Hnet2.
  split_and!; [done..|]. intros Hal Hret.
  split; [by apply Hcon2|by apply Hnet2].
Qed.

(** [Stop] after [2 ^ 32] calls of [Stop], the number of calls being a
    variable so that nothing starts iterating. *)
Lemma Stop_again_after n c st t gs :
  n = (2 ^ 32)%N →
  let w0 := {| this := {| cfg := c; started := st; shutdown := 0 |};
               trace := t; goroutines := gs |} in
  let s := run_times env n Stop w0 in
  s.1 = Returned ()
  ∧ shutdown (this s.2) = 0%Z
  ∧ calls isConnectionManagerStop (trace s.2)
    = calls isConnectionManagerStop t + 1
  ∧ calls isNetAdapterStop (trace s.2) = calls isNetAdapterStop t + 1
  ∧ run env Stop s.2 = (Returned (), stopped env (write field_shutdown 1 s.2))
  ∧ calls isConnectionManagerStop (trace (run env Stop s.2).2)
    = calls isConnectionManagerStop t + 2
  ∧ calls isNetAdapterStop (trace (run env Stop s.2).2)
    = calls isNetAdapterStop t + 2.
Proof.
  intros Hn w0. cbv zeta.
  pose proof (run_times_Stop_returns n w0) as Hret.
  revert Hret. rewrite Stop_is_once.
  set (s := run_times env n (once field_shutdown Stop_skip Stop_body) w0).
  intros Hret.
  assert (Hle : (n ≤ 2 ^ 32)%N) by lia.
  assert (Hn0 : n ≠ 0%N) by lia.
  assert (Hwrap : int32_wrap (Z.of_N n) = 0%Z).
  { replace (Z.of_N n) with (2 ^ 32)%Z by lia. reflexivity. }
  destruct (run_times_once field_shutdown isConnectionManagerStop
              Stop_skip Stop_body Stop_skip_owes_ConnectionManagerStop
              Stop_body_owes_ConnectionManagerStop n w0 () Hle eq_refl Hret)
    as (Hsh & Hcon).
  destruct (run_times_once field_shutdown isNetAdapterStop
              Stop_skip Stop_body Stop_skip_owes_NetAdapterStop
              Stop_body_owes_NetAdapterStop n w0 () Hle eq_refl Hret)
    as (_ & Hnet).
  fold s in Hsh, Hcon, Hnet. clearbody s. clear Hle.
  rewrite <- Stop_is_once.
  simpl in Hsh, Hcon, Hnet. rewrite Hwrap in Hsh.
  rewrite decide_False in Hcon, Hnet by done.
  assert (Hv : int32_wrap (shutdown (this s.2) + 1) = 1%Z) by by rewrite Hsh.
  rewrite (Stop_first _ Hv).
  destruct (stopped_trace (write field_shutdown 1 s.2))
    as (evs & Htr & Hc & Hn').
  cbn [fst snd]. rewrite Htr, !calls_app, Hc, Hn'. simpl.
  rewrite Hcon, Hnet. split_and!; done || lia.
Qed.

(** C3: the guard of [Stop] is an [int32] that wraps around.  After
    [2 ^ 32] calls of [Stop] on a component manager not yet stopped, all of
    which return, "shutdown" is 0 again and the shutdown body has run once;
    the next call bumps the counter to 1 and runs the shutdown body a second
    time, stopping the connection manager and the network adapter again. *)
Theorem Stop_again_after_wrap c st t gs :
  let w0 := {| this := {| cfg := c; started := st; shutdown := 0 |};
               trace := t; goroutines := gs |} in
  let s := run_times env (2 ^ 32) Stop w0 in
  s.1 = Returned ()
  ∧ shutdown (this s.2) = 0%Z
  ∧ calls isConnectionManagerStop (trace s.2)
    = calls isConnectionManagerStop t + 1
  ∧ calls isNetAdapterStop (trace s.2) = calls isNetAdapterStop t + 1
  ∧ run env Stop s.2 = (Returned (), stopped env (write field_shutdown 1 s.2))
  ∧ calls isConnectionManagerStop (trace (run env Stop s.2).2)
    = calls isConnectionManagerStop t + 2
  ∧ calls isNetAdapterStop (trace (run env Stop s.2).2)
    = calls isNetAdapterStop t + 2.
Proof. exact (Stop_again_after (2 ^ 32) c st t gs eq_refl). Qed.

(** ** Notification bridge *)

(** C4: for a [ChainChanged] notification, when the acceptance index is
    present the handler makes exactly one call, [NotifyChainChanged], with
    the removed and the added block hashes as they come, and hands back what
    that call answers; when the acceptance index is absent it makes no call
    and returns no error. *)
Theorem ChainChanged_forwarded_iff_acceptanceIndex n acceptanceIndex w :
  Type' n = NTChainChanged →
  (∀ idx d,
     acceptanceIndex = Some idx →
     Data n = Data_ChainChanged (Some d) →
     run env (handleBlockDAGNotifications (Some n) acceptanceIndex) w
     = (Returned
          (rpcManager_NotifyChainChanged env (trace w)
             (RemovedChainBlockHashes d) (AddedChainBlockHashes d)),
        emit (EvNotifyChainChanged (RemovedChainBlockHashes d)
                (AddedChainBlockHashes d)) w))
  ∧ (acceptanceIndex = None →
     run env (handleBlockDAGNotifications (Some n) acceptanceIndex) w
     = (Returned None, w)
     ∧ run env (dagSubscriber acceptanceIndex (Some n)) w = (Returned (), w)).
Proof.
  intros Hty. split.
  - intros idx d -> Hd. unfold handleBlockDAGNotifications. simpl.
    rewrite Hty, Hd. simpl.
    by destruct (rpcManager_NotifyChainChanged env _ _ _).
  - intros ->. unfold dagSubscriber, handleBlockDAGNotifications. simpl.
    by rewrite Hty.
Qed.

(** C7: a notification whose type is none of [NTChainChanged],
    [NTFinalityConflict], [NTFinalityConflictResolved] makes the handler
    call nothing and return no error, and the subscriber return normally. *)
Theorem other_notification_is_ignored n acceptanceIndex w :
  Type' n ≠ NTChainChanged →
  Type' n ≠ NTFinalityConflict →
  Type' n ≠ NTFinalityConflictResolved →
  run env (handleBlockDAGNotifications (Some n) acceptanceIndex) w
  = (Returned None, w)
  ∧ run env (dagSubscriber acceptanceIndex (Some n)) w = (Returned (), w).
Proof.
  intros H1 H2 H3. unfold dagSubscriber, handleBlockDAGNotifications. simpl.
  by destruct (Type' n).
Qed.

Lemma app_singleton_inv (t : list Event) (ev ev' : Event) :
  t ++ [ev] = t ++ [ev'] → ev = ev'.
Proof. intros Heq. apply app_inv_head in Heq. congruence. Qed.

Lemma app_singleton_not_nil (t : list Event) (ev : Event) : t ≠ t ++ [ev].
Proof.
  intros Heq. apply (f_equal length) in Heq. rewrite length_app in Heq.
  simpl in Heq. lia.
Qed.

(** The subscriber makes no call at all or one notifier call; when it
    returns, that call, if any, answered with no error. *)
Lemma dagSubscriber_returns acceptanceIndex notification w :
  (run env (dagSubscriber acceptanceIndex notification) w).1 = Returned () →
  (run env (dagSubscriber acceptanceIndex notification) w).2 = w
  ∨ ∃ ev, isNotify ev = true
          ∧ notifier_reply env (trace w) ev = None
          ∧ (run env (dagSubscriber acceptanceIndex notification) w).2
            = emit ev w.
Proof.
  unfold dagSubscriber, handleBlockDAGNotifications.
  destruct notification as [[ty data]|]; simpl; [|done].
  destruct ty; simpl; [| | |by left].
  - destruct acceptanceIndex as [idx|]; simpl; [|by left].
    destruct data as [|[d|]|p|p|]; simpl; try done.
    destruct (rpcManager_NotifyChainChanged env _ _ _) as [e'|] eqn:He;
      simpl; [done|]. intros _. right. by eexists (EvNotifyChainChanged _ _).
  - destruct data as [|p|[[[h|]]|]|p|]; simpl; try done.
    destruct (rpcManager_NotifyFinalityConflict env _ _) as [e'|] eqn:He;
      simpl; [done|]. intros _. right. by eexists (EvNotifyFinalityConflict _).
  - destruct data as [|p|p|[[[h|]]|]|]; simpl; try done.
    destruct (rpcManager_NotifyFinalityConflictResolved env _ _)
      as [e'|] eqn:He;
      simpl; [done|]. intros _. right.
    by eexists (EvNotifyFinalityConflictResolved _).
Qed.

(** C5: whenever the subscriber forwards a notification, that is, makes
    a notifier call [ev] on the RPC manager, and that call answers with an
    error, the subscriber panics with that error: it never returns, so the
    error is not absorbed. *)
Theorem forward_error_panics acceptanceIndex notification w ev e :
  trace (run env (dagSubscriber acceptanceIndex notification) w).2
  = trace w ++ [ev] →
  isNotify ev = true →
  notifier_reply env (trace w) ev = Some e →
  (run env (dagSubscriber acceptanceIndex notification) w).1
  = Panicked (PanicError e)
  ∧ (run env (dagSubscriber acceptanceIndex notification) w).1 ≠ Returned ().
Proof.
  intros Htr Hev He.
  cut ((run env (dagSubscriber acceptanceIndex notification) w).1
       = Panicked (PanicError e)); [by intros ->|].
  revert Htr Hev He.
  unfold dagSubscriber, handleBlockDAGNotifications.
  destruct notification as [[ty data]|]; simpl;
    [|by intros ?%app_singleton_not_nil].
  destruct ty; simpl.
  - destruct acceptanceIndex as [idx|]; simpl;
      [|by intros ?%app_singleton_not_nil].
    destruct data as [|[d|]|p|p|]; simpl;
      try by intros ?%app_singleton_not_nil.
    destruct (rpcManager_NotifyChainChanged env _ _ _) as [e'|] eqn:He; simpl;
      intros <-%app_singleton_inv _; simpl; congruence.
  - destruct data as [|p|[[[h|]]|]|p|]; simpl;
      try by intros ?%app_singleton_not_nil.
    destruct (rpcManager_NotifyFinalityConflict env _ _) as [e'|] eqn:He;
      simpl; intros <-%app_singleton_inv _; simpl; congruence.
  - destruct data as [|p|p|[[[h|]]|]|]; simpl;
      try by intros ?%app_singleton_not_nil.
    destruct (rpcManager_NotifyFinalityConflictResolved env _ _)
      as [e'|] eqn:He;
      simpl; intros <-%app_singleton_inv _; simpl; congruence.
  - by intros ?%app_singleton_not_nil.
Qed.

(** What the subscriber does with each of the three forwarded kinds when
    the RPC manager answers with an error. *)
Lemma FinalityConflict_error_panics acceptanceIndex n h e w :
  Type' n = NTFinalityConflict →
  Data n = Data_FinalityConflict (Some {| ViolatingBlockHash := Some h |}) →
  rpcManager_NotifyFinalityConflict env (trace w) (Hash_String h) = Some e →
  run env (dagSubscriber acceptanceIndex (Some n)) w
  = (Panicked (PanicError e), emit (EvNotifyFinalityConflict (Hash_String h)) w).
Proof.
  intros Hty Hd He. unfold dagSubscriber, handleBlockDAGNotifications. simpl.
  rewrite Hty, Hd. simpl. by rewrite He.
Qed.

Lemma FinalityConflictResolved_error_panics acceptanceIndex n h e w :
  Type' n = NTFinalityConflictResolved →
  Data n
  = Data_FinalityConflictResolved (Some {| FinalityBlockHash := Some h |}) →
  rpcManager_NotifyFinalityConflictResolved env (trace w) (Hash_String h)
  = Some e →
  run env (dagSubscriber acceptanceIndex (Some n)) w
  = (Panicked (PanicError e),
     emit (EvNotifyFinalityConflictResolved (Hash_String h)) w).
Proof.
  intros Hty Hd He. unfold dagSubscriber, handleBlockDAGNotifications. simpl.
  rewrite Hty, Hd. simpl. by rewrite He.
Qed.

Lemma ChainChanged_error_panics idx n d e w :
  Type' n = NTChainChanged →
  Data n = Data_ChainChanged (Some d) →
  rpcManager_NotifyChainChanged env (trace w) (RemovedChainBlockHashes d)
    (AddedChainBlockHashes d) = Some e →
  run env (dagSubscriber (Some idx) (Some n)) w
  = (Panicked (PanicError e),
     emit (EvNotifyChainChanged (RemovedChainBlockHashes d)
             (AddedChainBlockHashes d)) w).
Proof.
  intros Hty Hd He. unfold dagSubscriber, handleBlockDAGNotifications. simpl.
  rewrite Hty, Hd. simpl. by rewrite He.
Qed.
(** ** Notifications the engine should never send *)

(** A nil notification, or a notification whose payload is not of the
    type its tag announces, makes the handler panic before any call. *)
Lemma nil_notification_panics acceptanceIndex w :
  ∃ msg, run env (handleBlockDAGNotifications None acceptanceIndex) w
         = (Panicked (RuntimeError msg), w).
Proof. by eexists. Qed.

Lemma ChainChanged_bad_payload_panics idx n w :
  Type' n = NTChainChanged →
  (∀ d, Data n ≠ Data_ChainChanged (Some d)) →
  ∃ msg, run env (handleBlockDAGNotifications (Some n) (Some idx)) w
         = (Panicked (RuntimeError msg), w).
Proof.
  intros Hty Hd. unfold handleBlockDAGNotifications. simpl. rewrite Hty.
  destruct (Data n) as [|[d|]|p|p|]; simpl; try by eexists.
  by destruct (Hd d).
Qed.

(** ** Seeding *)

Lemma onSeed_run batch w :
  run env (onSeed batch) w = (Returned (), emit (EvAddAddresses batch) w).
Proof. reflexivity. Qed.

(** C9: [maybeSeedFromDNS] calls the DNS seeder iff DNS seeding is not
    disabled and the GRPC seeder iff a GRPC seed is configured, each with the
    [SFNodeNetwork] service flag; for every batch a seeder obtains, a
    goroutine is spawned that hands exactly that batch to
    [AddressManager.AddAddresses]; and the [Start] call that holds the
    "started" slot runs it between starting the network adapter and starting
    the connection manager. *)
Theorem maybeSeedFromDNS_lookups w :
  let c := cfg (this w) in
  let dns :=
    if DisableDNSSeed c then []
    else [EvSeedFromDNS (NetParams c) (DNSSeed c) SFNodeNetwork false None
            (Lookup c)] in
  let grpc :=
    if decide (GRPCSeed c = "") then []
    else [EvSeedFromGRPC (NetParams c) (GRPCSeed c) SFNodeNetwork false None] in
  (run env maybeSeedFromDNS w).1 = Returned ()
  ∧ trace (run env maybeSeedFromDNS w).2 = trace w ++ dns ++ grpc
  ∧ (calls isSeedFromDNS (dns ++ grpc) = 1 ↔ DisableDNSSeed c = false)
  ∧ (calls isSeedFromDNS (dns ++ grpc) = 0 ↔ DisableDNSSeed c = true)
  ∧ (calls isSeedFromGRPC (dns ++ grpc) = 1 ↔ GRPCSeed c ≠ "")
  ∧ (calls isSeedFromGRPC (dns ++ grpc) = 0 ↔ GRPCSeed c = "")
  ∧ goroutines (run env maybeSeedFromDNS w).2
    = goroutines w
      ++ (if DisableDNSSeed c then []
          else onSeed <$> dnsSeeder_batches env (trace w))
      ++ (if decide (GRPCSeed c = "") then []
          else onSeed <$> grpcSeeder_batches env (trace w ++ dns))
  ∧ (∀ batch w',
       run env (onSeed batch) w' = (Returned (), emit (EvAddAddresses batch) w'))
  ∧ (int32_wrap (started (this w) + 1) = 1%Z →
     netAdapter_Start env (trace w ++ [EvLog LevelTrace "Starting kaspad"])
     = None →
     run env Start w
     = (Returned (),
        emit EvConnectionManagerStart
          (run env maybeSeedFromDNS
             (emit EvNetAdapterStart
                (emit (EvLog LevelTrace "Starting kaspad")
                   (write field_started 1 w)))).2)).
Proof.
  intros c dns grpc. rewrite maybeSeedFromDNS_run. subst dns grpc c.
  unfold seeded. split_and!.
  - done.
  - destruct (DisableDNSSeed _); case_decide; simpl;
      rewrite <- ?app_assoc, ?app_nil_r; done.
  - destruct (DisableDNSSeed _); case_decide; simpl; split; done.
  - destruct (DisableDNSSeed _); case_decide; simpl; split; done.
  - destruct (DisableDNSSeed _); case_decide; simpl; split; done.
  - destruct (DisableDNSSeed _); case_decide; simpl; split; done.
  - destruct (DisableDNSSeed _); case_decide; simpl;
      rewrite <- ?app_assoc, ?app_nil_r; done.
  - apply onSeed_run.
  - intros Hv Hok. rewrite (Start_first w Hv), Start_body_ok by done.
    by rewrite maybeSeedFromDNS_run.
Qed.

(** ** Index setup *)

Section SetupIndexes.

Variable NewManager : list Indexer → ptr indexers_Manager.

Lemma setupIndexes_enabled c w :
  AcceptanceIndex c = true →
  run env (setupIndexes NewManager c) w
  = (Returned
       (IndexManager_Manager
          (NewManager [Indexer_AcceptanceIndex NewAcceptanceIndex]),
        NewAcceptanceIndex),
     emit (EvLog LevelInfo "acceptance index is enabled") w).
Proof. intros Hc. unfold setupIndexes. rewrite Hc. reflexivity. Qed.

(** The guard [len(indexes) < 0] never holds: no configuration makes
    [setupIndexes] return the nil index manager. *)
Lemma setupIndexes_never_nil c w ai :
  (run env (setupIndexes NewManager c) w).1 ≠ Returned (IndexManager_nil, ai).
Proof. unfold setupIndexes. by destruct (AcceptanceIndex c). Qed.

(** C1: with the acceptance index disabled, [setupIndexes] returns a nil
    acceptance index but not the nil index manager: it returns the index
    manager [indexers.NewManager] builds from no index at all. *)
Theorem setupIndexes_disabled_builds_manager c w :
  AcceptanceIndex c = false →
  run env (setupIndexes NewManager c) w
  = (Returned (IndexManager_Manager (NewManager []), None), w)
  ∧ IndexManager_Manager (NewManager []) ≠ IndexManager_nil.
Proof. intros Hc. unfold setupIndexes. rewrite Hc. done. Qed.

End SetupIndexes.

(** ** Goroutines spawned by the seeders *)

Lemma addressBook_app (t1 t2 : list Event) :
  addressBook (t1 ++ t2) = addressBook t1 ++ addressBook t2.
Proof.
  induction t1 as [|e t1 IH]; simpl; [done|].
  destruct e; simpl; rewrite ?IH, ?app_assoc; done.
Qed.

Lemma addressBook_elem t batch a :
  EvAddAddresses batch ∈ t → a ∈ batch → a ∈ addressBook t.
Proof.
  intros (t1 & t2 & ->)%list_elem_of_split Ha.
  rewrite addressBook_app. simpl. rewrite !elem_of_app. auto.
Qed.

(** A goroutine spawned for [batch] sits at its index until it is
    scheduled, and its one step hands [batch] to the address manager. *)
Lemma step_onSeed i j batch s :
  s.1 = Alive →
  goroutines s.2 !! i = Some (onSeed batch) ∨ EvAddAddresses batch ∈ trace s.2 →
  (step env j s).1 = Alive →
  goroutines (step env j s).2 !! i = Some (onSeed batch)
  ∨ EvAddAddresses batch ∈ trace (step env j s).2.
Proof.
  intros Hal [Hi|Hev] Hal'; [|right; by apply step_trace_grows].
  destruct s as [st w]. simpl in Hal. subst st. simpl in *.
  destruct (decide (i = j)) as [<-|Hne].
  - right. rewrite Hi. simpl. apply elem_of_app. right.
    by apply list_elem_of_singleton.
  - destruct (goroutines w !! j) as [[a|R e k]|] eqn:Hj; simpl;
      [by left| |by left].
    pose proof (perform_goroutines e w) as Hg.
    destruct (perform env e w) as [[r| |v] w']; simpl in *; try done.
    left. rewrite list_lookup_insert_ne by done.
    rewrite Hg. by apply lookup_app_l_Some.
Qed.

Lemma exec_onSeed sched i batch s :
  s.1 = Alive →
  goroutines s.2 !! i = Some (onSeed batch) ∨ EvAddAddresses batch ∈ trace s.2 →
  (exec env sched s).1 = Alive →
  goroutines (exec env sched s).2 !! i = Some (onSeed batch)
  ∨ EvAddAddresses batch ∈ trace (exec env sched s).2.
Proof.
  revert s. induction sched as [|j sched IH]; intros s Hal Hs Hal'; [done|].
  simpl in *. destruct (step env j s) as [[|] w'] eqn:Hstep.
  - apply IH; [done| |done]. rewrite <- Hstep.
    apply step_onSeed; [done..|by rewrite Hstep].
  - rewrite exec_Dead in Hal'. done.
Qed.

(** X13: however the process is scheduled, once the goroutine spawned
    for [batch] has returned, with the process alive, the batch has been
    handed to the address manager in one call and every address of it is in
    the address book. *)
Lemma onSeed_goroutine_adds_batch sched i batch w :
  goroutines w !! i = Some (onSeed batch) →
  (exec env sched (Alive, w)).1 = Alive →
  (∃ p, goroutines (exec env sched (Alive, w)).2 !! i = Some p ∧ returned p) →
  EvAddAddresses batch ∈ trace (exec env sched (Alive, w)).2
  ∧ ∀ a, a ∈ batch → a ∈ addressBook (trace (exec env sched (Alive, w)).2).
Proof.
  intros Hi Hal (p & Hp & Hret).
  assert (Hev : EvAddAddresses batch ∈ trace (exec env sched (Alive, w)).2).
  { destruct (exec_onSeed sched i batch (Alive, w) eq_refl (or_introl Hi) Hal)
      as [Hi'|Hev]; [|done].
    rewrite Hi' in Hp. simplify_eq. destruct Hret. }
  split; [done|]. intros a Ha. by eapply addressBook_elem.
Qed.

(** ** Calls that come in order *)

Section InOrder.

Variables P Q : Event → bool.

Lemma sum_list_insert (ks : list nat) i k k' :
  ks !! i = Some k → sum_list (<[i:=k']> ks) + k = sum_list ks + k'.
Proof.
  revert i. induction ks as [|k0 ks IH]; intros [|i] Hi; simplify_eq/=;
    [lia|]. specialize (IH _ Hi). lia.
Qed.

Lemma ahead_spawned {R} (e : Effect OnSeed R) kont k w :
  ahead P Q (Vis e kont) k →
  Forall2 (ahead P Q) (spawned env e w)
    (replicate (length (spawned env e w)) 0).
Proof.
  simpl. intros [Hq _].
  assert (Hall : Forall (λ g, ahead P Q g 0) (spawned env e w)).
  { destruct e; simpl; try apply Forall_nil_2.
    - apply Forall_fmap, Forall_forall. intros b _. apply Hq.
    - apply Forall_fmap, Forall_forall. intros b _. apply Hq. }
  induction Hall; simpl; constructor; done.
Qed.

Lemma step_Orderly i s : Orderly P Q s → Orderly P Q (step env i s).
Proof.
  destruct s as [[|] w]; [|done]. unfold Orderly at 1. simpl. intros HI.
  destruct (goroutines w !! i) as [[a|R e k]|] eqn:Hi; [done| |done].
  destruct HI as (ks & HF & Hsum).
  destruct (Forall2_lookup_l _ _ _ _ _ HF Hi) as (ki & Hki & Hp).
  pose proof (ahead_spawned e k ki w Hp) as Hsp.
  pose proof (perform_calls P e w) as HcP.
  pose proof (perform_calls Q e w) as HcQ.
  pose proof (perform_goroutines e w) as Hg.
  simpl in Hp. destruct Hp as (_ & Hle & Hk).
  assert (Hin : ki ≤ sum_list ks).
  { pose proof (sum_list_insert ks i ki 0 Hki). lia. }
  destruct (perform env e w) as [[r| |v] w'] eqn:Hpf; simpl in *;
    unfold Orderly; simpl; [|lia..].
  exists (<[i:=ki + cost P e - cost Q e]>
            (ks ++ replicate (length (spawned env e w)) 0)).
  assert (Hi' : (ks ++ replicate (length (spawned env e w)) 0) !! i
                = Some ki) by by apply lookup_app_l_Some.
  pose proof (sum_list_insert _ i ki (ki + cost P e - cost Q e) Hi') as Hs.
  rewrite sum_list_with_app, sum_list_replicate in Hs.
  split.
  - rewrite Hg. apply Forall2_insert; [|apply Hk]. by apply Forall2_app.
  - simpl. lia.
Qed.

Lemma exec_Orderly sched s : Orderly P Q s → Orderly P Q (exec env sched s).
Proof.
  revert s. induction sched as [|i sched IH]; intros s Hs; [done|].
  simpl. apply IH. by apply step_Orderly.
Qed.

(** In a pool whose goroutines each make their [Q]-calls after a
    [P]-call of their own, there are at all times at least as many
    [P]-calls as [Q]-calls in the trace. *)
Lemma ordered_pool sched w0 :
  Forall (λ p, ahead P Q p 0) (goroutines w0) →
  calls Q (trace w0) ≤ calls P (trace w0) →
  calls Q (trace (exec env sched (Alive, w0)).2)
  ≤ calls P (trace (exec env sched (Alive, w0)).2).
Proof.
  intros Hall Hle.
  assert (Hs : Orderly P Q (exec env sched (Alive, w0))).
  { apply exec_Orderly. exists (replicate (length (goroutines w0)) 0).
    simpl. rewrite sum_list_replicate. split; [|lia].
    induction Hall; simpl; constructor; done. }
  destruct (exec env sched (Alive, w0)) as [[|] w]; [|done].
  destruct Hs as (ks & _ & Hsum). simpl in *. lia.
Qed.

End InOrder.


Lemma Start_Stop_ahead_stop (gs : list (Prog unit)) :
  Forall (λ p, p = Start ∨ p = Stop) gs →
  Forall (λ p, ahead isConnectionManagerStop isNetAdapterStop p 0) gs.
Proof.
  intros Hgs. eapply Forall_impl; [exact Hgs|]. intros p [->| ->]; prove_ahead.
Qed.

(** X4: the order of the shutdown body holds under concurrency.  In a pool
    of [Start] and [Stop] calls, whatever their number, the values of the
    two counters and the schedule, the network adapter has at every moment
    been stopped at most as often as the connection manager: each stop of
    the network adapter comes after a stop of the connection manager. *)
Theorem Stop_connection_manager_first sched w0 :
  Forall (λ p, p = Start ∨ p = Stop) (goroutines w0) →
  calls isNetAdapterStop (trace w0) ≤ calls isConnectionManagerStop (trace w0) →
  calls isNetAdapterStop (trace (exec env sched (Alive, w0)).2)
  ≤ calls isConnectionManagerStop (trace (exec env sched (Alive, w0)).2).
Proof.
  intros Hgs Hle. apply ordered_pool; [|done]. by apply Start_Stop_ahead_stop.
Qed.

(** X5: the order of the startup body holds under concurrency.  In a pool
    of [Start] and [Stop] calls, whatever their number, the values of the
    two counters and the schedule, the connection manager has at every
    moment been started at most as often as the network adapter, and so has
    each seeder been called: nothing is seeded and no connection is managed
    before the network adapter was started. *)
Theorem Start_network_adapter_first sched w0 :
  Forall (λ p, p = Start ∨ p = Stop) (goroutines w0) →
  trace w0 = [] →
  let t := trace (exec env sched (Alive, w0)).2 in
  calls isConnectionManagerStart t ≤ calls isNetAdapterStart t
  ∧ calls isSeedFromDNS t ≤ calls isNetAdapterStart t
  ∧ calls isSeedFromGRPC t ≤ calls isNetAdapterStart t.
Proof.
  intros Hgs Ht. cbv zeta. split_and!.
  - apply ordered_pool; [|by rewrite Ht].
    eapply Forall_impl; [exact Hgs|]. intros p [->| ->]; prove_ahead.
  - apply ordered_pool; [|by rewrite Ht].
    eapply Forall_impl; [exact Hgs|]. intros p [->| ->]; prove_ahead.
  - apply ordered_pool; [|by rewrite Ht].
    eapply Forall_impl; [exact Hgs|]. intros p [->| ->]; prove_ahead.
Qed.

(** ** [Stop] never ends the process *)

(** X2: [Stop] never exits and never panics, whatever the collaborators
    answer and whatever the counters hold: every call returns, any number of
    calls in a row return, a pool of [Stop] calls stays alive under every
    schedule, and some schedule makes all of them return. *)
Theorem Stop_never_ends_process :
  (∀ w, (run env Stop w).1 = Returned ())
  ∧ (∀ n w, (run_times env n Stop w).1 = Returned ())
  ∧ (∀ n a t sched,
       (exec env sched
          (Alive, {| this := a; trace := t; goroutines := replicate n Stop |})).1
       = Alive)
  ∧ (∀ n a t,
       ∃ sched,
         let s := exec env sched
                    (Alive,
                     {| this := a; trace := t; goroutines := replicate n Stop |}) in
         s.1 = Alive ∧ Forall returned (goroutines s.2)).
Proof.
  assert (Hall : ∀ n a t,
            Forall (calm env)
              (goroutines
                 {| this := a; trace := t; goroutines := replicate n Stop |})).
  { intros n a t. simpl. apply Forall_replicate, Stop_calm. }
  split_and!.
  - apply Stop_returns.
  - apply run_times_Stop_returns.
  - intros n a t sched. by apply exec_calm.
  - intros n a t.
    destruct (pool_finishes
                {| this := a; trace := t; goroutines := replicate n Stop |})
      as [sched Hs].
    exists sched. cbv zeta.
    destruct (exec_calm sched _ (Hall n a t)) as [Hal _].
    split; [done|]. destruct Hs as [Hd|?]; [|done]. by rewrite Hal in Hd.
Qed.

Lemma stopped_calls_isAlreadyShuttingDown w :
  calls isAlreadyShuttingDown (trace (stopped env w))
  = calls isAlreadyShuttingDown (trace w).
Proof.
  unfold stopped. destruct (netAdapter_Stop env _); simpl;
    rewrite !calls_app; simpl; lia.
Qed.

Lemma run_times_Stop_logs (n : N) w0 :
  (n ≤ 2 ^ 32)%N →
  shutdown (this w0) = 0%Z →
  shutdown (this (run_times env n Stop w0).2) = int32_wrap (Z.of_N n)
  ∧ calls isAlreadyShuttingDown (trace (run_times env n Stop w0).2)
    = calls isAlreadyShuttingDown (trace w0) + N.to_nat (N.pred n).
Proof.
  intros Hn Hsh. revert Hn. induction n as [|n IH] using N.peano_ind; intros Hn.
  - unfold run_times. simpl. rewrite Hsh. split; [done|lia].
  - rewrite run_times_succ.
    pose proof (run_times_Stop_returns n w0) as Hret.
    destruct (run_times env n Stop w0) as [[[]| |v] w] eqn:Hs; [|done..].
    destruct (IH ltac:(lia)) as [IH1 IH2]. cbn [again fst snd] in *.
    assert (Hv : int32_wrap (shutdown (this w) + 1) = 1%Z ↔ n = 0%N).
    { rewrite IH1, int32_wrap_add_l, int32_wrap_succ_eq_1 by lia. lia. }
    assert (Hv' : int32_wrap (shutdown (this w) + 1)
                  = int32_wrap (Z.of_N (N.succ n))).
    { rewrite IH1, int32_wrap_add_l. f_equal. lia. }
    destruct (decide (n = 0%N)) as [->|Hn0].
    + rewrite Stop_first by by apply Hv. cbn [fst snd].
      rewrite stopped_calls_isAlreadyShuttingDown. simpl.
      split; [|lia]. unfold stopped. simpl.
      by destruct (netAdapter_Stop env _).
    + rewrite Stop_not_first by (intros Heq; by apply Hv in Heq).
      cbn [fst snd]. rewrite calls_emit. simpl. split; [done|].
      rewrite IH2. lia.
Qed.

(** X3: [n] calls of [Stop] in a row on a component manager not yet
    stopped, [n] between 1 and [2 ^ 32]: all return, the connection manager
    and the network adapter are stopped once each, and each of the [n - 1]
    calls after the first logs that the shutdown is already under way. *)
Theorem Stop_in_a_row (n : N) c st gs :
  (1 ≤ n ≤ 2 ^ 32)%N →
  let w0 := {| this := {| cfg := c; started := st; shutdown := 0 |};
               trace := []; goroutines := gs |} in
  let s := run_times env n Stop w0 in
  s.1 = Returned ()
  ∧ calls isConnectionManagerStop (trace s.2) = 1
  ∧ calls isNetAdapterStop (trace s.2) = 1
  ∧ calls isAlreadyShuttingDown (trace s.2) = N.to_nat n - 1.
Proof.
  intros [Hn1 Hn] w0. cbv zeta.
  pose proof (run_times_Stop_returns n w0) as Hret.
  destruct (run_times_Stop_logs n w0 Hn eq_refl) as [_ Hlog].
  revert Hret Hlog. rewrite Stop_is_once. intros Hret Hlog.
  destruct (run_times_once field_shutdown isConnectionManagerStop
              Stop_skip Stop_body Stop_skip_owes_ConnectionManagerStop
              Stop_body_owes_ConnectionManagerStop n w0 () Hn eq_refl Hret)
    as (_ & Hcon).
  destruct (run_times_once field_shutdown isNetAdapterStop
              Stop_skip Stop_body Stop_skip_owes_NetAdapterStop
              Stop_body_owes_NetAdapterStop n w0 () Hn eq_refl Hret)
    as (_ & Hnet).
  rewrite decide_False in Hcon, Hnet by lia.
  split_and!; [exact Hret|exact Hcon|exact Hnet|].
  rewrite Hlog. simpl. lia.
Qed.

(** ** What a [Start] call can end in *)

Lemma seeded_write_shutdown s w :
  seeded env (write field_shutdown s w) = write field_shutdown s (seeded env w).
Proof.
  unfold seeded. simpl. destruct (DisableDNSSeed (cfg (this w)));
    case_decide; reflexivity.
Qed.

(** X7: a [Start] call never panics, and it exits in one case only: it is
    the call that bumps "started" to 1 and the network adapter fails to
    start; every other call returns.  Seeding cannot make it fail.  [Start]
    neither reads nor writes "shutdown": a shutdown already requested
    changes nothing of what it does. *)
Theorem Start_outcome w :
  (run env Start w).1
  = (if decide (int32_wrap (started (this w) + 1) = 1%Z) then
       match netAdapter_Start env
               (trace w ++ [EvLog LevelTrace "Starting kaspad"]) with
       | Some _ => Exited
       | None => Returned ()
       end
     else Returned ())
  ∧ ∀ s, run env Start (write field_shutdown s w)
         = ((run env Start w).1, write field_shutdown s (run env Start w).2).
Proof.
  destruct (decide (int32_wrap (started (this w) + 1) = 1%Z)) as [Hv|Hv].
  - destruct (netAdapter_Start env
                (trace w ++ [EvLog LevelTrace "Starting kaspad"]))
      as [e|] eqn:He.
    + split.
      * by rewrite (Start_first w Hv), (Start_body_fails _ e).
      * intros s. rewrite (Start_first w Hv), Start_first by done.
        by rewrite !(Start_body_fails _ e).
    + split.
      * by rewrite (Start_first w Hv), Start_body_ok.
      * intros s. rewrite (Start_first w Hv), Start_first by done.
        rewrite !Start_body_ok by done. simpl. f_equal.
        change (emit EvNetAdapterStart
                  (emit (EvLog LevelTrace "Starting kaspad")
                     (write field_started 1 (write field_shutdown s w))))
          with (write field_shutdown s
                  (emit EvNetAdapterStart
                     (emit (EvLog LevelTrace "Starting kaspad")
                        (write field_started 1 w)))).
        by rewrite seeded_write_shutdown.
  - split.
    + by rewrite Start_not_first.
    + intros s. by rewrite (Start_not_first w Hv), Start_not_first.
Qed.

(** ** "started" wraps around as "shutdown" does *)

Lemma Start_twice_after (n : N) c sh t gs :
  n = (2 ^ 32)%N →
  (∀ t, netAdapter_Start env t = None) →
  let w0 := {| this := {| cfg := c; started := 0; shutdown := sh |};
               trace := t; goroutines := gs |} in
  let s := run_times env n Start w0 in
  s.1 = Returned ()
  ∧ started (this s.2) = 0%Z
  ∧ calls isNetAdapterStart (trace s.2) = calls isNetAdapterStart t + 1
  ∧ calls isConnectionManagerStart (trace s.2)
    = calls isConnectionManagerStart t + 1
  ∧ (run env Start s.2).1 = Returned ()
  ∧ calls isNetAdapterStart (trace (run env Start s.2).2)
    = calls isNetAdapterStart t + 2
  ∧ calls isConnectionManagerStart (trace (run env Start s.2).2)
    = calls isConnectionManagerStart t + 2.
Proof.
  intros Hn Hok w0. cbv zeta.
  pose proof (run_times_Start_returns n w0 Hok) as Hret.
  pose proof (λ w, Start_returns w Hok) as Hret1.
  revert Hret Hret1. rewrite Start_is_once.
  set (s := run_times env n (once field_started (Ret ()) Start_body) w0).
  intros Hret Hret1.
  destruct (once_again_after field_started isNetAdapterStart (Ret ())
              Start_body eq_refl Start_body_owes_NetAdapterStart n w0 ()
              Hn eq_refl Hret) as (Hst & Hnet & Hrun).
  destruct (once_again_after field_started isConnectionManagerStart (Ret ())
              Start_body eq_refl Start_body_owes_ConnectionManagerStart n w0 ()
              Hn eq_refl Hret) as (_ & Hcon & _).
  fold s in Hst, Hnet, Hcon, Hrun. specialize (Hret1 s.2). clearbody s.
  simpl in Hst, Hnet, Hcon.
  rewrite Hrun in Hret1 |- *.
  destruct (run_owes field_started isNetAdapterStart Start_body 1
              (write field_started 1 s.2) Start_body_owes_NetAdapterStart)
    as (_ & _ & Hnet2).
  destruct (run_owes field_started isConnectionManagerStart Start_body 1
              (write field_started 1 s.2)
              Start_body_owes_ConnectionManagerStart)
    as (_ & _ & Hcon2).
  rewrite (Hnet2 _ Hret1), (Hcon2 _ Hret1). simpl. rewrite Hnet, Hcon.
  split_and!; done || lia.
Qed.

(** X8: the guard of [Start] is an [int32] that wraps around.  With a
    network adapter that starts, [2 ^ 32] calls of [Start] on a component
    manager not yet started all return, leave "started" at 0 and have
    started the network adapter and the connection manager once; the next
    call starts both a second time. *)
Theorem Start_twice_after_wrap c sh t gs :
  (∀ t, netAdapter_Start env t = None) →
  let w0 := {| this := {| cfg := c; started := 0; shutdown := sh |};
               trace := t; goroutines := gs |} in
  let s := run_times env (2 ^ 32) Start w0 in
  s.1 = Returned ()
  ∧ started (this s.2) = 0%Z
  ∧ calls isNetAdapterStart (trace s.2) = calls isNetAdapterStart t + 1
  ∧ calls isConnectionManagerStart (trace s.2)
    = calls isConnectionManagerStart t + 1
  ∧ (run env Start s.2).1 = Returned ()
  ∧ calls isNetAdapterStart (trace (run env Start s.2).2)
    = calls isNetAdapterStart t + 2
  ∧ calls isConnectionManagerStart (trace (run env Start s.2).2)
    = calls isConnectionManagerStart t + 2.
Proof. exact (Start_twice_after (2 ^ 32) c sh t gs eq_refl). Qed.

(** ** [Start] and [Stop] do not exclude each other *)

Lemma seeded_trace w :
  ∃ evs, trace (seeded env w) = trace w ++ evs
         ∧ calls isNetAdapterStart evs = 0.
Proof.
  unfold seeded. destruct (DisableDNSSeed _); case_decide; simpl;
    rewrite <- ?app_assoc;
    first [by exists []; rewrite app_nil_r|by eexists].
Qed.

Lemma step_other i j s q :
  i ≠ j → goroutines s.2 !! j = Some q →
  goroutines (step env i s).2 !! j = Some q.
Proof.
  intros Hne Hj. destruct s as [[|] w]; simpl in *; [|done].
  destruct (goroutines w !! i) as [[a|R e k]|] eqn:Hi; simpl; [done| |done].
  pose proof (perform_goroutines e w) as Hg.
  destruct (perform env e w) as [[r| |v] w']; simpl in *;
    rewrite ?list_lookup_insert_ne by done; rewrite Hg;
    by apply lookup_app_l_Some.
Qed.

Lemma exec_alone_other i j k s q :
  i ≠ j → goroutines s.2 !! j = Some q →
  goroutines (exec env (replicate k i) s).2 !! j = Some q.
Proof.
  intros Hne. revert s. induction k as [|k IH]; intros s Hj; [done|].
  simpl. apply IH. by apply step_other.
Qed.

(** X6: nothing orders a [Stop] call with respect to a [Start] call under
    way.  With a network adapter that starts, some schedule of one [Start]
    and one [Stop] call on a fresh component manager lets [Stop] run its
    whole body after [Start] has started the network adapter and before it
    starts the connection manager: both calls return, and the connection
    manager is started last, on a network adapter already stopped. *)
Theorem Stop_can_overtake_Start c :
  (∀ t, netAdapter_Start env t = None) →
  ∃ sched t,
    let s := exec env sched (Alive, fresh_process c [Start; Stop]) in
    s.1 = Alive
    ∧ goroutines s.2 !! 0 = Some (Ret ())
    ∧ goroutines s.2 !! 1 = Some (Ret ())
    ∧ trace s.2
      = [EvLog LevelTrace "Starting kaspad"; EvNetAdapterStart;
         EvLog LevelWarn "Kaspad shutting down"; EvConnectionManagerStop;
         EvNetAdapterStop] ++ t ++ [EvConnectionManagerStart]
    ∧ calls isNetAdapterStart t = 0.
Proof.
  intros Hok.
  set (rest := maybeSeedFromDNS;; call ConnectionManager_Start).
  set (w1 := {| this := {| cfg := c; started := 1; shutdown := 0 |};
                trace := [EvLog LevelTrace "Starting kaspad"; EvNetAdapterStart];
                goroutines := [rest; Stop] |}).
  assert (H1 : exec env [0; 0; 0] (Alive, fresh_process c [Start; Stop])
               = (Alive, w1)).
  { unfold exec, fresh_process. simpl. rewrite Hok. reflexivity. }
  (* [Stop] runs alone, from its first call to its last *)
  destruct (exec_alone 1 Stop w1 eq_refl) as (k1 & _ & Htr1 & Hout1).
  pose proof (exec_alone_other 1 0 k1 (Alive, w1) rest ltac:(done) eq_refl)
    as Hg0.
  rewrite Stop_first in Htr1, Hout1 by done.
  destruct (exec env (replicate k1 1) (Alive, w1)) as [st2 w2] eqn:H2.
  cbn [fst snd] in *. destruct Hout1 as [-> Hg1].
  destruct (stopped_trace (write field_shutdown 1 w1))
    as (evs1 & Hevs1 & _ & _).
  rewrite Hevs1 in Htr1. simpl in Htr1.
  (* the [Start] call resumes *)
  destruct (exec_alone 0 rest w2 Hg0) as (k2 & _ & Htr2 & Hout2).
  pose proof (exec_alone_other 0 1 k2 (Alive, w2) (Ret ()) ltac:(done) Hg1)
    as Hg1'.
  assert (Hrest : run env rest w2
                  = (Returned (), emit EvConnectionManagerStart (seeded env w2))).
  { unfold rest. change (maybeSeedFromDNS;; call ConnectionManager_Start)
      with (maybeSeedFromDNS ≫= λ _, call ConnectionManager_Start).
    by rewrite run_bind, maybeSeedFromDNS_run. }
  rewrite Hrest in Htr2, Hout2. cbn [fst snd] in *.
  destruct Hout2 as [Hal Hg0'].
  destruct (seeded_trace w2) as (evs2 & Hevs2 & Hc2).
  exists ([0; 0; 0] ++ replicate k1 1 ++ replicate k2 0), (evs1 ++ evs2).
  cbv zeta. rewrite !exec_app, H1, H2.
  split_and!; [done..| |].
  - rewrite Htr2. simpl. rewrite Hevs2, Htr1. by rewrite <- !app_assoc.
  - rewrite calls_app, Hc2.
    unfold stopped in Hevs1. revert Hevs1.
    destruct (netAdapter_Stop env _); simpl; intros Heq.
    + by injection Heq as <-.
    + by injection Heq as <-.
Qed.

(** ** More on the notification bridge *)

(** X9: finality notifications are forwarded whether or not there is an
    acceptance index.  For a [FinalityConflict] notification the handler
    makes exactly one call, [NotifyFinalityConflict], with the textual form
    of the violating block hash; for a [FinalityConflictResolved]
    notification exactly one call, [NotifyFinalityConflictResolved], with
    the textual form of the finality block hash; either way it hands back
    what that call answers. *)
Theorem finality_notifications_forwarded n acceptanceIndex h w :
  (Type' n = NTFinalityConflict →
   Data n = Data_FinalityConflict (Some {| ViolatingBlockHash := Some h |}) →
   run env (handleBlockDAGNotifications (Some n) acceptanceIndex) w
   = (Returned (rpcManager_NotifyFinalityConflict env (trace w) (Hash_String h)),
      emit (EvNotifyFinalityConflict (Hash_String h)) w))
  ∧ (Type' n = NTFinalityConflictResolved →
     Data n
     = Data_FinalityConflictResolved (Some {| FinalityBlockHash := Some h |}) →
     run env (handleBlockDAGNotifications (Some n) acceptanceIndex) w
     = (Returned
          (rpcManager_NotifyFinalityConflictResolved env (trace w)
             (Hash_String h)),
        emit (EvNotifyFinalityConflictResolved (Hash_String h)) w)).
Proof.
  split; intros Hty Hd; unfold handleBlockDAGNotifications; simpl;
    rewrite Hty, Hd; simpl.
  - by destruct (rpcManager_NotifyFinalityConflict env _ _).
  - by destruct (rpcManager_NotifyFinalityConflictResolved env _ _).
Qed.

(** X10: whatever the notification (nil and malformed ones included) and
    whatever the RPC manager answers, the handler never exits, leaves the
    component manager and the goroutines as they are, and makes no call at
    all or exactly one call, a notifier call on the RPC manager.  An error
    it returns is the error that call answered, and a panic of its own is a
    runtime error raised before any call. *)
Theorem handler_makes_at_most_one_call notification acceptanceIndex w :
  let r := run env (handleBlockDAGNotifications notification acceptanceIndex) w in
  r.1 ≠ Exited
  ∧ this r.2 = this w
  ∧ goroutines r.2 = goroutines w
  ∧ (trace r.2 = trace w
     ∨ ∃ ev, isNotify ev = true ∧ trace r.2 = trace w ++ [ev])
  ∧ (∀ e, r.1 = Returned (Some e) →
          ∃ ev, isNotify ev = true ∧ trace r.2 = trace w ++ [ev]
                ∧ notifier_reply env (trace w) ev = Some e)
  ∧ (∀ v, r.1 = Panicked v → r.2 = w ∧ ∃ msg, v = RuntimeError msg).
Proof.
  cbv zeta. unfold handleBlockDAGNotifications.
  destruct notification as [[ty data]|]; simpl; [|handler_leaf].
  destruct ty; simpl; [| | |handler_leaf].
  - destruct acceptanceIndex as [idx|]; simpl; [|handler_leaf].
    destruct data as [|[d|]|p|p|]; simpl; try handler_leaf.
    destruct (rpcManager_NotifyChainChanged env _ _ _) as [e'|] eqn:He; simpl;
      handler_leaf.
  - destruct data as [|p|[[[h|]]|]|p|]; simpl; try handler_leaf.
    destruct (rpcManager_NotifyFinalityConflict env _ _) as [e'|] eqn:He;
      simpl; handler_leaf.
  - destruct data as [|p|p|[[[h|]]|]|]; simpl; try handler_leaf.
    destruct (rpcManager_NotifyFinalityConflictResolved env _ _)
      as [e'|] eqn:He; simpl; handler_leaf.
Qed.

(** X11: a notification the engine should never send makes the handler,
    and with it the subscriber, panic with a runtime error before any call
    is made: a nil notification; a [ChainChanged] notification, the
    acceptance index being present, whose payload is not a non-nil
    [ChainChangedNotificationData]; a finality notification whose payload is
    not a non-nil payload of its kind with a non-nil block hash. *)
Theorem malformed_notification_panics acceptanceIndex notification w :
  match notification with
  | None => True
  | Some n =>
      match Type' n with
      | NTChainChanged =>
          acceptanceIndex ≠ None ∧ ∀ d, Data n ≠ Data_ChainChanged (Some d)
      | NTFinalityConflict =>
          ∀ h, Data n
               ≠ Data_FinalityConflict (Some {| ViolatingBlockHash := Some h |})
      | NTFinalityConflictResolved =>
          ∀ h, Data n
               ≠ Data_FinalityConflictResolved
                   (Some {| FinalityBlockHash := Some h |})
      | NTOther _ => False
      end
  end →
  ∃ msg,
    run env (handleBlockDAGNotifications notification acceptanceIndex) w
    = (Panicked (RuntimeError msg), w)
    ∧ run env (dagSubscriber acceptanceIndex notification) w
      = (Panicked (RuntimeError msg), w).
Proof.
  unfold dagSubscriber, handleBlockDAGNotifications.
  destruct notification as [[ty data]|]; simpl; [|by eexists].
  destruct ty; simpl.
  - intros [Hidx Hd]. destruct acceptanceIndex as [idx|]; [|done]. simpl.
    destruct data as [|[d|]|p|p|]; simpl; try by eexists.
    by destruct (Hd d).
  - intros Hd. destruct data as [|p|[[[h|]]|]|p|]; simpl; try by eexists.
    by destruct (Hd h).
  - intros Hd. destruct data as [|p|p|[[[h|]]|]|]; simpl; try by eexists.
    by destruct (Hd h).
  - done.
Qed.

(** ** Every seeded batch reaches the address book *)

Lemma split_snoc (l t1 t2 : list Event) (x ev : Event) :
  l ++ [x] = t1 ++ ev :: t2 →
  (t1 = l ∧ ev = x ∧ t2 = []) ∨ ∃ t2', t2 = t2' ++ [x] ∧ l = t1 ++ ev :: t2'.
Proof.
  destruct t2 as [|y t2 _] using rev_ind.
  - intros [-> ->]%app_inj_tail. by left.
  - intros Heq. right. exists t2.
    change (t1 ++ ev :: t2 ++ [y]) with (t1 ++ (ev :: t2) ++ [y]) in Heq.
    rewrite app_assoc in Heq. by apply app_inj_tail in Heq as [-> ->].
Qed.

Lemma hands_onSeed_spawned {R} (e : Effect OnSeed R) k w :
  hands_onSeed (Vis e k) →
  spawned env e w
  = onSeed <$> match event_of e with
               | Some ev => batches_of env (trace w) ev
               | None => []
               end.
Proof. simpl. intros [Hq _]. destruct e; simpl; by rewrite ?Hq. Qed.

Lemma step_Seeding i s : Seeding env s → Seeding env (step env i s).
Proof.
  destruct s as [[|] w]; [|done]. unfold Seeding at 1. simpl.
  intros [HP Hall].
  destruct (goroutines w !! i) as [[a|R e k]|] eqn:Hi; [done| |done].
  pose proof (Forall_lookup_1 _ _ _ _ Hall Hi) as Hh.
  pose proof (hands_onSeed_spawned e k w Hh) as Hsp.
  pose proof (perform_trace e w) as Htr.
  pose proof (perform_goroutines e w) as Hg.
  pose proof (lookup_lt_Some _ _ _ Hi) as Hlt.
  destruct (perform env e w) as [[r| |v] w'] eqn:Hpf; simpl in *;
    unfold Seeding; simpl; [|done..].
  split.
  - unfold Pending. simpl. intros t1 ev t2 batch Hsplit Hb.
    rewrite Htr in Hsplit |- *.
    assert (Hold : ∀ t2', trace w = t1 ++ ev :: t2' →
              (∃ j, <[i:=k r]> (goroutines w') !! j = Some (onSeed batch))
              ∨ EvAddAddresses batch ∈ trace w ++ option_list (event_of e)).
    { intros t2' Hw. destruct (HP t1 ev t2' batch Hw Hb) as [[j Hj]|Hev].
      - destruct (decide (j = i)) as [->|Hne].
        + right. rewrite Hi in Hj.
          apply (f_equal (from_option next_event None)) in Hj.
          simpl in Hj. rewrite Hj. simpl.
          apply elem_of_app. right. by apply list_elem_of_singleton.
        + left. exists j. rewrite list_lookup_insert_ne by done.
          rewrite Hg. by apply lookup_app_l_Some.
      - right. apply elem_of_app. by left. }
    destruct (event_of e) as [x|] eqn:Hx; simpl in Hsplit;
      [|rewrite app_nil_r in Hsplit; by eapply Hold].
    apply split_snoc in Hsplit as [(-> & -> & ->)|(t2' & -> & Hw)];
      [|by eapply Hold].
    left. apply list_elem_of_lookup in Hb as [j Hj].
    exists (length (goroutines w) + j).
    rewrite list_lookup_insert_ne by lia.
    rewrite Hg, lookup_app_r, Hsp by lia.
    replace (length (goroutines w) + j - length (goroutines w)) with j by lia.
    by rewrite list_lookup_fmap, Hj.
  - apply Forall_insert; [|apply Hh]. rewrite Hg. apply Forall_app.
    split; [done|]. rewrite Hsp. apply Forall_fmap, Forall_forall. done.
Qed.

Lemma exec_Seeding sched s : Seeding env s → Seeding env (exec env sched s).
Proof.
  revert s. induction sched as [|i sched IH]; intros s Hs; [done|].
  simpl. apply IH. by apply step_Seeding.
Qed.

(** X12: seeding end to end.  In a pool of [Start] and [Stop] calls on a
    component manager that has made no call yet, whatever their number and
    the schedule: once every goroutine has returned with the process alive,
    every address of every batch that a seeder called on the way obtained
    has been handed to the address manager. *)
Theorem seeded_batches_reach_address_book sched w0 :
  Forall (λ p, p = Start ∨ p = Stop) (goroutines w0) →
  trace w0 = [] →
  (exec env sched (Alive, w0)).1 = Alive →
  Forall returned (goroutines (exec env sched (Alive, w0)).2) →
  ∀ t1 ev t2 batch a,
    trace (exec env sched (Alive, w0)).2 = t1 ++ ev :: t2 →
    batch ∈ batches_of env t1 ev →
    a ∈ batch →
    a ∈ addressBook (trace (exec env sched (Alive, w0)).2).
Proof.
  intros Hgs Ht Hal Hret t1 ev t2 batch a Hsplit Hb Ha.
  assert (Hs : Seeding env (exec env sched (Alive, w0))).
  { apply exec_Seeding. split; simpl.
    - intros t1' ev' t2' b' Hw. rewrite Ht in Hw. by destruct t1'.
    - eapply Forall_impl; [exact Hgs|]. intros p [->| ->]; prove_hands. }
  destruct (exec env sched (Alive, w0)) as [st w]. simpl in *. subst st.
  destruct Hs as [HP _].
  destruct (HP t1 ev t2 batch Hsplit Hb) as [[j Hj]|Hev].
  - pose proof (Forall_lookup_1 _ _ _ _ Hret Hj) as Hr. destruct Hr.
  - by eapply addressBook_elem.
Qed.

(** ** Nothing but seeded batches reaches the address book *)

Lemma obtained_app t l batch :
  obtained env t batch → obtained env (t ++ l) batch.
Proof.
  intros (t1 & ev & t2 & -> & Hb). exists t1, ev, (t2 ++ l).
  split; [|done]. by rewrite <- app_assoc.
Qed.

Lemma onSeed_inv {R} (e : Effect OnSeed R) k batch :
  Vis e k = onSeed batch →
  event_of e = Some (EvAddAddresses batch)
  ∧ (∀ w, spawned env e w = [])
  ∧ (∀ r, adds_nothing (k r)).
Proof.
  intros Heq.
  assert (Hq : match onSeed batch with
               | Ret _ => True
               | Vis e k =>
                   event_of e = Some (EvAddAddresses batch)
                   ∧ (∀ w, spawned env e w = [])
                   ∧ (∀ r, adds_nothing (k r))
               end) by done.
  by rewrite <- Heq in Hq.
Qed.

Lemma adds_nothing_inv {R} (e : Effect OnSeed R) k w :
  adds_nothing (Vis e k) →
  (∀ batch, event_of e ≠ Some (EvAddAddresses batch))
  ∧ spawned env e w
    = onSeed <$> match event_of e with
                 | Some ev => batches_of env (trace w) ev
                 | None => []
                 end
  ∧ (∀ r, adds_nothing (k r)).
Proof.
  simpl. intros [Hq Hk]. split_and!; [|destruct e; simpl; by rewrite ?Hq|done].
  intros batch. by destruct e.
Qed.

Lemma step_OnlySeeded i s : OnlySeeded env s → OnlySeeded env (step env i s).
Proof.
  destruct s as [[|] w]; [|done]. intros [Htr Hgs]. simpl in *.
  specialize (Hgs eq_refl).
  destruct (goroutines w !! i) as [[a|R e k]|] eqn:Hi; [by split| |by split].
  pose proof (Forall_lookup_1 _ _ _ _ Hgs Hi) as Hp.
  pose proof (perform_trace e w) as Ht.
  pose proof (perform_goroutines e w) as Hg.
  assert (Hold : Forall (λ p, adds_nothing p
                              ∨ ∃ batch, p = onSeed batch
                                         ∧ obtained env
                                             (trace w ++ option_list (event_of e))
                                             batch)
                   (goroutines w)).
  { eapply Forall_impl; [exact Hgs|]. intros p [Hn|(b & -> & Hb)]; [by left|].
    right. exists b. split; [done|]. by apply obtained_app. }
  assert (Hnew : (∀ batch,
                    EvAddAddresses batch ∈ trace w ++ option_list (event_of e) →
                    obtained env (trace w ++ option_list (event_of e)) batch)
                 ∧ Forall (λ p, adds_nothing p
                                ∨ ∃ batch, p = onSeed batch
                                           ∧ obtained env
                                               (trace w
                                                ++ option_list (event_of e))
                                               batch)
                     (spawned env e w)
                 ∧ ∀ r, adds_nothing (k r)).
  { destruct Hp as [Hn|(b & Heq & Hb)].
    - destruct (adds_nothing_inv e k w Hn) as (Hev & Hsp & Hk).
      split_and!; [|rewrite Hsp|done].
      + intros batch [Hin|Hin]%elem_of_app; [by apply obtained_app, Htr|].
        destruct (event_of e) as [ev|]; simpl in Hin;
          [|by apply elem_of_nil in Hin].
        apply list_elem_of_singleton in Hin as <-. by destruct (Hev batch).
      + apply Forall_fmap, Forall_forall. intros batch Hin. right.
        exists batch. split; [done|].
        destruct (event_of e) as [ev|]; simpl in *;
          [|by apply elem_of_nil in Hin].
        by exists (trace w), ev, [].
    - destruct (onSeed_inv e k b Heq) as (Hev & Hsp & Hk).
      split_and!; [|by rewrite Hsp|done].
      intros batch [Hin|Hin]%elem_of_app; [by apply obtained_app, Htr|].
      rewrite Hev in Hin. simpl in Hin.
      apply list_elem_of_singleton in Hin as [= ->]. by apply obtained_app. }
  destruct Hnew as (Htr' & Hsp' & Hk').
  destruct (perform env e w) as [[r| |v] w'] eqn:Hpf; simpl in *;
    (split; simpl; [by rewrite Ht|]); [|done..].
  intros _. rewrite Ht, Hg. apply Forall_insert; [|by left].
  by apply Forall_app.
Qed.

Lemma exec_OnlySeeded sched s :
  OnlySeeded env s → OnlySeeded env (exec env sched s).
Proof.
  revert s. induction sched as [|i sched IH]; intros s Hs; [done|].
  simpl. apply IH. by apply step_OnlySeeded.
Qed.

Lemma addressBook_elem_inv t a :
  a ∈ addressBook t → ∃ batch, EvAddAddresses batch ∈ t ∧ a ∈ batch.
Proof.
  induction t as [|ev t IH]; simpl; [by intros ?%elem_of_nil|].
  assert (Hrest : a ∈ addressBook t →
                  ∃ batch, EvAddAddresses batch ∈ ev :: t ∧ a ∈ batch).
  { intros (batch & Hin & Ha)%IH. exists batch. split; [|done].
    by apply elem_of_cons; right. }
  destruct ev; try done.
  intros [Ha|Ha]%elem_of_app; [|by apply Hrest].
  eexists. split; [apply list_elem_of_here|done].
Qed.

(** X21: nothing but seeded batches reaches the address book.  In a pool
    of [Start] and [Stop] calls on a component manager that has made no call
    yet, whatever their number and the schedule, every batch handed to the
    address manager was obtained by a seeder called before, and every
    address in the address book belongs to such a batch. *)
Theorem address_book_holds_only_seeded sched w0 :
  Forall (λ p, p = Start ∨ p = Stop) (goroutines w0) →
  trace w0 = [] →
  (∀ batch,
     EvAddAddresses batch ∈ trace (exec env sched (Alive, w0)).2 →
     obtained env (trace (exec env sched (Alive, w0)).2) batch)
  ∧ (∀ a,
       a ∈ addressBook (trace (exec env sched (Alive, w0)).2) →
       ∃ batch,
         a ∈ batch
         ∧ obtained env (trace (exec env sched (Alive, w0)).2) batch).
Proof.
  intros Hgs Ht.
  assert (Hs : OnlySeeded env (exec env sched (Alive, w0))).
  { apply exec_OnlySeeded. split; simpl.
    - rewrite Ht. by intros batch ?%elem_of_nil.
    - intros _. eapply Forall_impl; [exact Hgs|].
      intros p [->| ->]; left; prove_adds_nothing. }
  destruct Hs as [Htr _]. split; [exact Htr|].
  intros a (batch & Hin & Ha)%addressBook_elem_inv. exists batch.
  split; [done|]. by apply Htr.
Qed.

(** ** What [Start] and [Stop] leave to each other *)

Lemma calls_never (t : list Event) : calls never t = 0.
Proof. induction t as [|ev t IH]; simpl; [done|exact IH]. Qed.

Lemma never_pool Q sched w0 :
  Forall (λ p, ahead never Q p 0) (goroutines w0) →
  calls Q (trace w0) = 0 →
  calls Q (trace (exec env sched (Alive, w0)).2) = 0.
Proof.
  intros Hall Hq.
  pose proof (ordered_pool never Q sched w0 Hall) as Hle.
  rewrite !calls_never in Hle. lia.
Qed.

(** X20: [Start] stops nothing and [Stop] starts nothing.  Whatever the
    counters hold and whatever the schedule, a pool of [Start] calls never
    stops the connection manager or the network adapter, process exit
    included; and a pool of [Stop] calls never starts the network adapter
    or the connection manager and never calls a seeder. *)
Theorem Start_stops_nothing_Stop_starts_nothing n a sched :
  (let s := exec env sched
              (Alive,
               {| this := a; trace := []; goroutines := replicate n Start |}) in
   calls isConnectionManagerStop (trace s.2) = 0
   ∧ calls isNetAdapterStop (trace s.2) = 0)
  ∧ (let s := exec env sched
                (Alive,
                 {| this := a; trace := []; goroutines := replicate n Stop |}) in
     calls isNetAdapterStart (trace s.2) = 0
     ∧ calls isConnectionManagerStart (trace s.2) = 0
     ∧ calls isSeedFromDNS (trace s.2) = 0
     ∧ calls isSeedFromGRPC (trace s.2) = 0).
Proof.
  cbv zeta. split_and!; (apply never_pool; [|done]); simpl;
    apply Forall_replicate; prove_ahead.
Qed.

(** ** Index setup, whatever the configuration *)

Section SetupIndexesResult.

Variable NewManager : list Indexer → ptr indexers_Manager.

(** X14: what [setupIndexes] returns, for every configuration.  It
    never exits and never panics; the index manager is never the nil
    interface, and is built from exactly the indexes enabled: the
    acceptance index alone when it is enabled, none otherwise; the
    acceptance index returned is the very one handed to the index manager,
    and nil when disabled; one line is logged when it is enabled, none
    otherwise. *)
Theorem setupIndexes_result c w :
  let acceptanceIndex :=
    if AcceptanceIndex c then NewAcceptanceIndex else None in
  let indexes :=
    if AcceptanceIndex c then [Indexer_AcceptanceIndex acceptanceIndex]
    else [] in
  run env (setupIndexes NewManager c) w
  = (Returned (IndexManager_Manager (NewManager indexes), acceptanceIndex),
     if AcceptanceIndex c
     then emit (EvLog LevelInfo "acceptance index is enabled") w else w)
  ∧ IndexManager_Manager (NewManager indexes) ≠ IndexManager_nil.
Proof. unfold setupIndexes. by destruct (AcceptanceIndex c). Qed.

End SetupIndexesResult.

(** ** Construction *)

Section Constructing.

Context `{Packages}.
Variable mk : Constructors.
Variable NewManager : list Indexer → ptr indexers_Manager.

(** X15: whenever [NewComponentManager] returns, it returns a component
    manager and no error, or no component manager and an error, never both
    and never neither; and it returns a component manager exactly when
    every call it made on another package answered without error. *)
Theorem NewComponentManager_manager_or_error cfg databaseContext interrupt s
    m err :
  let r := NewComponentManager env mk NewManager cfg databaseContext interrupt s in
  r.1 = Returned (m, err) →
  ((∃ a, m = Some a) ∧ err = None ∨ m = None ∧ ∃ e, err = Some e)
  ∧ ∃ cs,
      built r.2 = built s ++ cs
      ∧ (err = None ↔ Forall (λ c, answered_error mk c = None) cs).
Proof.
  cbv zeta.
  build_paths; intros [= <- <-]; rewrite <- !app_assoc;
    (split; [by eauto|]); eexists; (split; [reflexivity|]);
    (split; [intros Herr|intros Hall]); try done.
  all: try (repeat constructor; simpl;
            try match goal with
                | Heq : ?x = _ |- context [?x] => by rewrite Heq
                end).
  all: repeat (apply Forall_cons in Hall as [? Hall]); simpl in *;
    repeat match goal with
           | Heq : ?x = (_, Some _), Hc : context [?x] |- _ =>
               rewrite Heq in Hc
           end;
    simpl in *; congruence.
Qed.

(** X16: construction stops at the first constructor that fails.  When
    [NewComponentManager] returns an error, it returns no component
    manager, the error is the one answered by the last call it made, every
    call before that one answered without error, and nothing of the RPC
    setup was run: no RPC manager was built, no handler was set and no
    subscription was registered on the DAG. *)
Theorem NewComponentManager_fails_fast cfg databaseContext interrupt s e m :
  let r := NewComponentManager env mk NewManager cfg databaseContext interrupt s in
  r.1 = Returned (m, Some e) →
  m = None
  ∧ ∃ cs c,
      built r.2 = built s ++ cs ++ [c]
      ∧ answered_error mk c = Some e
      ∧ Forall (λ c', answered_error mk c' = None ∧ isSetupRPC c' = false) cs.
Proof.
  cbv zeta.
  build_paths; intros [= <- <-] || intros [=]; rewrite <- !app_assoc;
    (split; [done|]);
    first
      [ eexists [_; _], _; split; [reflexivity|]
      | eexists [_; _; _; _], _; split; [reflexivity|]
      | eexists [_; _; _; _; _; _], _; split; [reflexivity|]
      | eexists [_; _; _; _; _; _; _], _; split; [reflexivity|]
      | eexists [_; _; _; _; _; _; _; _], _; split; [reflexivity|] ];
    (split; [|repeat constructor]); simpl;
    try match goal with
        | Heq : ?x = _ |- context [?x] => by rewrite Heq
        end.
Qed.


(** X17: when [NewComponentManager] succeeds it has made these calls in
    this order, and the components share their instances: the network
    adapter, the address manager, the connection manager, the protocol
    manager and the RPC manager stored in the component manager are the
    ones the constructors handed back and the ones handed to every
    component built after them; the DAG, the mempool and the signature
    cache are shared likewise; the index manager handed to the DAG is never
    the nil interface; the acceptance index handed to the RPC manager is
    the one the subscribed callback consults; [P2PNodeID] answers with the
    ID of the network adapter built; and both counters are zero. *)
Theorem NewComponentManager_wires_shared_instances cfg databaseContext
    interrupt s a :
  let r := NewComponentManager env mk NewManager cfg databaseContext interrupt s in
  r.1 = Returned (Some a, None) →
  ∃ indexManager acceptanceIndex sigCache dag txMempool blockTemplateGenerator,
    built r.2
    = built s
      ++ [Call_txscript_NewSigCache (SigCacheMaxSize cfg);
          Call_blockdag_NewTimeSource;
          Call_blockdag_New
            {| blockdag_Config_DatabaseContext := databaseContext;
               blockdag_Config_DAGParams := NetParams (lifecycle cfg);
               blockdag_Config_TimeSource := blockdag_NewTimeSource mk;
               blockdag_Config_SigCache := sigCache;
               blockdag_Config_IndexManager := indexManager;
               blockdag_Config_SubnetworkID := cfg_SubnetworkID cfg;
               blockdag_Config_MaxUTXOCacheSize := MaxUTXOCacheSize cfg |};
          Call_mempool_New
            {| mempool_Config_Policy :=
                 {| AcceptNonStd := RelayNonStd cfg;
                    mempool_Policy_MaxOrphanTxs := MaxOrphanTxs cfg;
                    MaxOrphanTxSize := DefaultMaxOrphanTxSize;
                    mempool_Policy_MinRelayTxFee := MinRelayTxFee cfg;
                    MaxTxVersion := 1 |};
               mempool_Config_CalcTxSequenceLockFromReferencedUTXOEntries :=
                 CalcTxSequenceLockFromReferencedUTXOEntries dag;
               mempool_Config_SigCache := sigCache;
               mempool_Config_DAG := dag |};
          Call_netadapter_NewNetAdapter cfg;
          Call_addressmanager_NewConfig cfg;
          Call_addressmanager_New (addressmanager_NewConfig mk cfg);
          Call_connmanager_New cfg (netAdapter a) (AddressManager a);
          Call_protocol_NewManager cfg dag (netAdapter a) (AddressManager a)
            txMempool (connectionManager a);
          Call_mining_NewBlkTmplGenerator
            {| mining_Policy_BlockMaxMass := BlockMaxMass cfg |}
            txMempool dag sigCache;
          Call_rpc_NewManager cfg (netAdapter a) dag (protocolManager a)
            (connectionManager a) blockTemplateGenerator txMempool
            (AddressManager a) acceptanceIndex interrupt;
          Call_SetOnBlockAddedToDAGHandler (protocolManager a)
            (NotifyBlockAddedToDAG (rpcManager a));
          Call_SetOnTransactionAddedToMempoolHandler (protocolManager a)
            (NotifyTransactionAddedToMempool (rpcManager a));
          Call_Subscribe dag (dagSubscriber acceptanceIndex)]
    ∧ indexManager ≠ IndexManager_nil
    ∧ netadapter_NewNetAdapter mk cfg = (netAdapter a, None)
    ∧ addressmanager_New mk (addressmanager_NewConfig mk cfg)
      = (AddressManager a, None)
    ∧ connmanager_New mk cfg (netAdapter a) (AddressManager a)
      = (connectionManager a, None)
    ∧ protocol_NewManager mk cfg dag (netAdapter a) (AddressManager a)
        txMempool (connectionManager a)
      = (protocolManager a, None)
    ∧ rpcManager a
      = rpc_NewManager mk cfg (netAdapter a) dag (protocolManager a)
          (connectionManager a) blockTemplateGenerator txMempool
          (AddressManager a) acceptanceIndex interrupt
    ∧ (∀ s', (P2PNodeID mk a s').1
             = Returned (netAdapter_ID mk (netadapter_NewNetAdapter mk cfg).1))
    ∧ node_cfg a = cfg
    ∧ receiver a = {| cfg := lifecycle cfg; started := 0; shutdown := 0 |}.
Proof.
  cbv zeta.
  build_paths; intros [= <-] || intros [=]; rewrite <- !app_assoc; simpl;
    do 6 eexists; (split; [reflexivity|]); unfold AddressManager; simpl;
    split_and!; try done;
    match goal with
    | Heq : ?x = _ |- context [?x] => by rewrite Heq
    end.
Qed.

(** X18: from configuration to forwarding.  When [NewComponentManager]
    succeeds, the last call it made registered the one subscription on the
    DAG, and the callback registered forwards a well-formed [ChainChanged]
    notification to the RPC manager when the acceptance index is enabled in
    the configuration (and was created), and ignores it when the
    acceptance index is disabled. *)
Theorem ChainChanged_forwarding_follows_configuration cfg databaseContext
    interrupt s a :
  let r := NewComponentManager env mk NewManager cfg databaseContext interrupt s in
  r.1 = Returned (Some a, None) →
  ∃ cs dag callback,
    built r.2 = built s ++ cs ++ [Call_Subscribe dag callback]
    ∧ Forall (λ c, isSubscribe c = false) cs
    ∧ ∀ n d w,
        Type' n = NTChainChanged →
        Data n = Data_ChainChanged (Some d) →
        (AcceptanceIndex (lifecycle cfg) = false →
         run env (callback (Some n)) w = (Returned (), w))
        ∧ (AcceptanceIndex (lifecycle cfg) = true →
           is_Some NewAcceptanceIndex →
           trace (run env (callback (Some n)) w).2
           = trace w ++ [EvNotifyChainChanged (RemovedChainBlockHashes d)
                           (AddedChainBlockHashes d)]).
Proof.
  cbv zeta.
  build_paths; intros [= <-] || intros [=]; rewrite <- !app_assoc; simpl;
    eexists [_; _; _; _; _; _; _; _; _; _; _; _; _], _, _;
    (split; [reflexivity|]); (split; [repeat constructor|]);
    intros nt d w Hty Hd; split; intros Hacc; try discriminate Hacc;
    try intros [idx Hidx];
    unfold dagSubscriber, handleBlockDAGNotifications; simpl;
    rewrite Hty, ?Hidx, ?Hd; simpl; try done.
  by destruct (rpcManager_NotifyChainChanged env _ _ _).
Qed.


Lemma NewComponentManager_receiver cfg databaseContext interrupt s a :
  (NewComponentManager env mk NewManager cfg databaseContext interrupt s).1
  = Returned (Some a, None) →
  receiver a = {| cfg := lifecycle cfg; started := 0; shutdown := 0 |}.
Proof. build_paths; (intros [= <-] || intros [=]); done. Qed.

(** X19: the component manager [NewComponentManager] returns is a fresh
    one: the first [Start] call on it runs the startup body, and the first
    [Stop] call on it runs the shutdown body, whatever was logged before. *)
Theorem new_component_manager_is_fresh cfg databaseContext interrupt s a t gs :
  (NewComponentManager env mk NewManager cfg databaseContext interrupt s).1
  = Returned (Some a, None) →
  let w := {| this := receiver a; trace := t; goroutines := gs |} in
  (∃ evs, trace (run env Start w).2
          = t ++ [EvLog LevelTrace "Starting kaspad"; EvNetAdapterStart] ++ evs)
  ∧ (∃ evs, trace (run env Stop w).2
            = t ++ [EvLog LevelWarn "Kaspad shutting down";
                    EvConnectionManagerStop; EvNetAdapterStop] ++ evs).
Proof.
  intros Hr. cbv zeta.
  rewrite (NewComponentManager_receiver _ _ _ _ _ Hr). split.
  - rewrite Start_first by done.
    destruct (netAdapter_Start env (t ++ [EvLog LevelTrace "Starting kaspad"]))
      as [e|] eqn:He.
    + rewrite (Start_body_fails _ e) by done. simpl.
      eexists [_; _]. by rewrite <- !app_assoc.
    + rewrite Start_body_ok by done. simpl.
      destruct (seeded_trace
                  (emit EvNetAdapterStart
                     (emit (EvLog LevelTrace "Starting kaspad")
                        (write field_started 1
                           {| this := {| cfg := lifecycle cfg; started := 0;
                                         shutdown := 0 |};
                              trace := t; goroutines := gs |}))))
        as (evs & Hevs & _).
      rewrite Hevs. simpl. exists (evs ++ [EvConnectionManagerStart]).
      by rewrite <- !app_assoc.
  - rewrite Stop_first by done. simpl.
    destruct (stopped_trace
                (write field_shutdown 1
                   {| this := {| cfg := lifecycle cfg; started := 0;
                                 shutdown := 0 |};
                      trace := t; goroutines := gs |}))
      as (evs & Hevs & _). exists evs. by rewrite Hevs.
Qed.

End Constructing.

End Properties.

(** * Concrete runs *)

Section Runs.

#[local] Existing Instance demo.

(** [Start] on a fresh component manager whose network adapter fails to
    start: the process exits after one attempt to start the network adapter,
    and the connection manager is started zero times, not once. *)
Lemma Start_failing_transport_counterexample :
  (run foul_weather Start (fresh_process demo_cfg [])).1 = Exited
  ∧ calls isNetAdapterStart
      (trace (run foul_weather Start (fresh_process demo_cfg [])).2) = 1
  ∧ calls isConnectionManagerStart
      (trace (run foul_weather Start (fresh_process demo_cfg [])).2) = 0
  ∧ calls isConnectionManagerStart
      (trace (run foul_weather Start (fresh_process demo_cfg [])).2) ≠ 1.
Proof. vm_compute. split_and!; done. Qed.

Lemma Start_single_execution_witness :
  run fair_weather Start (write field_started 5 (fresh_process demo_cfg []))
  = (Returned (), write field_started 6 (fresh_process demo_cfg []))
  ∧ (∃ evs,
       trace (run fair_weather Start (fresh_process demo_cfg [])).2
       = [] ++ [EvLog LevelTrace "Starting kaspad"; EvNetAdapterStart] ++ evs)
  ∧ calls isConnectionManagerStart
      (trace (run_times fair_weather 3 Start (fresh_process demo_cfg [])).2) = 1
  ∧ calls isNetAdapterStart
      (trace (exec fair_weather demo_calls_schedule
                (Alive, fresh_process demo_cfg
                          (replicate 2 Start ++ replicate 1 Stop))).2) = 1
  ∧ calls isConnectionManagerStart
      (trace (exec fair_weather demo_calls_schedule
                (Alive, fresh_process demo_cfg
                          (replicate 2 Start ++ replicate 1 Stop))).2) = 1
  ∧ goroutines
      (exec fair_weather demo_calls_schedule
         (Alive, fresh_process demo_cfg
                   (replicate 2 Start ++ replicate 1 Stop))).2
    = [Ret (); Ret (); Ret (); onSeed [Some "A1"; Some "A2"]].
Proof.
  destruct (Start_single_execution fair_weather) as (H1 & H2 & H3 & H4 & _).
  split_and!.
  - apply (H1 (write field_started 5 (fresh_process demo_cfg []))).
    vm_compute. discriminate.
  - apply (H2 (fresh_process demo_cfg [])). reflexivity.
  - apply (H3 3%N demo_cfg []); [reflexivity|lia].
  - apply (H4 2 1 demo_calls_schedule demo_cfg); [lia|simpl; lia|reflexivity|].
    vm_compute. repeat constructor.
  - apply (H4 2 1 demo_calls_schedule demo_cfg); [lia|simpl; lia|reflexivity|].
    vm_compute. repeat constructor.
  - reflexivity.
Defined.

Lemma Stop_without_Start_witness :
  (run fair_weather Stop (fresh_process demo_cfg [])).1 = Returned ()
  ∧ started (this (run fair_weather Stop (fresh_process demo_cfg [])).2) = 0%Z.
Proof.
  destruct (Stop_without_Start fair_weather (fresh_process demo_cfg []))
    as (H1 & _ & H3 & _); [reflexivity|reflexivity|].
  split; [exact H1|exact H3].
Defined.

Lemma Stop_transport_error_is_logged_witness :
  (run foul_weather Stop (fresh_process demo_cfg [])).1 = Returned ()
  ∧ trace (run foul_weather Stop (fresh_process demo_cfg [])).2
    = [] ++ [EvLog LevelWarn "Kaspad shutting down";
             EvConnectionManagerStop; EvNetAdapterStop;
             EvLog LevelError
               ("Error stopping the net adapter: "
                +:+ "use of closed network connection")].
Proof.
  apply (Stop_transport_error_is_logged foul_weather
           (fresh_process demo_cfg [])); reflexivity.
Defined.

Lemma Start_transport_error_is_fatal_witness :
  (run foul_weather Start (fresh_process demo_cfg [])).1 = Exited
  ∧ goroutines (run foul_weather Start (fresh_process demo_cfg [])).2 = []
  ∧ calls isConnectionManagerStart
      (trace (run foul_weather Start (fresh_process demo_cfg [])).2)
    = calls isConnectionManagerStart [].
Proof.
  destruct (Start_transport_error_is_fatal foul_weather
              (fresh_process demo_cfg []) "listen: address already in use")
    as (H1 & _ & H3 & _ & _ & H6); [reflexivity|reflexivity|].
  split_and!; [exact H1|exact H3|exact H6].
Defined.

(** [ChainChanged{removed: [B1], added: [B2, B3]}] with the acceptance
    index present: one call [NotifyChainChanged([B1], [B2, B3])]. *)
Lemma ChainChanged_forwarded_witness :
  run fair_weather
    (handleBlockDAGNotifications (Some demo_ChainChanged) (Some ()))
    (fresh_process demo_cfg [])
  = (Returned None,
     emit (EvNotifyChainChanged [Some "B1"] [Some "B2"; Some "B3"])
       (fresh_process demo_cfg []))
  ∧ run fair_weather (handleBlockDAGNotifications (Some demo_ChainChanged) None)
      (fresh_process demo_cfg [])
    = (Returned None, fresh_process demo_cfg []).
Proof.
  split.
  - apply (proj1 (ChainChanged_forwarded_iff_acceptanceIndex fair_weather
                    demo_ChainChanged (Some ()) (fresh_process demo_cfg [])
                    eq_refl) () demo_ChainChangedData);
      reflexivity.
  - apply (proj2 (ChainChanged_forwarded_iff_acceptanceIndex fair_weather
                    demo_ChainChanged None (fresh_process demo_cfg [])
                    eq_refl)).
    reflexivity.
Defined.

Lemma other_notification_is_ignored_witness :
  run fair_weather (handleBlockDAGNotifications (Some demo_BlockAdded) None)
    (fresh_process demo_cfg [])
  = (Returned None, fresh_process demo_cfg [])
  ∧ run fair_weather (dagSubscriber None (Some demo_BlockAdded))
      (fresh_process demo_cfg [])
    = (Returned (), fresh_process demo_cfg []).
Proof.
  apply (other_notification_is_ignored fair_weather demo_BlockAdded None
           (fresh_process demo_cfg [])); discriminate.
Defined.

(** A [FinalityConflict] the RPC manager rejects brings the subscriber
    down with the RPC manager's error. *)
Lemma forward_error_panics_witness :
  (run foul_weather (dagSubscriber None (Some demo_FinalityConflict))
     (fresh_process demo_cfg [])).1
  = Panicked (PanicError "rpc: queue closed")
  ∧ (run foul_weather (dagSubscriber None (Some demo_FinalityConflict))
       (fresh_process demo_cfg [])).1
    ≠ Returned ().
Proof.
  apply (forward_error_panics foul_weather None (Some demo_FinalityConflict)
           (fresh_process demo_cfg []) (EvNotifyFinalityConflict "V"));
    reflexivity.
Defined.

Lemma maybeSeedFromDNS_lookups_witness :
  trace (run fair_weather maybeSeedFromDNS (fresh_process demo_cfg [])).2
  = [EvSeedFromDNS "testnet" "seeder.example" SFNodeNetwork false None ()]
  ∧ run fair_weather Start (fresh_process demo_cfg [])
    = (Returned (),
       emit EvConnectionManagerStart
         (run fair_weather maybeSeedFromDNS
            (emit EvNetAdapterStart
               (emit (EvLog LevelTrace "Starting kaspad")
                  (write field_started 1 (fresh_process demo_cfg []))))).2).
Proof.
  destruct (maybeSeedFromDNS_lookups fair_weather (fresh_process demo_cfg []))
    as (_ & H2 & _ & _ & _ & _ & _ & _ & H9).
  split; [exact H2|]. apply H9; reflexivity.
Defined.

Lemma setupIndexes_disabled_builds_manager_witness :
  run fair_weather (setupIndexes demo_NewManager demo_cfg)
    (fresh_process demo_cfg [])
  = (Returned (IndexManager_Manager (Some 0), None), fresh_process demo_cfg [])
  ∧ IndexManager_Manager (demo_NewManager []) ≠ IndexManager_nil.
Proof.
  apply (setupIndexes_disabled_builds_manager fair_weather demo_NewManager
           demo_cfg (fresh_process demo_cfg [])).
  reflexivity.
Defined.

(** End to end: DNS seeding on, a seeder that finds [A1] and [A2]; once
    every goroutine has returned, both are in the address book. *)
Example seeded_addresses_reach_address_book :
  addressBook
    (trace (exec fair_weather demo_schedule
              (Alive, fresh_process demo_cfg [Start; Start; Stop])).2)
  = [Some "A1"; Some "A2"].
Proof. reflexivity. Qed.

(** ** Runs of the lifecycle under a schedule *)

(** The three calls have returned; the goroutine spawned for the
    seeder's batch has not run yet. *)
Lemma Stop_single_execution_below_wrap_witness :
  (calls isConnectionManagerStop
     (trace (exec fair_weather demo_stop_calls_schedule
               (Alive, fresh_process demo_cfg
                         (replicate 2 Stop ++ replicate 1 Start))).2) = 1
   ∧ calls isNetAdapterStop
       (trace (exec fair_weather demo_stop_calls_schedule
                 (Alive, fresh_process demo_cfg
                           (replicate 2 Stop ++ replicate 1 Start))).2) = 1)
  ∧ goroutines
      (exec fair_weather demo_stop_calls_schedule
         (Alive, fresh_process demo_cfg
                   (replicate 2 Stop ++ replicate 1 Start))).2
    = [Ret (); Ret (); Ret (); onSeed [Some "A1"; Some "A2"]].
Proof.
  split; [|reflexivity].
  destruct (Stop_single_execution_below_wrap fair_weather 2 1
              demo_stop_calls_schedule demo_cfg) as (_ & _ & Hdone);
    [lia|simpl; lia|].
  apply Hdone; [reflexivity|]. vm_compute. repeat constructor.
Defined.

Lemma Stop_in_a_row_witness :
  calls isConnectionManagerStop
    (trace (run_times fair_weather 3 Stop (fresh_process demo_cfg [])).2) = 1
  ∧ calls isAlreadyShuttingDown
      (trace (run_times fair_weather 3 Stop (fresh_process demo_cfg [])).2)
    = N.to_nat 3 - 1.
Proof.
  destruct (Stop_in_a_row fair_weather 3 demo_cfg 0 []) as (_ & H2 & _ & H4);
    [lia|].
  split; [exact H2|exact H4].
Defined.

Lemma Stop_connection_manager_first_witness :
  calls isNetAdapterStop
    (trace (exec foul_weather demo_stop_schedule
              (Alive, fresh_process demo_cfg [Stop; Stop; Start])).2)
  ≤ calls isConnectionManagerStop
      (trace (exec foul_weather demo_stop_schedule
                (Alive, fresh_process demo_cfg [Stop; Stop; Start])).2).
Proof.
  apply (Stop_connection_manager_first foul_weather demo_stop_schedule
           (fresh_process demo_cfg [Stop; Stop; Start])).
  - constructor; [by right|]. constructor; [by right|].
    constructor; [by left|]. constructor.
  - simpl. lia.
Defined.

Lemma Start_network_adapter_first_witness :
  calls isConnectionManagerStart
    (trace (exec fair_weather demo_schedule
              (Alive, fresh_process demo_cfg [Start; Start; Stop])).2)
  ≤ calls isNetAdapterStart
      (trace (exec fair_weather demo_schedule
                (Alive, fresh_process demo_cfg [Start; Start; Stop])).2).
Proof.
  apply (Start_network_adapter_first fair_weather demo_schedule
           (fresh_process demo_cfg [Start; Start; Stop])).
  - constructor; [by left|]. constructor; [by left|].
    constructor; [by right|]. constructor.
  - reflexivity.
Defined.

Lemma Stop_can_overtake_Start_witness :
  ∃ sched t,
    let s := exec fair_weather sched (Alive, fresh_process demo_cfg [Start; Stop]) in
    s.1 = Alive
    ∧ goroutines s.2 !! 0 = Some (Ret ())
    ∧ goroutines s.2 !! 1 = Some (Ret ())
    ∧ trace s.2
      = [EvLog LevelTrace "Starting kaspad"; EvNetAdapterStart;
         EvLog LevelWarn "Kaspad shutting down"; EvConnectionManagerStop;
         EvNetAdapterStop] ++ t ++ [EvConnectionManagerStart]
    ∧ calls isNetAdapterStart t = 0.
Proof.
  apply (Stop_can_overtake_Start fair_weather demo_cfg). reflexivity.
Defined.

Lemma Start_twice_after_wrap_witness :
  let w0 := {| this := {| cfg := demo_cfg; started := 0; shutdown := 0 |};
               trace := []; goroutines := [] |} in
  let s := run_times fair_weather (2 ^ 32) Start w0 in
  s.1 = Returned ()
  ∧ started (this s.2) = 0%Z
  ∧ calls isNetAdapterStart (trace s.2) = calls isNetAdapterStart [] + 1
  ∧ calls isConnectionManagerStart (trace s.2)
    = calls isConnectionManagerStart [] + 1
  ∧ (run fair_weather Start s.2).1 = Returned ()
  ∧ calls isNetAdapterStart (trace (run fair_weather Start s.2).2)
    = calls isNetAdapterStart [] + 2
  ∧ calls isConnectionManagerStart (trace (run fair_weather Start s.2).2)
    = calls isConnectionManagerStart [] + 2.
Proof.
  exact (Start_twice_after_wrap fair_weather demo_cfg 0 [] [] (λ _, eq_refl)).
Defined.

(** ** Notifications *)

(** A [FinalityConflict] on block [V], no acceptance index: one call
    [NotifyFinalityConflict("V")]. *)
Lemma finality_notifications_forwarded_witness :
  run fair_weather (handleBlockDAGNotifications (Some demo_FinalityConflict) None)
    (fresh_process demo_cfg [])
  = (Returned None,
     emit (EvNotifyFinalityConflict "V") (fresh_process demo_cfg [])).
Proof.
  apply (proj1 (finality_notifications_forwarded fair_weather
                  demo_FinalityConflict None "V" (fresh_process demo_cfg [])));
    reflexivity.
Defined.

Lemma malformed_notification_panics_witness :
  ∃ msg,
    run fair_weather
      (handleBlockDAGNotifications (Some demo_Mismatched) (Some ()))
      (fresh_process demo_cfg [])
    = (Panicked (RuntimeError msg), fresh_process demo_cfg [])
    ∧ run fair_weather (dagSubscriber (Some ()) (Some demo_Mismatched))
        (fresh_process demo_cfg [])
      = (Panicked (RuntimeError msg), fresh_process demo_cfg []).
Proof.
  apply (malformed_notification_panics fair_weather (Some ())
           (Some demo_Mismatched) (fresh_process demo_cfg [])).
  simpl. split; [discriminate|]. intros d. discriminate.
Defined.

(** ** Seeding *)

Lemma seeded_batches_reach_address_book_witness :
  Some "A2"
  ∈ addressBook
      (trace (exec fair_weather demo_schedule
                (Alive, fresh_process demo_cfg [Start; Start; Stop])).2).
Proof.
  assert (Htr : trace (exec fair_weather demo_schedule
                         (Alive, fresh_process demo_cfg [Start; Start; Stop])).2
                = [EvLog LevelTrace "Starting kaspad"; EvNetAdapterStart]
                  ++ EvSeedFromDNS "testnet" "seeder.example" 1%Z false None ()
                     :: [EvConnectionManagerStart;
                         EvLog LevelWarn "Kaspad shutting down";
                         EvConnectionManagerStop; EvNetAdapterStop;
                         EvAddAddresses [Some "A1"; Some "A2"]])
    by (vm_compute; reflexivity).
  eapply (seeded_batches_reach_address_book fair_weather demo_schedule
            (fresh_process demo_cfg [Start; Start; Stop]));
    [| | | |exact Htr| |].
  - constructor; [by left|]. constructor; [by left|].
    constructor; [by right|]. constructor.
  - reflexivity.
  - reflexivity.
  - vm_compute. repeat constructor.
  - simpl. apply list_elem_of_here.
  - apply elem_of_cons. right. apply list_elem_of_here.
Defined.

Lemma onSeed_goroutine_adds_batch_witness :
  EvAddAddresses [Some "A1"]
  ∈ trace (exec fair_weather [0]
             (Alive, fresh_process demo_cfg [onSeed [Some "A1"]])).2
  ∧ ∀ a, a ∈ [Some "A1"] →
         a ∈ addressBook
               (trace (exec fair_weather [0]
                         (Alive,
                          fresh_process demo_cfg [onSeed [Some "A1"]])).2).
Proof.
  apply (onSeed_goroutine_adds_batch fair_weather [0] 0).
  - reflexivity.
  - reflexivity.
  - exists (Ret ()). split; [reflexivity|exact I].
Defined.

Lemma address_book_holds_only_seeded_witness :
  ∃ batch,
    Some "A1" ∈ batch
    ∧ obtained fair_weather
        (trace (exec fair_weather demo_schedule
                  (Alive, fresh_process demo_cfg [Start; Start; Stop])).2)
        batch.
Proof.
  apply (proj2 (address_book_holds_only_seeded fair_weather demo_schedule
                  (fresh_process demo_cfg [Start; Start; Stop])
                  ltac:(constructor; [by left|]; constructor; [by left|];
                        constructor; [by right|]; constructor)
                  eq_refl)).
  vm_compute. apply list_elem_of_here.
Defined.

(** ** Construction *)

#[local] Existing Instance demo_packages.

(** Every constructor succeeds: a component manager and no error. *)
Lemma NewComponentManager_manager_or_error_witness :
  ((∃ a, Some demo_node = Some a) ∧ (None : option error) = None
   ∨ Some demo_node = None ∧ ∃ e, (None : option error) = Some e)
  ∧ ∃ cs,
      built (NewComponentManager fair_weather all_built demo_NewManager
               demo_full_cfg "db" () demo_site).2
      = built demo_site ++ cs
      ∧ ((None : option error) = None
         ↔ Forall (λ c, answered_error all_built c = None) cs).
Proof.
  apply (NewComponentManager_manager_or_error fair_weather all_built
           demo_NewManager demo_full_cfg "db" () demo_site (Some demo_node)
           None).
  reflexivity.
Defined.

(** The network adapter cannot be built: construction stops there. *)
Lemma NewComponentManager_fails_fast_witness :
  (None : ptr Node) = None
  ∧ ∃ cs c,
      built (NewComponentManager fair_weather no_listener demo_NewManager
               demo_full_cfg "db" () demo_site).2
      = built demo_site ++ cs ++ [c]
      ∧ answered_error no_listener c = Some "listen: address already in use"
      ∧ Forall
          (λ c', answered_error no_listener c' = None ∧ isSetupRPC c' = false)
          cs.
Proof.
  apply (NewComponentManager_fails_fast fair_weather no_listener
           demo_NewManager demo_full_cfg "db" () demo_site
           "listen: address already in use" None).
  reflexivity.
Defined.

Lemma NewComponentManager_wires_shared_instances_witness :
  netadapter_NewNetAdapter all_built demo_full_cfg = (netAdapter demo_node, None)
  ∧ connmanager_New all_built demo_full_cfg (netAdapter demo_node)
      (AddressManager demo_node)
    = (connectionManager demo_node, None)
  ∧ receiver demo_node = {| cfg := demo_cfg; started := 0; shutdown := 0 |}.
Proof.
  destruct (NewComponentManager_wires_shared_instances fair_weather all_built
              demo_NewManager demo_full_cfg "db" () demo_site demo_node
              eq_refl)
    as (indexManager & acceptanceIndex & sigCache & dag & txMempool
        & blockTemplateGenerator & _ & _ & Hna & _ & Hcm & _ & _ & _ & _ & Hrc).
  split_and!; [exact Hna|exact Hcm|exact Hrc].
Defined.

(** The acceptance index is disabled in [demo_full_cfg]: the callback
    registered on the DAG ignores [ChainChanged]. *)
Lemma ChainChanged_forwarding_follows_configuration_witness :
  ∃ cs dag callback,
    built (NewComponentManager fair_weather all_built demo_NewManager
             demo_full_cfg "db" () demo_site).2
    = built demo_site ++ cs ++ [Call_Subscribe dag callback]
    ∧ run fair_weather (callback (Some demo_ChainChanged))
        (fresh_process demo_cfg [])
      = (Returned (), fresh_process demo_cfg []).
Proof.
  destruct (ChainChanged_forwarding_follows_configuration fair_weather
              all_built demo_NewManager demo_full_cfg "db" () demo_site
              demo_node eq_refl)
    as (cs & dag & callback & Hbuilt & _ & Hcb).
  exists cs, dag, callback. split; [exact Hbuilt|].
  apply (Hcb demo_ChainChanged demo_ChainChangedData
           (fresh_process demo_cfg []) eq_refl eq_refl).
  reflexivity.
Defined.

Lemma new_component_manager_is_fresh_witness :
  (∃ evs,
     trace (run fair_weather Start
              {| this := receiver demo_node; trace := []; goroutines := [] |}).2
     = [] ++ [EvLog LevelTrace "Starting kaspad"; EvNetAdapterStart] ++ evs)
  ∧ (∃ evs,
       trace (run fair_weather Stop
                {| this := receiver demo_node; trace := [];
                   goroutines := [] |}).2
       = [] ++ [EvLog LevelWarn "Kaspad shutting down";
                EvConnectionManagerStop; EvNetAdapterStop] ++ evs).
Proof.
  apply (new_component_manager_is_fresh fair_weather all_built demo_NewManager
           demo_full_cfg "db" () demo_site demo_node [] []).
  reflexivity.
Defined.

End Runs.
